(** * hlerr: the stream multiplexer, the output renderer and the reaper

    A shallow embedding of [hlerr.c].  The controlling process ([parent])
    polls the two pipes of the child, reads one byte from each ready pipe,
    renders stdout bytes line-buffered and stderr bytes between colour
    markers, and finally waits for the child and reports its status.

    The program's globals and the operating system it talks to are one
    explicit [state]; every C function is a computation in the state
    monad [M] below.  The operating system is modelled by scripts: for
    each system call a list of the outcomes its successive invocations
    will have.  When a script is used up the call takes its quiescent
    outcome (writes are accepted, reads and polls see the closed pipe),
    so every finite behaviour of the environment is a script.

    The launcher ([main], [usage], [child]) is embedded after [parent]:
    it adds the descriptor table of the process to the state and takes
    the outcomes of [pipe], [fork], [dup2] and [execvp] as given. *)

From Stdlib Require Import ZArith Lia Bool Strings.String Strings.Byte DecimalString.
From stdpp Require Import base tactics list gmap.

Local Open Scope Z_scope.

(** ** Bytes and constants *)

Abbreviation byte := Byte.byte.

(** A C string literal initialises a [char] array with its characters and
    a terminating NUL; [sizeof] of such an array counts the NUL. *)
Definition c_string_literal (chars : list byte) : list byte := chars ++ [x00].

Definition sizeof_array (a : list byte) : Z := Z.of_nat (length a).

(** [static const char STDERR_BEGIN_MARKER[] = "\x1b[31m";] *)
Definition STDERR_BEGIN_MARKER : list byte :=
  c_string_literal [x1b; x5b; x33; x31; x6d].

(** [static const char STDERR_END_MARKER[] = "\x1b[m";] *)
Definition STDERR_END_MARKER : list byte :=
  c_string_literal [x1b; x5b; x6d].

Definition STDOUT_FILENO : Z := 1.
Definition STDERR_FILENO : Z := 2.
Definition EXIT_FAILURE : Z := 1.

(** [errno] value of an interrupted system call, and the quiescent
    failure of [wait] (no child left), with their Linux numbers. *)
Definition EINTR : Z := 4.
Definition ECHILD : Z := 10.

(** [<poll.h>] event bits (Linux). *)
Definition POLLIN : Z := 1.
Definition POLLPRI : Z := 2.
Definition POLLERR : Z := 8.
Definition POLLHUP : Z := 16.
Definition POLLNVAL : Z := 32.

(** [char stdout_line[1024];] *)
Definition STDOUT_LINE_SIZE : Z := 1024.

(** [size_t] arithmetic wraps at [2^64]. *)
Definition size_t_wrap (n : Z) : Z := n mod 2 ^ 64.

(** The conversion of an [ssize_t] to [int] keeps the low 32 bits. *)
Definition to_int (n : Z) : Z := (n + 2 ^ 31) mod 2 ^ 32 - 2 ^ 31.
Arguments to_int : simpl never.

Definition newline : byte := x0a.

(** ** Outcomes of system calls *)

Inductive close_outcome := CloseOk | CloseFail (e : Z).

(** A successful [poll] fills in the two [revents] fields. *)
Inductive poll_outcome := PollReady (revents0 revents1 : Z) | PollFail (e : Z).

(** [read(fd, buf, 1)]: one byte, end of stream, or failure. *)
Inductive read_outcome := ReadByte (b : byte) | ReadEof | ReadFail (e : Z).

(** [write(fd, buf, nbyte)]: everything accepted, at most [k] bytes
    accepted, or failure. *)
Inductive write_outcome := WAll | WShort (k : Z) | WFail (e : Z).

Inductive wait_outcome := WaitPid (pid status : Z) | WaitFail (e : Z).

(** Messages of the C library on the controller's own error stream. *)
Inductive diag := Perror (msg : string) (e : Z) | Fprintf (text : string).

(** ** The state *)

(** The three globals of [hlerr.c]. *)
Record globals := mkGlobals {
  in_stderr : bool;
  stdout_line : list byte;
  stdout_line_pos : Z
}.

Record state := mkState {
  glob : globals;
  errno : Z;
  (* scripts of the operating system *)
  os_close : list close_outcome;
  os_poll : list poll_outcome;
  os_read : list read_outcome;
  os_write : list write_outcome;
  os_wait : list wait_outcome;
  (* values found in uninitialised locals *)
  os_indet : list byte;
  (* what the process has done *)
  sink : list (Z * list byte);   (* data taken by each write(2): (fd, bytes) *)
  closed : list Z;               (* descriptors passed to close(2) *)
  stdio_out : string;            (* text printed with printf *)
  stdio_err : list diag          (* perror and fprintf(stderr, ...) *)
}.

Definition with_glob (g : globals) (s : state) : state :=
  mkState g (errno s) (os_close s) (os_poll s) (os_read s) (os_write s)
    (os_wait s) (os_indet s) (sink s) (closed s) (stdio_out s) (stdio_err s).
Definition with_errno (e : Z) (s : state) : state :=
  mkState (glob s) e (os_close s) (os_poll s) (os_read s) (os_write s)
    (os_wait s) (os_indet s) (sink s) (closed s) (stdio_out s) (stdio_err s).
Definition with_os_close (l : list close_outcome) (s : state) : state :=
  mkState (glob s) (errno s) l (os_poll s) (os_read s) (os_write s)
    (os_wait s) (os_indet s) (sink s) (closed s) (stdio_out s) (stdio_err s).
Definition with_os_poll (l : list poll_outcome) (s : state) : state :=
  mkState (glob s) (errno s) (os_close s) l (os_read s) (os_write s)
    (os_wait s) (os_indet s) (sink s) (closed s) (stdio_out s) (stdio_err s).
Definition with_os_read (l : list read_outcome) (s : state) : state :=
  mkState (glob s) (errno s) (os_close s) (os_poll s) l (os_write s)
    (os_wait s) (os_indet s) (sink s) (closed s) (stdio_out s) (stdio_err s).
Definition with_os_write (l : list write_outcome) (s : state) : state :=
  mkState (glob s) (errno s) (os_close s) (os_poll s) (os_read s) l
    (os_wait s) (os_indet s) (sink s) (closed s) (stdio_out s) (stdio_err s).
Definition with_os_wait (l : list wait_outcome) (s : state) : state :=
  mkState (glob s) (errno s) (os_close s) (os_poll s) (os_read s) (os_write s)
    l (os_indet s) (sink s) (closed s) (stdio_out s) (stdio_err s).
Definition with_os_indet (l : list byte) (s : state) : state :=
  mkState (glob s) (errno s) (os_close s) (os_poll s) (os_read s) (os_write s)
    (os_wait s) l (sink s) (closed s) (stdio_out s) (stdio_err s).
Definition with_sink (l : list (Z * list byte)) (s : state) : state :=
  mkState (glob s) (errno s) (os_close s) (os_poll s) (os_read s) (os_write s)
    (os_wait s) (os_indet s) l (closed s) (stdio_out s) (stdio_err s).
Definition with_closed (l : list Z) (s : state) : state :=
  mkState (glob s) (errno s) (os_close s) (os_poll s) (os_read s) (os_write s)
    (os_wait s) (os_indet s) (sink s) l (stdio_out s) (stdio_err s).
Definition with_stdio_out (t : string) (s : state) : state :=
  mkState (glob s) (errno s) (os_close s) (os_poll s) (os_read s) (os_write s)
    (os_wait s) (os_indet s) (sink s) (closed s) t (stdio_err s).
Definition with_stdio_err (l : list diag) (s : state) : state :=
  mkState (glob s) (errno s) (os_close s) (os_poll s) (os_read s) (os_write s)
    (os_wait s) (os_indet s) (sink s) (closed s) (stdio_out s) l.

(** [bool in_stderr = false; char stdout_line[1024]; size_t stdout_line_pos = 0;]
    (objects of static storage are zero-initialised). *)
Definition initial_globals : globals :=
  mkGlobals false (replicate (Z.to_nat STDOUT_LINE_SIZE) x00) 0.

(** ** The monad

    A computation takes the state and gives a value and the new state.
    It gives [None] when the C program has no defined result: a store
    outside an array, or a loop that used up the budget its script allows
    (the lemmas below show that the latter never happens). *)

Definition M (A : Type) : Type := state -> option (A * state).

Definition ret {A} (a : A) : M A := fun s => Some (a, s).

Definition bind {A B} (m : M A) (k : A -> M B) : M B :=
  fun s => match m s with
           | Some (a, s') => k a s'
           | None => None
           end.

Definition undefined {A} : M A := fun _ => None.

Notation "'let*' x ':=' m 'in' k" := (bind m (fun x => k))
  (at level 10, x pattern, m at level 100, k at level 200).
Notation "m ';;;' k" := (bind m (fun _ => k))
  (at level 100, k at level 200, right associativity).

Definition get_glob : M globals := fun s => Some (glob s, s).
Definition put_glob (g : globals) : M unit := fun s => Some (tt, with_glob g s).
Definition get_errno : M Z := fun s => Some (errno s, s).

(** ** The C library: diagnostics and printf *)

Definition perror (msg : string) : M unit :=
  fun s => Some (tt, with_stdio_err (stdio_err s ++ [Perror msg (errno s)]) s).

Definition fprintf_stderr (text : string) : M unit :=
  fun s => Some (tt, with_stdio_err (stdio_err s ++ [Fprintf text]) s).

Definition printf (text : string) : M unit :=
  fun s => Some (tt, with_stdio_out (stdio_out s ++ text)%string s).

(** ** System calls *)

(** [close(fd)]. *)
Definition sys_close (fd : Z) : M Z := fun s =>
  let s1 := with_closed (closed s ++ [fd]) s in
  match os_close s with
  | [] => Some (0, s1)
  | CloseOk :: rest => Some (0, with_os_close rest s1)
  | CloseFail e :: rest => Some (-1, with_errno e (with_os_close rest s1))
  end.

(** [poll(pfd, 2, -1)]: the return value and the two [revents]. *)
Definition sys_poll : M (Z * Z * Z) := fun s =>
  match os_poll s with
  | [] => Some ((2, POLLHUP, POLLHUP), s)
  | PollReady r0 r1 :: rest => Some ((1, r0, r1), with_os_poll rest s)
  | PollFail e :: rest => Some ((-1, 0, 0), with_errno e (with_os_poll rest s))
  end.

(** [read(fd, &c, 1)]: the return value and the content of [c] after the
    call, which is untouched unless a byte arrived. *)
Definition sys_read (fd : Z) (c : byte) : M (Z * byte) := fun s =>
  match os_read s with
  | [] => Some ((0, c), s)
  | ReadByte b :: rest => Some ((1, b), with_os_read rest s)
  | ReadEof :: rest => Some ((0, c), with_os_read rest s)
  | ReadFail e :: rest => Some ((-1, c), with_errno e (with_os_read rest s))
  end.

(** [write(fd, buf, nbyte)]: the bytes taken are appended to the sink. *)
Definition sys_write (fd : Z) (buf : list byte) (nbyte : Z) : M Z := fun s =>
  let accept n rest :=
    Some (n, with_sink (sink s ++ [(fd, take (Z.to_nat n) buf)])
               (with_os_write rest s)) in
  match os_write s with
  | [] => accept nbyte []
  | WAll :: rest => accept nbyte rest
  | WShort k :: rest => accept (Z.max 0 (Z.min k nbyte)) rest
  | WFail e :: rest => Some (-1, with_errno e (with_os_write rest s))
  end.

(** [wait(&status)]: the pid returned and the status stored. *)
Definition sys_wait : M (Z * Z) := fun s =>
  match os_wait s with
  | [] => Some ((-1, 0), with_errno ECHILD s)
  | WaitPid pid status :: rest => Some ((pid, status), with_os_wait rest s)
  | WaitFail e :: rest => Some ((-1, 0), with_errno e (with_os_wait rest s))
  end.

(** The value of a local declared without initialiser ([char c;]). *)
Definition indeterminate : M byte := fun s =>
  match os_indet s with
  | [] => Some (x00, s)
  | b :: rest => Some (b, with_os_indet rest s)
  end.

(** ** [read_nointr], [write_nointr], [write_all_nointr] *)

(** [int numread; do { numread = read(fd, buf, nbyte); } while (numread == -1
    && errno == EINTR); return numread;]  Every call site passes
    [nbyte = 1]. *)
Fixpoint read_nointr_loop (fuel : nat) (fd : Z) (c : byte) : M (Z * byte) :=
  match fuel with
  | O => undefined
  | S fuel' =>
      let* (numread, c') := sys_read fd c in
      let numread := to_int numread in
      let* e := get_errno in
      if (numread =? -1) && (e =? EINTR)
      then read_nointr_loop fuel' fd c'
      else ret (numread, c')
  end.

Definition read_nointr (fd : Z) (c : byte) : M (Z * byte) :=
  fun s => read_nointr_loop (S (length (os_read s))) fd c s.

(** [int numwritten; do { numwritten = write(fd, buf, nbyte); } while
    (numwritten == -1 && errno == EINTR); return numwritten;] *)
Fixpoint write_nointr_loop (fuel : nat) (fd : Z) (buf : list byte) (nbyte : Z) : M Z :=
  match fuel with
  | O => undefined
  | S fuel' =>
      let* numwritten := sys_write fd buf nbyte in
      let numwritten := to_int numwritten in
      let* e := get_errno in
      if (numwritten =? -1) && (e =? EINTR)
      then write_nointr_loop fuel' fd buf nbyte
      else ret numwritten
  end.

Definition write_nointr (fd : Z) (buf : list byte) (nbyte : Z) : M Z :=
  fun s => write_nointr_loop (S (length (os_write s))) fd buf nbyte s.

(** [size_t numwritten = 0; while (numwritten < nbyte) { int rc =
    write_nointr(fd, buf + numwritten, nbyte - numwritten); if (rc == -1)
    { perror("write()"); return rc; } numwritten += rc; } return 0;] *)
Fixpoint write_all_loop (fuel : nat) (fd : Z) (buf : list byte) (nbyte : Z)
    (numwritten : Z) : M Z :=
  match fuel with
  | O => undefined
  | S fuel' =>
      if numwritten <? nbyte then
        let* rc := write_nointr fd (drop (Z.to_nat numwritten) buf)
                     (nbyte - numwritten) in
        if rc =? -1 then perror "write()" ;;; ret rc
        else write_all_loop fuel' fd buf nbyte (size_t_wrap (numwritten + rc))
      else ret 0
  end.

Definition write_all_nointr (fd : Z) (buf : list byte) (nbyte : Z) : M Z :=
  fun s => write_all_loop (S (S (length (os_write s)))) fd buf nbyte 0 s.

(** ** The output renderer *)

Definition nonzero (rc : Z) : bool := negb (rc =? 0).

(** [int set_stderr(bool is_stderr)] *)
Definition set_stderr (is_stderr : bool) : M Z :=
  let* g := get_glob in
  if Bool.eqb is_stderr (in_stderr g) then ret 0
  else
    put_glob (mkGlobals is_stderr (stdout_line g) (stdout_line_pos g)) ;;;
    if is_stderr
    then write_all_nointr STDERR_FILENO STDERR_BEGIN_MARKER
           (sizeof_array STDERR_BEGIN_MARKER)
    else write_all_nointr STDERR_FILENO STDERR_END_MARKER
           (sizeof_array STDERR_END_MARKER).

(** [int flush_stdout_line()] *)
Definition flush_stdout_line : M Z :=
  let* r := set_stderr false in
  if nonzero r then ret 1
  else
    let* g := get_glob in
    let* r := write_all_nointr STDOUT_FILENO (stdout_line g) (stdout_line_pos g) in
    if nonzero r then ret 1
    else
      let* g := get_glob in
      put_glob (mkGlobals (in_stderr g) (stdout_line g) 0) ;;;
      ret 0.

(** [stdout_line[stdout_line_pos++] = c;]  A store outside the array has
    no defined result. *)
Definition store_stdout_line (c : byte) : M unit := fun s =>
  let g := glob s in
  let i := stdout_line_pos g in
  if (0 <=? i) && (i <? Z.of_nat (length (stdout_line g)))
  then Some (tt, with_glob (mkGlobals (in_stderr g)
                              (<[Z.to_nat i := c]> (stdout_line g))
                              (size_t_wrap (i + 1))) s)
  else None.

(** [int stdout_putc(char c)] *)
Definition stdout_putc (c : byte) : M Z :=
  let* g := get_glob in
  let* r := (if STDOUT_LINE_SIZE <=? stdout_line_pos g
             then flush_stdout_line else ret 0) in
  if nonzero r then ret 1
  else
    store_stdout_line c ;;;
    if Byte.eqb c newline
    then (let* r := flush_stdout_line in
          if nonzero r then ret 1 else ret 0)
    else ret 0.

(** [int stderr_putc(char c)] *)
Definition stderr_putc (c : byte) : M Z :=
  let* r := set_stderr true in
  if nonzero r then ret 1
  else
    let* r := write_all_nointr STDERR_FILENO [c] 1 in
    if nonzero r then ret 1 else ret 0.

(** ** The wait status and the signal names *)

(** The macros of [<sys/wait.h>] as glibc defines them on Linux. *)
Definition WTERMSIG (status : Z) : Z := Z.land status 127.
Definition WEXITSTATUS (status : Z) : Z := Z.shiftr (Z.land status 65280) 8.
Definition WIFEXITED (status : Z) : bool := WTERMSIG status =? 0.
Definition signed_char (n : Z) : Z :=
  let m := n mod 256 in if m <? 128 then m else m - 256.
Definition WIFSIGNALED (status : Z) : bool :=
  0 <? Z.shiftr (signed_char (Z.land status 127 + 1)) 1.

(** [const char *get_signal_name(int signal)], with the Linux signal
    numbers; [None] is the [NULL] of the default case. *)
Definition signal_table : list (Z * string) :=
  [ (6, "SIGABRT"); (14, "SIGALRM"); (7, "SIGBUS"); (17, "SIGCHLD");
    (18, "SIGCONT"); (8, "SIGFPE"); (1, "SIGHUP"); (4, "SIGILL");
    (2, "SIGINT"); (9, "SIGKILL"); (13, "SIGPIPE"); (3, "SIGQUIT");
    (11, "SIGSEGV"); (19, "SIGSTOP"); (15, "SIGTERM"); (20, "SIGTSTP");
    (21, "SIGTTIN"); (22, "SIGTTOU"); (10, "SIGUSR1"); (12, "SIGUSR2");
    (29, "SIGPOLL"); (27, "SIGPROF"); (31, "SIGSYS"); (5, "SIGTRAP");
    (23, "SIGURG"); (26, "SIGVTALRM"); (24, "SIGXCPU"); (25, "SIGXFSZ") ]%string.

Fixpoint lookup_signal (table : list (Z * string)) (signal : Z) : option string :=
  match table with
  | [] => None
  | (n, name) :: rest => if signal =? n then Some name else lookup_signal rest signal
  end.

Definition get_signal_name (signal : Z) : option string :=
  lookup_signal signal_table signal.

(** The conversion [%d] of printf. *)
Definition decimal (n : Z) : string := NilZero.string_of_int (Z.to_int n).

Definition ESC : string := String (Ascii.ascii_of_byte x1b) EmptyString.
Definition LF : string := String (Ascii.ascii_of_byte x0a) EmptyString.

(** ["\x1b[34m" ... "\x1b[m\n"] *)
Definition blue (text : string) : string :=
  (ESC ++ "[34m" ++ text ++ ESC ++ "[m" ++ LF)%string.

(** ** The controlling process *)

Definition has_event (revents mask : Z) : bool := negb (Z.land revents mask =? 0).

(** One ready channel: [char c; rc = read_nointr(fd, &c, 1); if (rc == -1)
    { perror(...); goto reap_child; } putc(c); got = true;].
    [None] stands for the jump to [reap_child]. *)
Definition service (fd : Z) (what : string) (putc : byte -> M Z) : M (option bool) :=
  let* c := indeterminate in
  let* (rc, c) := read_nointr fd c in
  if rc =? -1 then perror what ;;; ret None
  else putc c ;;; ret (Some true).

(** The [for (;;)] loop of [parent]; it ends by [break] or by a jump to
    [reap_child], which both continue at the label. *)
Fixpoint multiplex_loop (fuel : nat) (fd_out fd_err : Z) : M unit :=
  match fuel with
  | O => undefined
  | S fuel' =>
      let* (rc_r0, r1) := sys_poll in
      let (rc, r0) := rc_r0 : Z * Z in
      if rc =? -1 then perror "poll()"
      else if has_event r0 (Z.lor POLLERR POLLNVAL)
              || has_event r1 (Z.lor POLLERR POLLNVAL)
      then fprintf_stderr ("stream error" ++ LF)
      else
        let* got_stdout :=
          (if has_event r0 (Z.lor POLLIN POLLPRI)
           then service fd_out "read() from stdout pipe" stdout_putc
           else ret (Some false)) in
        match got_stdout with
        | None => ret tt
        | Some got_stdout =>
            let* got_stderr :=
              (if has_event r1 (Z.lor POLLIN POLLPRI)
               then service fd_err "read() from stderr pipe" stderr_putc
               else ret (Some false)) in
            match got_stderr with
            | None => ret tt
            | Some got_stderr =>
                if negb got_stdout && negb got_stderr then ret tt
                else multiplex_loop fuel' fd_out fd_err
            end
        end
  end.

Definition multiplex (fd_out fd_err : Z) : M unit :=
  fun s => multiplex_loop (S (length (os_poll s))) fd_out fd_err s.

(** The end of [parent], from [wait] on.  Every branch of the status
    test returns, so the two [close] calls and the [return EXIT_SUCCESS]
    that follow it in the source are never reached. *)
Definition wait_and_report : M Z :=
  let* (wpid, status) := sys_wait in
  if wpid =? -1 then perror "wait()" ;;; ret EXIT_FAILURE
  else if WIFEXITED status then
    printf (blue ("Exited with status " ++ decimal (WEXITSTATUS status))) ;;;
    ret (WEXITSTATUS status)
  else if WIFSIGNALED status then
    match get_signal_name (WTERMSIG status) with
    | Some signal_name =>
        printf (blue ("Killed by signal " ++ decimal (WTERMSIG status)
                        ++ " (" ++ signal_name ++ ")"))
    | None =>
        printf (blue ("Killed by signal " ++ decimal (WTERMSIG status)))
    end ;;;
    ret EXIT_FAILURE
  else
    fprintf_stderr (blue ("Unknown status " ++ decimal status
                            ++ " returned from wait() for pid " ++ decimal wpid)) ;;;
    ret EXIT_FAILURE.

(** From the label [reap_child] on: the final flush, whose result is
    ignored, then the wait. *)
Definition reap_child : M Z :=
  flush_stdout_line ;;;
  wait_and_report.

(** [int parent(int *stdout_pipes, int *stderr_pipes)]; a pipe is the pair
    of its read end and its write end. *)
Definition parent (stdout_pipes stderr_pipes : Z * Z) : M Z :=
  let* rc := sys_close (snd stdout_pipes) in
  if rc =? -1 then perror "close(stdout_pipes[1])" ;;; reap_child
  else
    let* rc := sys_close (snd stderr_pipes) in
    if rc =? -1 then perror "close(stderr_pipes[1])" ;;; reap_child
    else
      multiplex (fst stdout_pipes) (fst stderr_pipes) ;;;
      reap_child.

(** The state in which [main] calls [parent]: the globals as initialised,
    nothing done yet, and the given scripts for the operating system. *)
Definition boot (closes : list close_outcome) (polls : list poll_outcome)
    (reads : list read_outcome) (writes : list write_outcome)
    (waits : list wait_outcome) (indet : list byte) : state :=
  mkState initial_globals 0 closes polls reads writes waits indet [] []
    EmptyString [].

(** ** The launcher: [usage], [child] and [main]

    [main] creates the two pipes and forks; the child rebinds its standard
    output and standard error to the pipes and becomes the command.  Both
    work on the descriptor table of the process, which the state above
    does not hold: a [process] is that state together with the table, a
    finite map from open descriptors to what they refer to. *)

Definition EBADF : Z := 9.

Inductive channel := ChanOut | ChanErr.

(** What a descriptor refers to: something the process was started with,
    or one end of one of the two pipes. *)
Inductive file := Inherited (n : Z) | ReadEnd (ch : channel) | WriteEnd (ch : channel).

Record process := mkProcess {
  proc : state;
  fds : gmap Z file
}.

(** How a process ends: it exits with a code ([exit] or the return from
    [main]), or a successful [execvp] turns it into the command. *)
Inductive process_end := Exit (code : Z) | Exec (path : string) (args : list string).

(** [pipe(fildes)] and [fork()]; [dup2] and [execvp] succeed or fail. *)
Inductive pipe_outcome := PipeOk (r w : Z) | PipeFail (e : Z).
Inductive fork_outcome := ForkChild | ForkParent (pid : Z) | ForkFail (e : Z).
Inductive call_outcome := CallOk | CallFail (e : Z).

(** What the operating system answers to the calls of the launch, each
    of which is made at most once. *)
Record launch := mkLaunch {
  launch_pipe_out : pipe_outcome;
  launch_pipe_err : pipe_outcome;
  launch_fork : fork_outcome;
  launch_dup2_out : call_outcome;
  launch_dup2_err : call_outcome;
  launch_execvp : call_outcome
}.

Definition PM (A : Type) : Type := process -> option (A * process).

Definition pret {A} (a : A) : PM A := fun p => Some (a, p).

Definition pbind {A B} (m : PM A) (k : A -> PM B) : PM B :=
  fun p => match m p with
           | Some (a, p') => k a p'
           | None => None
           end.

Definition pundefined {A} : PM A := fun _ => None.

(** A computation on the state alone leaves the table as it is. *)
Definition lift {A} (m : M A) : PM A :=
  fun p => match m (proc p) with
           | Some (a, s') => Some (a, mkProcess s' (fds p))
           | None => None
           end.

Notation "'let+' x ':=' m 'in' k" := (pbind m (fun x => k))
  (at level 10, x pattern, m at level 100, k at level 200).
Notation "m ';+' k" := (pbind m (fun _ => k))
  (at level 100, k at level 200, right associativity).

(** [pipe(fildes)]: the return value and the content of the array, which
    a failed call leaves unset (no caller looks at it then). *)
Definition sys_pipe (ch : channel) (o : pipe_outcome) : PM (Z * (Z * Z)) := fun p =>
  match o with
  | PipeOk r w =>
      Some ((0, (r, w)),
            mkProcess (proc p) (<[w := WriteEnd ch]> (<[r := ReadEnd ch]> (fds p))))
  | PipeFail e => Some ((-1, (0, 0)), mkProcess (with_errno e (proc p)) (fds p))
  end.

(** [fork()]: 0 in the child, the child's pid in the parent. *)
Definition sys_fork (o : fork_outcome) : PM Z := fun p =>
  match o with
  | ForkChild => Some (0, p)
  | ForkParent pid => Some (pid, p)
  | ForkFail e => Some (-1, mkProcess (with_errno e (proc p)) (fds p))
  end.

(** [close(fd)] with the table followed: a descriptor that is not open
    fails with [EBADF]; an open one takes its outcome from the script and
    leaves the table when the call succeeds. *)
Definition close_fd (fd : Z) : PM Z := fun p =>
  match fds p !! fd with
  | None =>
      Some (-1, mkProcess (with_errno EBADF
                             (with_closed (closed (proc p) ++ [fd]) (proc p)))
                  (fds p))
  | Some _ =>
      match sys_close fd (proc p) with
      | Some (rc, s') =>
          Some (rc, mkProcess s' (if rc =? 0 then delete fd (fds p) else fds p))
      | None => None
      end
  end.

(** [dup2(fildes, fildes2)]: [fildes2] comes to refer to what [fildes]
    refers to and is returned; a [fildes] that is not open fails with
    [EBADF]. *)
Definition sys_dup2 (o : call_outcome) (fildes fildes2 : Z) : PM Z := fun p =>
  match fds p !! fildes with
  | None => Some (-1, mkProcess (with_errno EBADF (proc p)) (fds p))
  | Some f =>
      match o with
      | CallOk => Some (fildes2, mkProcess (proc p) (<[fildes2 := f]> (fds p)))
      | CallFail e => Some (-1, mkProcess (with_errno e (proc p)) (fds p))
      end
  end.

(** [execvp(file, argv)] returns only when it fails; [Some] is the
    command the process has become. *)
Definition sys_execvp (o : call_outcome) (path : string) (args : list string)
    : PM (option process_end) := fun p =>
  match o with
  | CallOk => Some (Some (Exec path args), p)
  | CallFail e => Some (None, mkProcess (with_errno e (proc p)) (fds p))
  end.

(** [void usage(const char *argv0)]: the message, then [exit(2)].  With
    no [argv[0]] the conversion [%s] is handed a null pointer, which has
    no defined result. *)
Definition usage (argv0 : option string) : PM process_end :=
  match argv0 with
  | Some name =>
      lift (fprintf_stderr ("usage: " ++ name ++ " <command>..." ++ LF)) ;+
      pret (Exit 2)
  | None => pundefined
  end.

(** [int child(int argc, char *argv[], int *stdout_pipes, int *stderr_pipes)];
    [argv] is the list of the arguments before the terminating null
    pointer, and [&argv[1]] its tail. *)
Definition child (env : launch) (argv : list string)
    (stdout_pipes stderr_pipes : Z * Z) : PM process_end :=
  let err0 := pret (Exit EXIT_FAILURE) in
  let+ rc := close_fd (fst stdout_pipes) in
  if rc =? -1 then lift (perror "close(stdout_pipes[0])") ;+ err0 else
  let+ rc := close_fd (fst stderr_pipes) in
  if rc =? -1 then lift (perror "close(stderr_pipes[0])") ;+ err0 else
  let+ rc := sys_dup2 (launch_dup2_out env) (snd stdout_pipes) STDOUT_FILENO in
  if rc =? -1 then lift (perror "dup2() for STDOUT") ;+ err0 else
  let+ rc := close_fd (snd stdout_pipes) in
  if rc =? -1 then lift (perror "close(stdout_pipes[1])") ;+ err0 else
  let+ rc := sys_dup2 (launch_dup2_err env) (snd stderr_pipes) STDERR_FILENO in
  if rc =? -1 then lift (perror "dup2() for STDERR") ;+ err0 else
  let+ rc := close_fd (snd stderr_pipes) in
  if rc =? -1 then lift (perror "close(stderr_pipes[1])") ;+ err0 else
  match argv with
  | _ :: path :: args =>
      let+ became := sys_execvp (launch_execvp env) path (path :: args) in
      match became with
      | Some command => pret command
      | None => lift (perror "Failed to execute") ;+ pret (Exit (-1))
      end
  | _ => pundefined
  end.

(** [int main(int argc, char *argv[])], with [argc] the length of [argv]. *)
Definition main (env : launch) (argv : list string) : PM process_end :=
  let argc := Z.of_nat (length argv) in
  let err0 := pret (Exit EXIT_FAILURE) in
  if argc <=? 1 then usage (argv !! 0%nat)
  else
    let+ (rc, stdout_pipe) := sys_pipe ChanOut (launch_pipe_out env) in
    if rc =? -1 then lift (perror "pipe(stdout_pipe)") ;+ err0 else
    let+ (rc, stderr_pipe) := sys_pipe ChanErr (launch_pipe_err env) in
    if rc =? -1 then lift (perror "pipe(stderr_pipe)") ;+ err0 else
    let+ pid := sys_fork (launch_fork env) in
    if pid =? -1 then lift (perror "fork()") ;+ err0
    else if pid =? 0 then child env argv stdout_pipe stderr_pipe
    else let+ rc := lift (parent stdout_pipe stderr_pipe) in pret (Exit rc).

(** * Vocabulary of the specification

    Nothing below is part of the program: these are the notions in which
    its properties are stated, and the sample runs they are tried on. *)

(** ** Results and frames *)

(** [total m s Q]: run from [s], the computation [m] has a defined result
    and that result satisfies [Q]. *)
Definition total {A} (m : M A) (s : state) (Q : A -> state -> Prop) : Prop :=
  match m s with
  | Some (a, s') => Q a s'
  | None => False
  end.

(** Writing never touches the scripts of the other calls, the record of
    closed descriptors or the printf output. *)
Definition render_frame (s s' : state) : Prop :=
  os_close s' = os_close s /\ os_poll s' = os_poll s /\ os_read s' = os_read s /\
  os_wait s' = os_wait s /\ os_indet s' = os_indet s /\ closed s' = closed s /\
  stdio_out s' = stdio_out s.

(** ** The sink *)

(** The bytes a sink holds for one descriptor, in the order written. *)
Fixpoint bytes_on (fd : Z) (sk : list (Z * list byte)) : list byte :=
  match sk with
  | [] => []
  | (fd', data) :: rest =>
      if fd' =? fd then data ++ bytes_on fd rest else bytes_on fd rest
  end.

(** A well-behaved terminal or pipe: every [write] is either interrupted
    before it transfers anything or takes all it is given. *)
Definition accepting (o : write_outcome) : bool :=
  match o with
  | WAll => true
  | WShort _ => false
  | WFail e => e =? EINTR
  end.

Definition accept_all (script : list write_outcome) : bool := forallb accepting script.

(** ** The line buffer *)

(** The line buffer is within its array. *)
Definition buffer_ok (g : globals) : Prop :=
  0 <= stdout_line_pos g <= STDOUT_LINE_SIZE /\
  Z.of_nat (length (stdout_line g)) = STDOUT_LINE_SIZE.

(** The state after the store [stdout_line[stdout_line_pos++] = c] when
    the position is within the array. *)
Definition stored (c : byte) (s : state) : state :=
  with_glob (mkGlobals (in_stderr (glob s))
               (<[Z.to_nat (stdout_line_pos (glob s)) := c]> (stdout_line (glob s)))
               (stdout_line_pos (glob s) + 1)) s.

(** ** The protocol of the output *)

(** Equality of byte sequences. *)
Fixpoint bytes_eqb (a b : list byte) : bool :=
  match a, b with
  | [], [] => true
  | x :: a', y :: b' => Byte.eqb x y && bytes_eqb a' b'
  | _, _ => false
  end.

(** The sequence of writes read as a two-mode protocol.  In plain mode a
    write is a block on the standard output or the begin marker on the
    standard error, which switches to highlighted mode; in highlighted
    mode a write is a single byte on the standard error or the end marker
    there, which switches back.  [scan mode sk] is the mode after [sk],
    if [sk] follows the protocol from [mode]. *)
Fixpoint scan (mode : bool) (sk : list (Z * list byte)) : option bool :=
  match sk with
  | [] => Some mode
  | (fd, data) :: rest =>
      if fd =? STDOUT_FILENO then
        if mode then None else scan false rest
      else if fd =? STDERR_FILENO then
        if mode then
          if (length data =? 1)%nat then scan true rest
          else if bytes_eqb data STDERR_END_MARKER then scan false rest
          else None
        else
          if bytes_eqb data STDERR_BEGIN_MARKER then scan true rest else None
      else None
  end.

(** The output starts and ends in plain mode and follows the protocol. *)
Definition wrapped (sk : list (Z * list byte)) : Prop := scan false sk = Some false.



(** On well-behaved descriptors the writes so far follow the protocol and
    end in the mode that [in_stderr] records. *)
Definition rendering_ok (s : state) : Prop :=
  buffer_ok (glob s) /\ accept_all (os_write s) = true /\
  scan false (sink s) = Some (in_stderr (glob s)).

(** ** Runs made of turns that each deliver a byte *)

(** The state after [indeterminate]. *)
Definition pop_indet (s : state) : state :=
  match os_indet s with
  | [] => s
  | _ :: rest => with_os_indet rest s
  end.

(** The writes a sink holds for one descriptor. *)
Fixpoint writes_on (fd : Z) (sk : list (Z * list byte)) : list (Z * list byte) :=
  match sk with
  | [] => []
  | (fd', data) :: rest =>
      if fd' =? fd then (fd', data) :: writes_on fd rest else writes_on fd rest
  end.

(** The bytes written one at a time on the standard error, which the
    protocol tells from the markers by their length. *)
Fixpoint stderr_data (sk : list (Z * list byte)) : list byte :=
  match sk with
  | [] => []
  | (fd, data) :: rest =>
      if (fd =? STDERR_FILENO) && (length data =? 1)%nat
      then data ++ stderr_data rest else stderr_data rest
  end.

(** [rendered out err s]: the rendering invariant holds, the bytes [out]
    are on the standard output or still in the line buffer, in this order,
    and the bytes [err] have been written on the standard error. *)
Definition rendered (out err : list byte) (s : state) : Prop :=
  rendering_ok s /\
  bytes_on STDOUT_FILENO (sink s) ++
    take (Z.to_nat (stdout_line_pos (glob s))) (stdout_line (glob s)) = out /\
  stderr_data (sink s) = err.

(** [buffered out s s']: from [s] to [s'] the bytes [out] were added to
    the line buffer and nothing was written to the standard output. *)
Definition buffered (out : list byte) (s s' : state) : Prop :=
  accept_all (os_write s') = true /\
  writes_on STDOUT_FILENO (sink s') = writes_on STDOUT_FILENO (sink s) /\
  stdout_line_pos (glob s') = stdout_line_pos (glob s) + Z.of_nat (length out) /\
  length (stdout_line (glob s')) = length (stdout_line (glob s)) /\
  take (Z.to_nat (stdout_line_pos (glob s'))) (stdout_line (glob s')) =
  take (Z.to_nat (stdout_line_pos (glob s))) (stdout_line (glob s)) ++ out.

(** What one turn of the loop finds: a byte on the stdout pipe, a byte on
    the stderr pipe, or one on each. *)
Inductive turn := TurnOut (b : byte) | TurnErr (e : byte) | TurnBoth (b e : byte).

Definition turn_poll (t : turn) : poll_outcome :=
  match t with
  | TurnOut _ => PollReady POLLIN 0
  | TurnErr _ => PollReady 0 POLLIN
  | TurnBoth _ _ => PollReady POLLIN POLLIN
  end.

Definition turn_reads (t : turn) : list read_outcome :=
  match t with
  | TurnOut b => [ReadByte b]
  | TurnErr e => [ReadByte e]
  | TurnBoth b e => [ReadByte b; ReadByte e]
  end.

Definition turn_stdout (t : turn) : list byte :=
  match t with
  | TurnOut b | TurnBoth b _ => [b]
  | TurnErr _ => []
  end.

Definition turn_stderr (t : turn) : list byte :=
  match t with
  | TurnErr e | TurnBoth _ e => [e]
  | TurnOut _ => []
  end.

(** The bytes the child wrote to its standard output, and those it wrote
    to its standard error. *)
Definition stdout_of (turns : list turn) : list byte := concat (turn_stdout <$> turns).
Definition stderr_of (turns : list turn) : list byte := concat (turn_stderr <$> turns).

(** The run in which the child's output arrives as [turns], after which
    both pipes hang up. *)
Definition run_of (turns : list turn) (writes : list write_outcome)
    (waits : list wait_outcome) (indet : list byte) : state :=
  boot [] (turn_poll <$> turns) (concat (turn_reads <$> turns)) writes waits indet.

(** ** Sample runs *)

(** The state a computation ends in ([s] itself if it has no result). *)
Definition final {A} (m : M A) (s : state) : state :=
  match m s with
  | Some (_, s') => s'
  | None => s
  end.

(** A sequence of calls of [stdout_putc], one for each byte. *)
Fixpoint stdout_puts (cs : list byte) : M unit :=
  match cs with
  | [] => ret tt
  | c :: cs' => stdout_putc c ;;; stdout_puts cs'
  end.

(** An operating system that takes the first write in pieces, with an
    interruption in between. *)
Definition sample_short_writes : state :=
  boot [] [] [] [WShort 2; WFail 4; WShort 1] [] [].

(** A run in which the child interleaves both streams and ends on its
    standard error with an unfinished line on its standard output. *)
Definition sample_polls : list poll_outcome :=
  [PollReady POLLIN 0; PollReady POLLIN POLLIN; PollReady 0 POLLIN;
   PollReady POLLIN POLLHUP; PollReady POLLHUP POLLHUP].
Definition sample_reads : list read_outcome :=
  [ReadByte x6f; ReadByte x0a; ReadByte x65; ReadFail EINTR; ReadByte x66;
   ReadByte x70].
Definition sample_writes : list write_outcome := [WAll; WFail EINTR; WAll].
Definition sample_turns : list turn :=
  [TurnOut x6f; TurnBoth x0a x65; TurnErr x66; TurnOut x70].
Definition sample_run : state :=
  boot [CloseOk; CloseOk] sample_polls sample_reads sample_writes
    [WaitPid 4242 768] [].

(** No byte of [bs] is the newline. *)
Definition no_newline (bs : list byte) : bool :=
  forallb (fun b => negb (Byte.eqb b newline)) bs.

(** A child that writes 1024 times the letter a to its standard output
    and nothing else. *)
Definition full_line : list byte := replicate 1024 x61.
Definition full_line_run : state :=
  run_of (TurnOut <$> full_line) [] [WaitPid 4242 0] [].

(** Runs in which a pipe at its end is reported readable as well as
    hung up, and the read finds the end of the stream: once on the stderr
    pipe, once on the stdout pipe.  The local [c] holds the letter X when
    it is declared. *)
Definition eof_on_stderr_run : state :=
  boot [] [PollReady POLLHUP (Z.lor POLLIN POLLHUP)] [ReadEof] []
    [WaitPid 4242 0] [x58].
Definition eof_on_stdout_run : state :=
  boot [] [PollReady (Z.lor POLLIN POLLHUP) POLLHUP] [ReadEof] []
    [WaitPid 4242 0] [x58].

(** A run in which the first [poll] is interrupted although a byte is
    waiting on the stdout pipe, and [wait] is interrupted although the
    child has exited. *)
Definition interrupted_run : state :=
  boot [] [PollFail EINTR; PollReady POLLIN 0] [ReadByte x61] []
    [WaitFail EINTR; WaitPid 4242 0] [].

(** A run in which the child writes two bytes to its stderr and the
    first write of the controller fails with EIO (5). *)
Definition write_failure_run : state :=
  boot [] [PollReady 0 POLLIN; PollReady 0 POLLIN] [ReadByte x61; ReadByte x62]
    [WFail 5] [WaitPid 4242 0] [].


(** The renderer in highlighted mode with the two letters h, i waiting in
    the line buffer.  In [pending_line] the operating system takes the end
    marker in three pieces, with an interruption in between, and the line
    in two; in [pending_line_failing] it takes the end marker whole, then
    one byte of the line, and then fails with EIO (5). *)
Definition pending_line : state :=
  with_glob (mkGlobals true ([x68; x69] ++ replicate 1022 x00) 2)
    (boot [] [] [] [WShort 2; WFail EINTR; WShort 1; WAll; WShort 1] [] []).
Definition pending_line_failing : state :=
  with_glob (mkGlobals true ([x68; x69] ++ replicate 1022 x00) 2)
    (boot [] [] [] [WAll; WShort 1; WFail 5] [] []).

(** The renderer in plain mode and in highlighted mode, on a standard
    error that takes every write whole at the first attempt. *)
Definition plain_renderer : state := boot [] [] [] [WAll; WAll] [] [].
Definition highlighted_renderer : state :=
  with_glob (mkGlobals true (stdout_line initial_globals) 0) (boot [] [] [] [WAll] [] []).

(** The renderer with its buffer full of the letter a, on a standard
    output that takes the next write in two pieces. *)
Definition full_buffer : state :=
  with_glob (mkGlobals false full_line 1024) (boot [] [] [] [WShort 1000] [] []).

(** ** Processes *)

(** [ptotal m p Q]: run from [p], the computation [m] has a defined
    result and that result satisfies [Q]. *)
Definition ptotal {A} (m : PM A) (p : process) (Q : A -> process -> Prop) : Prop :=
  match m p with
  | Some (a, p') => Q a p'
  | None => False
  end.

(** Every [close] that is still to come succeeds. *)
Definition closes_succeed (s : state) : Prop :=
  Forall (fun o => o = CloseOk) (os_close s).

(** A process started with its three standard descriptors open, before
    and after [main] has created the two pipes as descriptors 3 to 6. *)
Definition standard_fds : gmap Z file :=
  <[2 := Inherited 2]> (<[1 := Inherited 1]> (<[0 := Inherited 0]> ∅)).
Definition piped_fds : gmap Z file :=
  <[6 := WriteEnd ChanErr]> (<[5 := ReadEnd ChanErr]>
    (<[4 := WriteEnd ChanOut]> (<[3 := ReadEnd ChanOut]> standard_fds))).

(** The table after [main] has created the pipes in a process that was
    started with only descriptor 2 open: [pipe] hands out the lowest free
    descriptors, 0 and 1, then 3 and 4. *)
Definition detached_fds : gmap Z file :=
  <[4 := WriteEnd ChanErr]> (<[3 := ReadEnd ChanErr]>
    (<[1 := WriteEnd ChanOut]> (<[0 := ReadEnd ChanOut]> (<[2 := Inherited 2]> ∅)))).

(** A launch in which every call succeeds, seen from the child and from
    the parent, and launches in which the second pipe cannot be made or
    the command cannot be executed (ENFILE is 23, ENOENT is 2). *)
Definition launch_child : launch :=
  mkLaunch (PipeOk 3 4) (PipeOk 5 6) ForkChild CallOk CallOk CallOk.
Definition launch_parent : launch :=
  mkLaunch (PipeOk 3 4) (PipeOk 5 6) (ForkParent 4242) CallOk CallOk CallOk.
Definition launch_no_pipe : launch :=
  mkLaunch (PipeOk 3 4) (PipeFail 23) ForkChild CallOk CallOk CallOk.
Definition launch_no_command : launch :=
  mkLaunch (PipeOk 3 4) (PipeOk 5 6) ForkChild CallOk CallOk (CallFail 2).

(** The command line [hlerr make all]. *)
Definition sample_argv : list string := ["hlerr"; "make"; "all"]%string.

(** * Reasoning about computations *)

Lemma total_ret {A} (a : A) s (Q : A -> state -> Prop) : Q a s -> total (ret a) s Q.
Proof. intros H. exact H. Qed.

Lemma total_bind {A B} (m : M A) (k : A -> M B) s (R : A -> state -> Prop) Q :
  total m s R ->
  (forall a s', R a s' -> total (k a) s' Q) ->
  total (bind m k) s Q.
Proof.
  unfold total, bind. destruct (m s) as [[a s']|]; [|tauto].
  intros HR Hk. exact (Hk a s' HR).
Qed.

Lemma total_weaken {A} (m : M A) s (Q Q' : A -> state -> Prop) :
  total m s Q -> (forall a s', Q a s' -> Q' a s') -> total m s Q'.
Proof.
  unfold total. destruct (m s) as [[a s']|]; [|tauto]. intros H HQ. auto.
Qed.

Lemma total_some {A} (m : M A) s (Q : A -> state -> Prop) :
  total m s Q <-> exists a s', m s = Some (a, s') /\ Q a s'.
Proof.
  unfold total. split.
  - destruct (m s) as [[a s']|]; [|tauto]. intros H. exists a, s'. auto.
  - intros (a & s' & -> & H). exact H.
Qed.

Lemma total_conj {A} (m : M A) s (Q Q' : A -> state -> Prop) :
  total m s Q -> total m s Q' -> total m s (fun a s' => Q a s' /\ Q' a s').
Proof.
  unfold total. destruct (m s) as [[a s']|]; tauto.
Qed.

Lemma total_get_glob {B} (k : globals -> M B) s (Q : B -> state -> Prop) :
  total (k (glob s)) s Q -> total (bind get_glob k) s Q.
Proof. intros H. exact H. Qed.

Lemma total_put_glob {B} g (k : unit -> M B) s (Q : B -> state -> Prop) :
  total (k tt) (with_glob g s) Q -> total (bind (put_glob g) k) s Q.
Proof. intros H. exact H. Qed.

(** ** Frames: what rendering leaves alone *)

Lemma render_frame_refl s : render_frame s s.
Proof. unfold render_frame. tauto. Qed.

Lemma render_frame_trans s1 s2 s3 :
  render_frame s1 s2 -> render_frame s2 s3 -> render_frame s1 s3.
Proof. unfold render_frame. intuition congruence. Qed.

Create HintDb frame.
#[local] Hint Resolve render_frame_refl : frame.

Lemma bytes_on_app fd sk1 sk2 :
  bytes_on fd (sk1 ++ sk2) = bytes_on fd sk1 ++ bytes_on fd sk2.
Proof.
  induction sk1 as [|[fd' d] sk1 IH]; simpl; [reflexivity|].
  destruct (fd' =? fd); rewrite IH; [rewrite app_assoc|]; reflexivity.
Qed.

(** ** [write_nointr] *)

(** The loop gives up once it runs out of budget; the budget
    [write_nointr] hands it is never used up. *)
Lemma to_int_small n : - 2 ^ 31 <= n < 2 ^ 31 -> to_int n = n.
Proof. intros H. unfold to_int. rewrite Z.mod_small; lia. Qed.

Lemma write_nointr_loop_spec fuel fd buf n s :
  (length (os_write s) < fuel)%nat -> 0 <= n < 2 ^ 31 ->
  total (write_nointr_loop fuel fd buf n) s (fun rc s' =>
    glob s' = glob s /\ render_frame s s' /\ stdio_err s' = stdio_err s /\
    ((length (os_write s') < length (os_write s))%nat \/
     (os_write s' = [] /\ rc = n)) /\
    ((rc = -1 /\ sink s' = sink s) \/
     (0 <= rc <= n /\ sink s' = sink s ++ [(fd, take (Z.to_nat rc) buf)]))).
Proof.
  revert s. induction fuel as [|fuel IH]; intros s Hfuel Hn; [lia|].
  assert (Hne : (n =? -1) = false) by (apply Z.eqb_neq; lia).
  unfold total. simpl. unfold bind, sys_write, get_errno, ret.
  destruct (os_write s) as [|[|k|e] rest] eqn:Hw; simpl;
    rewrite to_int_small by lia.
  - rewrite Hne. simpl. repeat split; auto with frame. right. split; [lia|reflexivity].
  - rewrite Hne. simpl. repeat split; auto with frame. right. split; [lia|reflexivity].
  - assert (Hk : (Z.max 0 (Z.min k n) =? -1) = false) by (apply Z.eqb_neq; lia).
    rewrite Hk. simpl. repeat split; auto with frame. right. split; [lia|reflexivity].
  - destruct (e =? EINTR) eqn:He; simpl.
    + specialize (IH (with_errno e (with_os_write rest s))).
      unfold total in IH. simpl in IH, Hfuel.
      destruct (write_nointr_loop fuel fd buf n _) as [[rc s']|];
        [|apply IH; [lia|assumption]].
      destruct IH as (Hg & Hf & He' & Hlen & Hs); [lia|assumption|].
      repeat split; try apply Hf; auto.
      destruct Hlen as [Hlen|[Hnil Hrc]]; [left; lia|].
      left. rewrite Hnil. simpl. lia.
    + repeat split; auto with frame.
Qed.

Lemma write_nointr_spec fd buf n s :
  0 <= n < 2 ^ 31 ->
  total (write_nointr fd buf n) s (fun rc s' =>
    glob s' = glob s /\ render_frame s s' /\ stdio_err s' = stdio_err s /\
    ((length (os_write s') < length (os_write s))%nat \/
     (os_write s' = [] /\ rc = n)) /\
    ((rc = -1 /\ sink s' = sink s) \/
     (0 <= rc <= n /\ sink s' = sink s ++ [(fd, take (Z.to_nat rc) buf)]))).
Proof.
  intros Hn. apply (write_nointr_loop_spec (S (length (os_write s)))); [lia|assumption].
Qed.

(** An interrupted [write] is tried again: the failure is not returned. *)
Lemma write_nointr_retries fd buf n s rest :
  os_write s = WFail EINTR :: rest ->
  write_nointr fd buf n s =
  write_nointr fd buf n (with_errno EINTR (with_os_write rest s)).
Proof.
  intros Hw. unfold write_nointr at 1. rewrite Hw. simpl.
  unfold bind at 1. unfold sys_write. rewrite Hw. simpl.
  unfold bind, get_errno. simpl. reflexivity.
Qed.

(** ** [write_all_nointr] *)

Lemma size_t_wrap_small n : 0 <= n < 2 ^ 64 -> size_t_wrap n = n.
Proof. intros H. unfold size_t_wrap. apply Z.mod_small. exact H. Qed.

(** The general case: whatever the operating system does, the call
    returns 0 or -1, a prefix of the buffer reaches the descriptor, and
    all of it when the call returns 0. *)
Lemma write_all_loop_spec fuel fd buf n nw s :
  (1 <= fuel)%nat -> (nw < n -> (length (os_write s) + 2 <= fuel)%nat) ->
  0 <= nw <= n -> n < 2 ^ 31 ->
  total (write_all_loop fuel fd buf n nw) s (fun rc s' =>
    glob s' = glob s /\ render_frame s s' /\
    (length (os_write s') <= length (os_write s))%nat /\
    (rc = 0 \/ rc = -1) /\
    exists k, nw <= k <= n /\ (rc = 0 -> k = n) /\
      forall fd', bytes_on fd' (sink s') =
                  bytes_on fd' (sink s) ++
                  (if fd =? fd' then take (Z.to_nat (k - nw)) (drop (Z.to_nat nw) buf)
                   else [])).
Proof.
  revert nw s. induction fuel as [|fuel IH]; intros nw s Hone Hfuel Hdone Hn; [lia|].
  simpl. destruct (nw <? n) eqn:Hlt.
  - apply Z.ltb_lt in Hlt. specialize (Hfuel Hlt).
    eapply total_bind; [apply write_nointr_spec; lia|].
    intros rc s1 (Hg & Hf & He & Hlen & Hs).
    destruct Hs as [[-> Hs]|[Hrc Hs]].
    + simpl. unfold total, bind, perror, ret. simpl.
      repeat split; auto; try apply Hf.
      * destruct Hlen as [?|[-> _]]; simpl; lia.
      * exists nw. repeat split; [lia|lia|lia|]. intros fd'. rewrite Hs.
        replace (nw - nw) with 0 by lia. simpl.
        destruct (fd =? fd'); rewrite app_nil_r; reflexivity.
    + assert (Hrc' : (rc =? -1) = false) by (apply Z.eqb_neq; lia).
      rewrite Hrc'. rewrite size_t_wrap_small by lia.
      eapply total_weaken.
      * apply IH; [| |lia|lia].
        -- destruct Hlen as [?|[? ?]]; lia.
        -- intros Hlt'. destruct Hlen as [?|[? ?]]; lia.
      * intros rc' s' (Hg' & Hf' & Hlen' & Hrcs & k & Hk & Hk0 & Hb).
        simpl in *. repeat split; try (eapply render_frame_trans; eassumption);
          try congruence; auto.
        -- destruct Hlen as [?|[Hnil ?]]; [lia|]. rewrite Hnil in Hlen'. simpl in Hlen'. lia.
        -- exists k. repeat split; [lia|lia|assumption|]. intros fd'.
           rewrite Hb, Hs, bytes_on_app. simpl. rewrite Z.eqb_sym.
           destruct (fd' =? fd) eqn:Hfd; rewrite <- ?app_assoc; simpl;
             rewrite ?app_nil_r; [|reflexivity].
           f_equal.
           replace (Z.to_nat (k - nw)) with (Z.to_nat rc + Z.to_nat (k - (nw + rc)))%nat by lia.
           rewrite <- take_take_drop, drop_drop. do 3 f_equal. lia.
  - unfold total, ret. simpl. repeat split; auto with frame.
    exists nw. repeat split; [lia|lia|lia|]. intros fd'.
    replace (nw - nw) with 0 by lia. simpl.
    destruct (fd =? fd'); rewrite app_nil_r; reflexivity.
Qed.

Lemma write_all_nointr_spec fd buf n s :
  0 <= n < 2 ^ 31 ->
  total (write_all_nointr fd buf n) s (fun rc s' =>
    glob s' = glob s /\ render_frame s s' /\
    (length (os_write s') <= length (os_write s))%nat /\
    (rc = 0 \/ rc = -1) /\
    exists k, 0 <= k <= n /\ (rc = 0 -> k = n) /\
      forall fd', bytes_on fd' (sink s') =
                  bytes_on fd' (sink s) ++
                  (if fd =? fd' then take (Z.to_nat k) buf else [])).
Proof.
  intros Hn. unfold write_all_nointr.
  eapply total_weaken; [apply write_all_loop_spec; lia|].
  intros rc s' (Hg & Hf & Hlen & Hrc & k & Hk & Hk0 & Hb).
  repeat (split; [solve [auto]|]).
  exists k. repeat split; [lia|lia|assumption|].
  intros fd'. rewrite Hb. rewrite Z.sub_0_r. reflexivity.
Qed.

Lemma write_nointr_loop_accept fuel fd buf n s :
  accept_all (os_write s) = true ->
  (length (os_write s) < fuel)%nat -> 0 <= n < 2 ^ 31 ->
  total (write_nointr_loop fuel fd buf n) s (fun rc s' =>
    rc = n /\ glob s' = glob s /\ render_frame s s' /\
    stdio_err s' = stdio_err s /\ accept_all (os_write s') = true /\
    sink s' = sink s ++ [(fd, take (Z.to_nat n) buf)]).
Proof.
  revert s. induction fuel as [|fuel IH]; intros s Hacc Hfuel Hn; [lia|].
  assert (Hne : (n =? -1) = false) by (apply Z.eqb_neq; lia).
  unfold total. simpl. unfold bind, sys_write, get_errno, ret.
  destruct (os_write s) as [|[|k|e] rest] eqn:Hw; simpl in *;
    try discriminate; rewrite to_int_small by lia.
  - rewrite Hne. simpl. repeat split; auto with frame.
  - rewrite Hne. simpl. repeat split; auto with frame.
  - apply andb_true_iff in Hacc as [He Hacc]. rewrite He. simpl.
    specialize (IH (with_errno e (with_os_write rest s))).
    unfold total in IH. simpl in IH.
    destruct (write_nointr_loop fuel fd buf n _) as [[rc s']|];
      [|apply IH; [assumption|lia|assumption]].
    destruct IH as (Hrc & Hg & Hf & He' & Hacc' & Hs); [assumption|lia|assumption|].
    repeat split; try apply Hf; auto.
Qed.

Lemma write_all_nointr_accept fd buf n s :
  accept_all (os_write s) = true -> 0 <= n < 2 ^ 31 ->
  total (write_all_nointr fd buf n) s (fun rc s' =>
    rc = 0 /\ glob s' = glob s /\ render_frame s s' /\
    stdio_err s' = stdio_err s /\ accept_all (os_write s') = true /\
    sink s' = sink s ++ (if 0 <? n then [(fd, take (Z.to_nat n) buf)] else [])).
Proof.
  intros Hacc Hn. unfold write_all_nointr. simpl.
  destruct (0 <? n) eqn:Hlt.
  - eapply total_bind.
    + apply (write_nointr_loop_accept (S (length (os_write s)))); [assumption|lia|lia].
    + intros rc s' (-> & Hg & Hf & He & Hacc' & Hs).
      assert (Hne : (n - 0 =? -1) = false) by (apply Z.eqb_neq; lia).
      rewrite Hne. rewrite size_t_wrap_small by lia.
      replace (0 + (n - 0)) with n by lia. rewrite Z.ltb_irrefl.
      apply total_ret. rewrite Hs, Z.sub_0_r. simpl. split_and!; auto.
  - apply total_ret. rewrite app_nil_r. split_and!; auto with frame.
Qed.

(** * The renderer *)

Lemma initial_buffer_ok : buffer_ok initial_globals.
Proof. unfold buffer_ok. simpl. split; [|reflexivity]. unfold STDOUT_LINE_SIZE. lia. Qed.

Lemma set_stderr_spec b s :
  total (set_stderr b) s (fun rc s' =>
    glob s' = mkGlobals b (stdout_line (glob s)) (stdout_line_pos (glob s)) /\
    render_frame s s' /\ (length (os_write s') <= length (os_write s))%nat /\
    (rc = 0 \/ rc = -1)).
Proof.
  unfold set_stderr. unfold total, bind at 1, get_glob.
  destruct (Bool.eqb b (in_stderr (glob s))) eqn:Hb.
  - apply Bool.eqb_prop in Hb. subst b. simpl.
    destruct (glob s); split_and!; auto with frame.
  - unfold bind, put_glob.
    assert (Hm : forall m : list byte, (length m < 10)%nat ->
              total (write_all_nointr STDERR_FILENO m (sizeof_array m))
                (with_glob (mkGlobals b (stdout_line (glob s)) (stdout_line_pos (glob s))) s)
                (fun rc s' =>
                   glob s' = mkGlobals b (stdout_line (glob s)) (stdout_line_pos (glob s)) /\
                   render_frame s s' /\ (length (os_write s') <= length (os_write s))%nat /\
                   (rc = 0 \/ rc = -1))).
    { intros m Hm. eapply total_weaken.
      - apply write_all_nointr_spec. unfold sizeof_array. lia.
      - intros rc s' (Hg & Hf & Hlen & Hrc & _). split_and!; auto. }
    destruct b; apply Hm; simpl; lia.
Qed.

Lemma nonzero_0 : nonzero 0 = false.
Proof. reflexivity. Qed.

Lemma nonzero_m1 : nonzero (-1) = true.
Proof. reflexivity. Qed.

(** [flush_stdout_line] in general: the mode is reset; on success the
    buffer is empty, on failure it is kept. *)
Lemma flush_stdout_line_spec s :
  buffer_ok (glob s) ->
  total flush_stdout_line s (fun rc s' =>
    render_frame s s' /\ (length (os_write s') <= length (os_write s))%nat /\
    in_stderr (glob s') = false /\
    stdout_line (glob s') = stdout_line (glob s) /\
    ((rc = 0 /\ stdout_line_pos (glob s') = 0) \/
     (rc = 1 /\ stdout_line_pos (glob s') = stdout_line_pos (glob s)))).
Proof.
  intros [Hpos Hlen]. unfold flush_stdout_line.
  eapply total_bind; [apply set_stderr_spec|].
  intros r s1 (Hg1 & Hf1 & Hl1 & [-> | ->]).
  - rewrite nonzero_0. apply total_get_glob.
    eapply total_bind.
    + apply write_all_nointr_spec. rewrite Hg1. simpl. unfold STDOUT_LINE_SIZE in Hpos. lia.
    + intros r s2 (Hg2 & Hf2 & Hl2 & [-> | ->] & _).
      * rewrite nonzero_0. apply total_get_glob, total_put_glob, total_ret.
        simpl. rewrite Hg2, Hg1. simpl. split_and!; auto; try lia.
        eapply render_frame_trans; eassumption.
      * rewrite nonzero_m1. apply total_ret.
        rewrite Hg2, Hg1. simpl. split_and!; auto; try lia.
        eapply render_frame_trans; eassumption.
  - rewrite nonzero_m1. apply total_ret. rewrite Hg1. simpl. split_and!; auto.
Qed.

(** A store at or beyond the end of the array has no defined result. *)
Lemma store_out_of_bounds c s :
  Z.of_nat (length (stdout_line (glob s))) <= stdout_line_pos (glob s) ->
  store_stdout_line c s = None.
Proof.
  intros H. unfold store_stdout_line.
  replace (stdout_line_pos (glob s) <? Z.of_nat (length (stdout_line (glob s))))
    with false by (symmetry; apply Z.ltb_ge; exact H).
  rewrite andb_false_r. reflexivity.
Qed.

(** A store below the end of the array is defined, and moves the
    position by one. *)
Lemma store_stdout_line_eq c s :
  0 <= stdout_line_pos (glob s) < Z.of_nat (length (stdout_line (glob s))) ->
  Z.of_nat (length (stdout_line (glob s))) = STDOUT_LINE_SIZE ->
  store_stdout_line c s = Some (tt, stored c s).
Proof.
  intros Hpos Hlen. unfold store_stdout_line, stored.
  replace (0 <=? stdout_line_pos (glob s)) with true by (symmetry; apply Z.leb_le; lia).
  replace (stdout_line_pos (glob s) <? Z.of_nat (length (stdout_line (glob s))))
    with true by (symmetry; apply Z.ltb_lt; lia).
  simpl. rewrite size_t_wrap_small; [reflexivity|].
  unfold STDOUT_LINE_SIZE in Hlen. lia.
Qed.

(** [stdout_putc] keeps the buffer within its array whatever the
    operating system does with the writes. *)
Lemma stdout_putc_spec c s :
  buffer_ok (glob s) ->
  total (stdout_putc c) s (fun rc s' =>
    buffer_ok (glob s') /\ render_frame s s' /\
    (length (os_write s') <= length (os_write s))%nat).
Proof.
  intros Hok. unfold stdout_putc. apply total_get_glob.
  eapply total_bind with (R := fun r s1 =>
    render_frame s s1 /\ (length (os_write s1) <= length (os_write s))%nat /\
    Z.of_nat (length (stdout_line (glob s1))) = STDOUT_LINE_SIZE /\
    ((r = 0 /\ 0 <= stdout_line_pos (glob s1) < STDOUT_LINE_SIZE) \/
     (r = 1 /\ buffer_ok (glob s1)))).
  - destruct (STDOUT_LINE_SIZE <=? stdout_line_pos (glob s)) eqn:Hfull.
    + eapply total_weaken; [apply flush_stdout_line_spec; assumption|].
      intros rc s1 (Hf & Hl & _ & Hline & Hrc). destruct Hok as [Hpos Hlen].
      split_and!; auto; [congruence|].
      destruct Hrc as [[-> Hp]|[-> Hp]].
      * left. rewrite Hp. unfold STDOUT_LINE_SIZE. lia.
      * right. split; [reflexivity|]. split; congruence.
    + apply total_ret. apply Z.leb_gt in Hfull. destruct Hok as [Hpos Hlen].
      split_and!; auto with frame. left. lia.
  - intros r s1 (Hf1 & Hl1 & Hlen1 & [[-> Hpos1]|[-> Hok1]]).
    + rewrite nonzero_0.
      eapply total_bind with (R := fun _ s2 => s2 = stored c s1).
      { unfold total. rewrite store_stdout_line_eq by (auto; lia). reflexivity. }
      intros _ s2 Hs2.
      assert (Hok2 : buffer_ok (glob s2)).
      { subst s2. split; simpl; [lia|]. rewrite length_insert. assumption. }
      destruct (Byte.eqb c newline).
      * eapply total_bind; [apply flush_stdout_line_spec; assumption|].
        intros r s3 (Hf3 & Hl3 & _ & Hline3 & Hrc).
        assert (Hok3 : buffer_ok (glob s3)).
        { destruct Hok2 as [Hp2 Hlen2]. split; [|congruence].
          destruct Hrc as [[_ ->]|[_ ->]]; [unfold STDOUT_LINE_SIZE; lia|assumption]. }
        assert (Hf : render_frame s s3)
          by (subst s2; eapply render_frame_trans; [exact Hf1|exact Hf3]).
        assert (Hl : (length (os_write s3) <= length (os_write s))%nat)
          by (subst s2; simpl in Hl3; lia).
        destruct (nonzero r); apply total_ret; auto.
      * apply total_ret. subst s2. split_and!; auto.
    + apply total_ret. auto.
Qed.

Lemma stderr_putc_spec c s :
  total (stderr_putc c) s (fun rc s' =>
    stdout_line (glob s') = stdout_line (glob s) /\
    stdout_line_pos (glob s') = stdout_line_pos (glob s) /\
    render_frame s s' /\ (length (os_write s') <= length (os_write s))%nat).
Proof.
  unfold stderr_putc.
  eapply total_bind; [apply set_stderr_spec|].
  intros r s1 (Hg1 & Hf1 & Hl1 & Hr).
  destruct (nonzero r).
  - apply total_ret. rewrite Hg1. auto.
  - eapply total_bind; [apply (write_all_nointr_spec STDERR_FILENO [c] 1); lia|].
    intros r2 s2 (Hg2 & Hf2 & Hl2 & _).
    assert (Hf : render_frame s s2) by (eapply render_frame_trans; eassumption).
    destruct (nonzero r2); apply total_ret; rewrite Hg2, Hg1; simpl;
      split_and!; auto; lia.
Qed.

(** * The multiplexer *)

(** [read_nointr] only consumes the read script (and sets [errno]). *)
Lemma read_nointr_loop_spec fuel fd c s :
  (length (os_read s) < fuel)%nat ->
  total (read_nointr_loop fuel fd c) s (fun _ s' =>
    exists e r, s' = with_errno e (with_os_read r s)).
Proof.
  revert c s. induction fuel as [|fuel IH]; intros c s Hfuel; [lia|].
  unfold total. simpl. unfold bind, sys_read, get_errno, ret.
  destruct (os_read s) as [|[b| |e] rest] eqn:Hr; simpl.
  - exists (errno s), []. destruct s; simpl in *; subst; reflexivity.
  - exists (errno s), rest. reflexivity.
  - exists (errno s), rest. reflexivity.
  - destruct (e =? EINTR).
    + specialize (IH c (with_errno e (with_os_read rest s))).
      unfold total in IH. simpl in IH, Hfuel.
      destruct (read_nointr_loop fuel fd c _) as [[rc s']|]; [|apply IH; lia].
      destruct IH as (e' & r' & ->); [lia|]. exists e', r'. reflexivity.
    + exists e, rest. reflexivity.
Qed.

Lemma read_nointr_spec fd c s :
  total (read_nointr fd c) s (fun _ s' =>
    exists e r, s' = with_errno e (with_os_read r s)).
Proof. apply (read_nointr_loop_spec (S (length (os_read s)))). lia. Qed.

(** An interrupted [read] is tried again: the failure is not returned. *)
Lemma read_nointr_retries fd c s rest :
  os_read s = ReadFail EINTR :: rest ->
  read_nointr fd c s = read_nointr fd c (with_errno EINTR (with_os_read rest s)).
Proof.
  intros Hr. unfold read_nointr at 1. rewrite Hr. simpl.
  unfold bind at 1. unfold sys_read. rewrite Hr. simpl.
  unfold bind, get_errno. simpl. reflexivity.
Qed.

(** ** Invariants of the loop and of [parent]

    A property of the state that the two [putc] operations keep, and that
    does not depend on the scripts the loop consumes nor on the
    diagnostics, holds when [parent] reaches [reap_child]. *)
Section Invariant.

Variables stdout_pipes stderr_pipes : Z * Z.
Variable I : state -> Prop.

Hypothesis I_errno : forall e s, I s -> I (with_errno e s).
Hypothesis I_os_read : forall r s, I s -> I (with_os_read r s).
Hypothesis I_os_poll : forall r s, I s -> I (with_os_poll r s).
Hypothesis I_os_indet : forall r s, I s -> I (with_os_indet r s).
Hypothesis I_os_close : forall r s, I s -> I (with_os_close r s).
Hypothesis I_stdio_err : forall d s, I s -> I (with_stdio_err d s).
Hypothesis I_closed : forall fd s,
  fd = snd stdout_pipes \/ fd = snd stderr_pipes ->
  I s -> I (with_closed (closed s ++ [fd]) s).
Hypothesis I_stdout_putc : forall c s,
  I s -> total (stdout_putc c) s (fun _ s' => I s' /\ os_poll s' = os_poll s).
Hypothesis I_stderr_putc : forall c s,
  I s -> total (stderr_putc c) s (fun _ s' => I s' /\ os_poll s' = os_poll s).

Lemma service_inv fd what putc s :
  (forall c s, I s -> total (putc c) s (fun _ s' => I s' /\ os_poll s' = os_poll s)) ->
  I s ->
  total (service fd what putc) s (fun got s' =>
    I s' /\ os_poll s' = os_poll s /\ got <> Some false).
Proof.
  intros Hputc HI. unfold service.
  eapply total_bind with (R := fun _ s1 => I s1 /\ os_poll s1 = os_poll s).
  { unfold total, indeterminate. destruct (os_indet s); simpl; auto. }
  intros c s1 [HI1 Hp1].
  eapply total_bind; [apply read_nointr_spec|].
  intros [rc c'] s2 (e & r & ->).
  assert (HI2 : I (with_errno e (with_os_read r s1))) by auto.
  destruct (rc =? -1).
  - unfold total, bind, perror, ret. simpl. split_and!; [|assumption|discriminate].
    apply (I_stdio_err _ _ HI2).
  - eapply total_bind; [apply Hputc; exact HI2|].
    intros _ s3 [HI3 Hp3]. apply total_ret. split_and!; [assumption| |discriminate].
    rewrite Hp3. simpl. assumption.
Qed.

Lemma multiplex_loop_inv fuel s :
  (length (os_poll s) < fuel)%nat -> I s ->
  total (multiplex_loop fuel (fst stdout_pipes) (fst stderr_pipes)) s (fun _ s' => I s').
Proof.
  revert s. induction fuel as [|fuel IH]; intros s Hfuel HI; [lia|].
  simpl.
  eapply total_bind with (R := fun p s1 =>
    I s1 /\ ((length (os_poll s1) < fuel)%nat \/ p = (2, POLLHUP, POLLHUP))).
  { unfold total, sys_poll. destruct (os_poll s) as [|[r0 r1|e] rest] eqn:Hp; simpl.
    - auto.
    - split; [auto|]. left. simpl in Hfuel. lia.
    - split; [auto|]. left. simpl in Hfuel. lia. }
  intros [[rc r0] r1] s1 [HI1 [Hlen1|Hdef]].
  2: { injection Hdef as -> -> ->. apply total_ret. assumption. }
  destruct (rc =? -1).
  { unfold total, perror. simpl. auto. }
  destruct (has_event r0 _ || has_event r1 _).
  { unfold total, fprintf_stderr. simpl. auto. }
  eapply total_bind with (R := fun _ s2 => I s2 /\ os_poll s2 = os_poll s1).
  { destruct (has_event r0 (Z.lor POLLIN POLLPRI)).
    - eapply total_weaken; [apply service_inv; auto|].
      intros got s2 (HI2 & Hp2 & _). auto.
    - apply total_ret. auto. }
  intros [got_stdout|] s2 [HI2 Hp2]; [|apply total_ret; assumption].
  eapply total_bind with (R := fun _ s3 => I s3 /\ os_poll s3 = os_poll s1).
  { destruct (has_event r1 (Z.lor POLLIN POLLPRI)).
    - eapply total_weaken; [apply service_inv; auto|].
      intros got s3 (HI3 & Hp3 & _). split; [assumption|congruence].
    - apply total_ret. auto. }
  intros [got_stderr|] s3 [HI3 Hp3]; [|apply total_ret; assumption].
  destruct (negb got_stdout && negb got_stderr); [apply total_ret; assumption|].
  apply IH; [|assumption]. rewrite Hp3. assumption.
Qed.

Lemma multiplex_inv s :
  I s -> total (multiplex (fst stdout_pipes) (fst stderr_pipes)) s (fun _ s' => I s').
Proof. intros HI. apply (multiplex_loop_inv (S (length (os_poll s)))); [lia|assumption]. Qed.

Lemma sys_close_inv fd s :
  fd = snd stdout_pipes \/ fd = snd stderr_pipes -> I s ->
  total (sys_close fd) s (fun _ s' => I s').
Proof.
  intros Hfd HI. unfold total, sys_close.
  destruct (os_close s) as [|[|e] rest]; simpl; auto.
Qed.

(** [parent] reaches the label [reap_child] in a state that satisfies
    the invariant, whichever way it gets there. *)
Lemma parent_inv s :
  I s ->
  exists s1, I s1 /\ parent stdout_pipes stderr_pipes s = reap_child s1.
Proof.
  intros HI. unfold parent.
  pose proof (sys_close_inv (snd stdout_pipes) s (or_introl eq_refl) HI) as H1.
  unfold total in H1. unfold bind at 1.
  destruct (sys_close (snd stdout_pipes) s) as [[rc s1]|]; [|contradiction].
  destruct (rc =? -1).
  { eexists. split; [|reflexivity]. apply I_stdio_err. assumption. }
  pose proof (sys_close_inv (snd stderr_pipes) s1 (or_intror eq_refl) H1) as H2.
  unfold total in H2. unfold bind at 1.
  destruct (sys_close (snd stderr_pipes) s1) as [[rc2 s2]|]; [|contradiction].
  destruct (rc2 =? -1).
  { eexists. split; [|reflexivity]. apply I_stdio_err. assumption. }
  pose proof (multiplex_inv s2 H2) as H3.
  unfold total in H3. unfold bind at 1.
  destruct (multiplex (fst stdout_pipes) (fst stderr_pipes) s2) as [[[] s3]|]; [|contradiction].
  exists s3. split; [assumption|reflexivity].
Qed.

End Invariant.

(** ** The end of [parent] *)

(** Waiting and reporting always returns, and leaves the globals, the
    sink and the record of closed descriptors alone. *)
Lemma wait_and_report_spec s :
  total wait_and_report s (fun _ s' =>
    glob s' = glob s /\ sink s' = sink s /\ closed s' = closed s).
Proof.
  unfold total, wait_and_report, bind, sys_wait, perror, printf, fprintf_stderr, ret.
  destruct (os_wait s) as [|[pid status|e] rest]; simpl; [tauto| |tauto].
  destruct (pid =? -1); simpl; [tauto|].
  destruct (WIFEXITED status); simpl; [tauto|].
  destruct (WIFSIGNALED status); simpl; [|tauto].
  destruct (get_signal_name (WTERMSIG status)); simpl; tauto.
Qed.

(** A child that exited normally: the summary line and the return value. *)
Lemma wait_and_report_exited s pid status rest :
  os_wait s = WaitPid pid status :: rest -> pid <> -1 ->
  WIFEXITED status = true ->
  wait_and_report s =
  Some (WEXITSTATUS status,
        with_stdio_out
          (stdio_out s ++ blue ("Exited with status " ++ decimal (WEXITSTATUS status)))
          (with_os_wait rest s)).
Proof.
  intros Hw Hpid Hex.
  unfold wait_and_report, bind, sys_wait, printf, ret. rewrite Hw. simpl.
  apply Z.eqb_neq in Hpid. rewrite Hpid, Hex. reflexivity.
Qed.

(** [reap_child] returns whenever its flush does, and leaves the sink as
    the flush left it. *)
Lemma reap_child_spec s (Q : state -> Prop) :
  total flush_stdout_line s (fun _ s1 => Q s1) ->
  total reap_child s (fun _ s' =>
    exists s1, Q s1 /\
      glob s' = glob s1 /\ sink s' = sink s1 /\ closed s' = closed s1).
Proof.
  intros HQ. unfold reap_child.
  eapply total_bind; [exact HQ|].
  intros r s1 HQ1. eapply total_weaken; [apply wait_and_report_spec|].
  intros rc s' H. exists s1. auto.
Qed.

(** * The shape of the output *)


Lemma scan_app mode sk1 sk2 :
  scan mode (sk1 ++ sk2) =
  match scan mode sk1 with
  | Some mode' => scan mode' sk2
  | None => None
  end.
Proof.
  revert mode. induction sk1 as [|[fd data] sk1 IH]; intros mode; simpl; [reflexivity|].
  destruct (fd =? STDOUT_FILENO); [destruct mode; auto|].
  destruct (fd =? STDERR_FILENO); [|reflexivity].
  destruct mode.
  - destruct (length data =? 1)%nat; [auto|].
    destruct (bytes_eqb data STDERR_END_MARKER); auto.
  - destruct (bytes_eqb data STDERR_BEGIN_MARKER); auto.
Qed.


(** ** The renderer on a well-behaved descriptor *)

Lemma sizeof_begin_marker : sizeof_array STDERR_BEGIN_MARKER = 6.
Proof. reflexivity. Qed.

Lemma sizeof_end_marker : sizeof_array STDERR_END_MARKER = 4.
Proof. reflexivity. Qed.

Lemma set_stderr_accept b s :
  accept_all (os_write s) = true ->
  total (set_stderr b) s (fun rc s' =>
    rc = 0 /\
    glob s' = mkGlobals b (stdout_line (glob s)) (stdout_line_pos (glob s)) /\
    accept_all (os_write s') = true /\ render_frame s s' /\
    sink s' = sink s ++
      (if Bool.eqb b (in_stderr (glob s)) then []
       else [(STDERR_FILENO, if b then STDERR_BEGIN_MARKER else STDERR_END_MARKER)])).
Proof.
  intros Hacc. unfold set_stderr. apply total_get_glob.
  destruct (Bool.eqb b (in_stderr (glob s))) eqn:Hb.
  - apply Bool.eqb_prop in Hb. subst b. apply total_ret.
    rewrite app_nil_r. destruct (glob s); split_and!; auto with frame.
  - apply total_put_glob.
    destruct b; rewrite ?sizeof_begin_marker, ?sizeof_end_marker;
      (eapply total_weaken; [apply write_all_nointr_accept; [exact Hacc|lia]|]);
      intros rc s' (-> & Hg & Hf & _ & Hacc' & Hs); split_and!; auto.
Qed.

Lemma flush_stdout_line_accept s :
  accept_all (os_write s) = true -> buffer_ok (glob s) ->
  total flush_stdout_line s (fun rc s' =>
    rc = 0 /\
    glob s' = mkGlobals false (stdout_line (glob s)) 0 /\
    accept_all (os_write s') = true /\ render_frame s s' /\
    sink s' = sink s ++
      (if in_stderr (glob s) then [(STDERR_FILENO, STDERR_END_MARKER)] else []) ++
      (if 0 <? stdout_line_pos (glob s)
       then [(STDOUT_FILENO,
              take (Z.to_nat (stdout_line_pos (glob s))) (stdout_line (glob s)))]
       else [])).
Proof.
  intros Hacc [Hpos Hlen]. unfold flush_stdout_line.
  eapply total_bind; [apply set_stderr_accept; exact Hacc|].
  intros r s1 (-> & Hg1 & Hacc1 & Hf1 & Hs1).
  rewrite nonzero_0. apply total_get_glob.
  eapply total_bind.
  { apply write_all_nointr_accept; [exact Hacc1|].
    rewrite Hg1. simpl. unfold STDOUT_LINE_SIZE in Hpos. lia. }
  intros r s2 (-> & Hg2 & Hf2 & _ & Hacc2 & Hs2).
  rewrite nonzero_0. apply total_get_glob, total_put_glob, total_ret.
  simpl. rewrite Hg2, Hg1. simpl. split_and!; auto.
  - eapply render_frame_trans; eassumption.
  - rewrite Hs2, Hs1, Hg1. simpl. rewrite <- app_assoc. do 2 f_equal.
    destruct (in_stderr (glob s)); reflexivity.
Qed.

Lemma stderr_putc_accept c s :
  accept_all (os_write s) = true ->
  total (stderr_putc c) s (fun rc s' =>
    rc = 0 /\
    glob s' = mkGlobals true (stdout_line (glob s)) (stdout_line_pos (glob s)) /\
    accept_all (os_write s') = true /\ render_frame s s' /\
    sink s' = sink s ++
      (if in_stderr (glob s) then [] else [(STDERR_FILENO, STDERR_BEGIN_MARKER)]) ++
      [(STDERR_FILENO, [c])]).
Proof.
  intros Hacc. unfold stderr_putc.
  eapply total_bind; [apply set_stderr_accept; exact Hacc|].
  intros r s1 (-> & Hg1 & Hacc1 & Hf1 & Hs1).
  rewrite nonzero_0.
  eapply total_bind; [apply (write_all_nointr_accept STDERR_FILENO [c] 1); [exact Hacc1|lia]|].
  intros r s2 (-> & Hg2 & Hf2 & _ & Hacc2 & Hs2).
  rewrite nonzero_0. apply total_ret.
  rewrite Hg2, Hg1. split_and!; auto.
  - eapply render_frame_trans; eassumption.
  - rewrite Hs2, Hs1. simpl. rewrite <- app_assoc. do 2 f_equal.
    destruct (in_stderr (glob s)); reflexivity.
Qed.

(** ** The rendering invariant *)

Lemma scan_flush mode sk (data : list byte) (nonempty : bool) :
  scan false sk = Some mode ->
  scan false (sk ++ (if mode then [(STDERR_FILENO, STDERR_END_MARKER)] else []) ++
                    (if nonempty then [(STDOUT_FILENO, data)] else [])) = Some false.
Proof.
  intros H. rewrite scan_app, H. destruct mode, nonempty; reflexivity.
Qed.

Lemma scan_stderr_byte mode sk (c : byte) :
  scan false sk = Some mode ->
  scan false (sk ++ (if mode then [] else [(STDERR_FILENO, STDERR_BEGIN_MARKER)]) ++
                    [(STDERR_FILENO, [c])]) = Some true.
Proof.
  intros H. rewrite scan_app, H. destruct mode; reflexivity.
Qed.

Lemma flush_stdout_line_ok s :
  rendering_ok s ->
  total flush_stdout_line s (fun _ s' =>
    rendering_ok s' /\ render_frame s s' /\
    in_stderr (glob s') = false /\ stdout_line_pos (glob s') = 0).
Proof.
  intros ([Hpos Hlen] & Hacc & Hscan).
  eapply total_weaken; [apply flush_stdout_line_accept; [exact Hacc|split; assumption]|].
  intros rc s' (_ & Hg & Hacc' & Hf & Hs). unfold rendering_ok, buffer_ok.
  rewrite Hg. simpl. split_and!; auto; try (unfold STDOUT_LINE_SIZE; lia).
  rewrite Hs. apply scan_flush. exact Hscan.
Qed.

Lemma stdout_putc_ok c s :
  rendering_ok s ->
  total (stdout_putc c) s (fun _ s' => rendering_ok s' /\ render_frame s s').
Proof.
  intros Hok. unfold stdout_putc. apply total_get_glob.
  eapply total_bind with (R := fun r s1 =>
    r = 0 /\ rendering_ok s1 /\ render_frame s s1 /\
    stdout_line_pos (glob s1) < STDOUT_LINE_SIZE).
  - destruct (STDOUT_LINE_SIZE <=? stdout_line_pos (glob s)) eqn:Hfull.
    + pose proof (flush_stdout_line_accept s) as Hfl.
      destruct Hok as (Hb & Hacc & Hscan).
      eapply total_weaken; [apply Hfl; assumption|].
      intros rc s1 (-> & Hg & Hacc' & Hf & Hs).
      destruct Hb as [Hpos Hlen].
      split_and!; auto; [|rewrite Hg; simpl; unfold STDOUT_LINE_SIZE; lia].
      unfold rendering_ok. split_and!; auto.
      * rewrite Hg. split; simpl; [unfold STDOUT_LINE_SIZE; lia|assumption].
      * rewrite Hs, Hg. simpl. apply scan_flush. exact Hscan.
    + apply total_ret. apply Z.leb_gt in Hfull. split_and!; auto with frame.
  - intros r s1 (-> & (Hb1 & Hacc1 & Hscan1) & Hf1 & Hpos1).
    rewrite nonzero_0. destruct Hb1 as [Hp1 Hlen1].
    eapply total_bind with (R := fun _ s2 => s2 = stored c s1).
    { unfold total. rewrite store_stdout_line_eq by (auto; lia). reflexivity. }
    intros r s2 Hs2.
    assert (Hok2 : rendering_ok s2).
    { subst s2. unfold rendering_ok. split_and!; auto. split; simpl; [lia|].
      rewrite length_insert. assumption. }
    assert (Hf2 : render_frame s s2) by (subst s2; exact Hf1).
    destruct (Byte.eqb c newline).
    + eapply total_bind; [apply flush_stdout_line_ok; exact Hok2|].
      intros r' s3 (Hok3 & Hf3 & _).
      assert (Hf : render_frame s s3) by (eapply render_frame_trans; eassumption).
      destruct (nonzero r'); apply total_ret; auto.
    + apply total_ret. auto.
Qed.

Lemma stderr_putc_ok c s :
  rendering_ok s ->
  total (stderr_putc c) s (fun _ s' => rendering_ok s' /\ render_frame s s').
Proof.
  intros (Hb & Hacc & Hscan).
  eapply total_weaken; [apply stderr_putc_accept; exact Hacc|].
  intros rc s' (_ & Hg & Hacc' & Hf & Hs).
  split; [|assumption]. unfold rendering_ok. split_and!; auto.
  - rewrite Hg. exact Hb.
  - rewrite Hs, Hg. simpl. apply scan_stderr_byte. exact Hscan.
Qed.

(** From any state that satisfies the rendering invariant, [parent]
    returns with an output that follows the protocol and ends in plain
    mode. *)
Lemma parent_wrapped stdout_pipes stderr_pipes s :
  rendering_ok s ->
  total (parent stdout_pipes stderr_pipes) s (fun _ s' => wrapped (sink s')).
Proof.
  intros Hok.
  destruct (parent_inv stdout_pipes stderr_pipes rendering_ok) with (s := s)
    as (s1 & Hok1 & Heq); auto.
  - intros c s0 H0. eapply total_weaken; [apply stdout_putc_ok; exact H0|].
    intros _ s' [H' Hf]. split; [assumption|apply Hf].
  - intros c s0 H0. eapply total_weaken; [apply stderr_putc_ok; exact H0|].
    intros _ s' [H' Hf]. split; [assumption|apply Hf].
  - unfold total. rewrite Heq. fold (total reap_child s1 (fun _ s' => wrapped (sink s'))).
    eapply total_weaken.
    + apply (reap_child_spec s1 (fun s2 => wrapped (sink s2))).
      eapply total_weaken; [apply flush_stdout_line_ok; exact Hok1|].
      intros _ s2 ((_ & _ & Hscan) & _ & Hmode & _).
      unfold wrapped. rewrite Hscan, Hmode. reflexivity.
    + intros _ s' (s2 & Hw & _ & Hs & _). rewrite Hs. exact Hw.
Qed.

Lemma boot_rendering_ok closes polls reads writes waits indet :
  accept_all writes = true ->
  rendering_ok (boot closes polls reads writes waits indet).
Proof.
  intros Hacc. unfold rendering_ok.
  split_and!; [apply initial_buffer_ok|exact Hacc|reflexivity].
Qed.

(** * Stdout bytes that fit in the buffer *)

(** A byte other than the newline, put into a buffer that is not full,
    is stored and nothing is written. *)
Lemma stdout_putc_buffers c s :
  0 <= stdout_line_pos (glob s) < STDOUT_LINE_SIZE ->
  Z.of_nat (length (stdout_line (glob s))) = STDOUT_LINE_SIZE ->
  c <> newline ->
  stdout_putc c s = Some (0, stored c s).
Proof.
  intros Hpos Hlen Hc. unfold stdout_putc, bind at 1, get_glob.
  replace (STDOUT_LINE_SIZE <=? stdout_line_pos (glob s)) with false
    by (symmetry; apply Z.leb_gt; lia).
  unfold bind at 1, ret at 1. rewrite nonzero_0.
  unfold bind. rewrite store_stdout_line_eq by (auto; lia).
  replace (Byte.eqb c newline) with false; [reflexivity|].
  symmetry. apply not_true_is_false. intros H. apply Hc.
  apply Byte.byte_dec_bl. exact H.
Qed.

(** A byte other than the newline, put into a full buffer on a
    well-behaved descriptor: the buffer is flushed as one block, then the
    byte is stored at index 0. *)
Lemma stdout_putc_at_capacity c s :
  accept_all (os_write s) = true -> buffer_ok (glob s) ->
  stdout_line_pos (glob s) = STDOUT_LINE_SIZE -> c <> newline ->
  total (stdout_putc c) s (fun rc s' =>
    rc = 0 /\ stdout_line_pos (glob s') = 1 /\
    stdout_line (glob s') = <[0%nat := c]> (stdout_line (glob s)) /\
    sink s' = sink s ++
      (if in_stderr (glob s) then [(STDERR_FILENO, STDERR_END_MARKER)] else []) ++
      [(STDOUT_FILENO, take (Z.to_nat STDOUT_LINE_SIZE) (stdout_line (glob s)))]).
Proof.
  intros Hacc Hok Hfull Hc. unfold stdout_putc. apply total_get_glob.
  rewrite Hfull, Z.leb_refl.
  eapply total_bind; [apply flush_stdout_line_accept; assumption|].
  intros r s1 (-> & Hg1 & Hacc1 & Hf1 & Hs1).
  rewrite nonzero_0. destruct Hok as [_ Hlen].
  eapply total_bind with (R := fun _ s2 => s2 = stored c s1).
  { unfold total. rewrite store_stdout_line_eq; rewrite ?Hg1; simpl; auto.
    unfold STDOUT_LINE_SIZE in *. lia. }
  intros r s2 ->.
  replace (Byte.eqb c newline) with false.
  - apply total_ret. simpl. rewrite Hg1, Hs1, Hfull. simpl. auto.
  - symmetry. apply not_true_is_false. intros H. apply Hc.
    apply Byte.byte_dec_bl. exact H.
Qed.

Lemma pop_indet_eq s : pop_indet s = with_os_indet (tl (os_indet s)) s.
Proof.
  unfold pop_indet. destruct (os_indet s) eqn:H; [|reflexivity].
  destruct s; simpl in *; subst; reflexivity.
Qed.

(** Servicing a channel whose read delivers a byte hands that byte to
    the renderer. *)
Lemma service_byte fd what putc b reads s :
  os_read s = ReadByte b :: reads ->
  service fd what putc s =
  bind (putc b) (fun _ => ret (Some true))
    (with_os_read reads (with_os_indet (tl (os_indet s)) s)).
Proof.
  intros Hr. unfold service, bind at 1, indeterminate.
  assert (Hs1 : match os_indet s with
                | [] => Some (x00, s)
                | b0 :: rest => Some (b0, with_os_indet rest s)
                end = Some (hd x00 (os_indet s), pop_indet s)).
  { unfold pop_indet. destruct (os_indet s); reflexivity. }
  rewrite Hs1, pop_indet_eq. clear Hs1.
  unfold bind at 1, read_nointr. simpl os_read. rewrite Hr.
  simpl. unfold bind at 1, sys_read. simpl os_read. rewrite Hr.
  unfold bind at 1, get_errno, ret at 1. simpl.
  reflexivity.
Qed.

(** Servicing a channel whose read reports the end of the stream hands
    the renderer the indeterminate content of the local [c]. *)
Lemma service_eof fd what putc c indet reads s :
  os_indet s = c :: indet ->
  os_read s = ReadEof :: reads ->
  service fd what putc s =
  bind (putc c) (fun _ => ret (Some true))
    (with_os_read reads (with_os_indet indet s)).
Proof.
  intros Hi Hr. unfold service, bind at 1, indeterminate. rewrite Hi.
  unfold bind at 1, read_nointr. simpl os_read. rewrite Hr.
  simpl. unfold bind at 1, sys_read. simpl os_read. rewrite Hr.
  unfold bind at 1, get_errno, ret at 1. simpl.
  reflexivity.
Qed.

Lemma writes_on_app fd sk1 sk2 :
  writes_on fd (sk1 ++ sk2) = writes_on fd sk1 ++ writes_on fd sk2.
Proof.
  induction sk1 as [|[fd' d] sk1 IH]; simpl; [reflexivity|].
  destruct (fd' =? fd); rewrite IH; reflexivity.
Qed.

Lemma buffered_nil s : accept_all (os_write s) = true -> buffered [] s s.
Proof.
  intros H. unfold buffered. simpl. rewrite Z.add_0_r, app_nil_r. auto.
Qed.

Lemma buffered_trans out1 out2 s1 s2 s3 :
  buffered out1 s1 s2 -> buffered out2 s2 s3 -> buffered (out1 ++ out2) s1 s3.
Proof.
  intros (_ & Hw1 & Hp1 & Hl1 & Ht1) (Ha2 & Hw2 & Hp2 & Hl2 & Ht2).
  unfold buffered. rewrite length_app, app_assoc, <- Ht1, <- Ht2.
  split_and!; auto; try congruence. lia.
Qed.

Lemma take_store (line : list byte) (n : nat) (b : byte) :
  (n < length line)%nat -> take (S n) (<[n := b]> line) = take n line ++ [b].
Proof.
  intros Hn. rewrite (take_S_r _ _ b) by (apply list_lookup_insert_eq; exact Hn).
  rewrite take_insert_ge by lia. reflexivity.
Qed.

Lemma service_stdout_buffers fd what b reads s :
  os_read s = ReadByte b :: reads ->
  accept_all (os_write s) = true ->
  0 <= stdout_line_pos (glob s) < STDOUT_LINE_SIZE ->
  Z.of_nat (length (stdout_line (glob s))) = STDOUT_LINE_SIZE ->
  b <> newline ->
  exists s',
    service fd what stdout_putc s = Some (Some true, s') /\
    os_poll s' = os_poll s /\ os_read s' = reads /\ buffered [b] s s'.
Proof.
  intros Hr Hacc Hpos Hlen Hb.
  rewrite (service_byte _ _ _ b reads s Hr). unfold bind.
  rewrite stdout_putc_buffers by assumption.
  eexists. split; [reflexivity|]. unfold buffered. simpl.
  rewrite length_insert. split_and!; auto.
  replace (Z.to_nat (stdout_line_pos (glob s) + 1))
    with (S (Z.to_nat (stdout_line_pos (glob s)))) by lia.
  apply take_store. lia.
Qed.

Lemma service_stderr_buffers fd what e reads s :
  os_read s = ReadByte e :: reads ->
  accept_all (os_write s) = true ->
  exists s',
    service fd what stderr_putc s = Some (Some true, s') /\
    os_poll s' = os_poll s /\ os_read s' = reads /\ buffered [] s s'.
Proof.
  intros Hr Hacc.
  rewrite (service_byte _ _ _ e reads s Hr).
  set (s0 := with_os_read reads _).
  pose proof (stderr_putc_accept e s0 Hacc) as Hspec.
  apply total_some in Hspec as (rc & s' & Hrun & _ & Hg & Hacc' & Hf & Hs).
  exists s'. unfold bind. rewrite Hrun. split; [reflexivity|].
  destruct Hf as (_ & Hp & Hr' & _). subst s0. simpl in *.
  split_and!; auto. unfold buffered. rewrite Hg, Hs. simpl.
  rewrite Z.add_0_r, app_nil_r, !writes_on_app. simpl.
  destruct (in_stderr (glob s)); simpl; rewrite app_nil_r; auto.
Qed.

(** ** Runs made of turns that each deliver a byte *)

(** One turn whose stdout byte, if any, fits in the buffer. *)
Lemma multiplex_loop_turn fuel fd_out fd_err t polls reads s :
  os_poll s = turn_poll t :: polls ->
  os_read s = turn_reads t ++ reads ->
  accept_all (os_write s) = true ->
  0 <= stdout_line_pos (glob s) ->
  stdout_line_pos (glob s) + Z.of_nat (length (turn_stdout t)) <= STDOUT_LINE_SIZE ->
  Z.of_nat (length (stdout_line (glob s))) = STDOUT_LINE_SIZE ->
  Forall (fun b => b <> newline) (turn_stdout t) ->
  exists s',
    multiplex_loop (S fuel) fd_out fd_err s = multiplex_loop fuel fd_out fd_err s' /\
    os_poll s' = polls /\ os_read s' = reads /\ buffered (turn_stdout t) s s'.
Proof.
  intros Hp Hr Hacc Hpos Hfit Hlen Hnl. simpl.
  unfold bind at 1, sys_poll. rewrite Hp.
  set (s0 := with_os_poll polls s).
  destruct t as [b|e|b e]; simpl in Hr, Hfit, Hnl |- *.
  - apply Forall_inv in Hnl.
    destruct (service_stdout_buffers fd_out "read() from stdout pipe" b reads s0)
      as (s1 & Hrun & Hp1 & Hr1 & Hbuf); auto; try (simpl; lia).
    exists s1. unfold bind at 1. rewrite Hrun. split_and!; auto.
  - destruct (service_stderr_buffers fd_err "read() from stderr pipe" e reads s0)
      as (s1 & Hrun & Hp1 & Hr1 & Hbuf); auto.
    exists s1. unfold bind at 1, ret at 1. unfold bind at 1. rewrite Hrun.
    split_and!; auto.
  - apply Forall_inv in Hnl.
    destruct (service_stdout_buffers fd_out "read() from stdout pipe" b
                (ReadByte e :: reads) s0)
      as (s1 & Hrun & Hp1 & Hr1 & Hbuf); auto; try (simpl; lia).
    destruct (service_stderr_buffers fd_err "read() from stderr pipe" e reads s1)
      as (s2 & Hrun2 & Hp2 & Hr2 & Hbuf2); auto; [apply Hbuf|].
    exists s2. unfold bind at 1. rewrite Hrun. unfold bind at 1. rewrite Hrun2.
    simpl. split_and!; auto; [rewrite Hp2, Hp1; reflexivity|].
    apply (buffered_trans [b] [] s0 s1 s2); assumption.
Qed.

(** As many turns as the script holds: the stdout bytes go to the buffer
    and nothing is written to the standard output. *)
Lemma multiplex_loop_turns fuel fd_out fd_err turns :
  forall s polls reads,
  os_poll s = (turn_poll <$> turns) ++ polls ->
  os_read s = concat (turn_reads <$> turns) ++ reads ->
  accept_all (os_write s) = true ->
  0 <= stdout_line_pos (glob s) ->
  stdout_line_pos (glob s) + Z.of_nat (length (stdout_of turns)) <= STDOUT_LINE_SIZE ->
  Z.of_nat (length (stdout_line (glob s))) = STDOUT_LINE_SIZE ->
  Forall (fun b => b <> newline) (stdout_of turns) ->
  exists s',
    multiplex_loop (length turns + fuel) fd_out fd_err s =
    multiplex_loop fuel fd_out fd_err s' /\
    os_poll s' = polls /\ os_read s' = reads /\ buffered (stdout_of turns) s s'.
Proof.
  induction turns as [|t turns IH]; intros s polls reads Hp Hr Hacc Hpos Hfit Hlen Hnl.
  - exists s. simpl in *. split_and!; auto. apply buffered_nil. exact Hacc.
  - change (stdout_of (t :: turns)) with (turn_stdout t ++ stdout_of turns) in *.
    simpl in Hp, Hr.
    rewrite length_app in Hfit. apply Forall_app in Hnl as [Hnl1 Hnl2].
    rewrite <- app_assoc in Hr.
    destruct (multiplex_loop_turn (length turns + fuel) fd_out fd_err t _ _ s Hp Hr)
      as (s1 & Heq1 & Hp1 & Hr1 & Hbuf1); auto; try lia.
    pose proof Hbuf1 as (Ha1 & _ & Hpos1 & Hlen1 & _).
    destruct (IH s1 polls reads) as (s' & Heq' & Hp' & Hr' & Hbuf'); auto; try lia.
    exists s'. change (length (t :: turns) + fuel)%nat with (S (length turns + fuel)).
    rewrite Heq1, Heq'. split_and!; auto.
    apply (buffered_trans (turn_stdout t) (stdout_of turns) s s1 s'); assumption.
Qed.

(** When nothing is left to poll both pipes have hung up and the loop
    ends at once. *)
Lemma multiplex_loop_hangup fuel fd_out fd_err s :
  os_poll s = [] -> multiplex_loop (S fuel) fd_out fd_err s = Some (tt, s).
Proof.
  intros Hp. simpl. unfold bind at 1, sys_poll. rewrite Hp. reflexivity.
Qed.

(** The loop over a script of turns whose stdout bytes fit in the buffer,
    from a state with the buffer empty. *)
Lemma multiplex_fills_buffer fd_out fd_err turns s :
  os_poll s = turn_poll <$> turns ->
  os_read s = concat (turn_reads <$> turns) ->
  accept_all (os_write s) = true ->
  stdout_line_pos (glob s) = 0 ->
  Z.of_nat (length (stdout_line (glob s))) = STDOUT_LINE_SIZE ->
  Z.of_nat (length (stdout_of turns)) <= STDOUT_LINE_SIZE ->
  Forall (fun b => b <> newline) (stdout_of turns) ->
  exists s',
    multiplex fd_out fd_err s = Some (tt, s') /\
    accept_all (os_write s') = true /\
    writes_on STDOUT_FILENO (sink s') = writes_on STDOUT_FILENO (sink s) /\
    stdout_line_pos (glob s') = Z.of_nat (length (stdout_of turns)) /\
    Z.of_nat (length (stdout_line (glob s'))) = STDOUT_LINE_SIZE /\
    take (length (stdout_of turns)) (stdout_line (glob s')) = stdout_of turns.
Proof.
  intros Hp Hr Hacc Hpos Hlen Hfit Hnl.
  destruct (multiplex_loop_turns 1 fd_out fd_err turns s [] [])
    as (s' & Heq & Hp' & Hr' & Ha' & Hw' & Hpos' & Hlen' & Htake');
    rewrite ?app_nil_r; auto; try lia.
  exists s'. unfold multiplex. rewrite Hp, length_fmap.
  replace (S (length turns)) with (length turns + 1)%nat by lia.
  rewrite Heq, (multiplex_loop_hangup 0 _ _ s' Hp').
  rewrite Hpos in Hpos', Htake'. rewrite Z.add_0_l in Hpos'.
  rewrite Hpos', Nat2Z.id in Htake'. simpl in Htake'.
  split_and!; auto; congruence.
Qed.

(** * Every byte keeps its origin *)

Lemma stderr_data_app sk1 sk2 :
  stderr_data (sk1 ++ sk2) = stderr_data sk1 ++ stderr_data sk2.
Proof.
  induction sk1 as [|[fd d] sk1 IH]; simpl; [reflexivity|].
  destruct ((fd =? STDERR_FILENO) && (length d =? 1)%nat); rewrite IH;
    [rewrite app_assoc|]; reflexivity.
Qed.

(** A flush moves the content of the buffer to the standard output. *)
Lemma flush_stdout_line_rendered out err s :
  rendered out err s ->
  total flush_stdout_line s (fun _ s' =>
    rendered out err s' /\ render_frame s s' /\
    stdout_line_pos (glob s') = 0 /\
    stdout_line (glob s') = stdout_line (glob s)).
Proof.
  intros (Hok & Hout & Herr).
  pose proof (total_conj _ _ _ _ (flush_stdout_line_ok s Hok)
                (flush_stdout_line_accept s (proj1 (proj2 Hok)) (proj1 Hok)))
    as Hboth.
  eapply total_weaken; [exact Hboth|]. clear Hboth.
  intros rc s' ((Hok' & Hf & _ & Hpos') & _ & Hg & _ & _ & Hs).
  split_and!; auto; [|rewrite Hg; reflexivity].
  unfold rendered. split_and!; auto.
  - rewrite Hpos', Hs, !bytes_on_app. simpl. rewrite app_nil_r, <- Hout.
    f_equal. destruct Hok as ([Hp _] & _).
    destruct (in_stderr (glob s)); simpl;
      destruct (Z.ltb_spec 0 (stdout_line_pos (glob s))); simpl;
      rewrite ?app_nil_r; try reflexivity;
      replace (stdout_line_pos (glob s)) with 0 by lia; reflexivity.
  - rewrite Hs, !stderr_data_app, <- Herr. simpl.
    destruct (in_stderr (glob s)), (0 <? stdout_line_pos (glob s)); simpl;
      rewrite ?app_nil_r; reflexivity.
Qed.

Lemma stdout_putc_rendered c out err s :
  rendered out err s ->
  total (stdout_putc c) s (fun _ s' =>
    rendered (out ++ [c]) err s' /\ render_frame s s').
Proof.
  intros Hr. unfold stdout_putc. apply total_get_glob.
  eapply total_bind with (R := fun r s1 =>
    r = 0 /\ rendered out err s1 /\ render_frame s s1 /\
    stdout_line_pos (glob s1) < STDOUT_LINE_SIZE).
  - destruct (STDOUT_LINE_SIZE <=? stdout_line_pos (glob s)) eqn:Hfull.
    + pose proof (total_conj _ _ _ _ (flush_stdout_line_rendered out err s Hr)
                    (flush_stdout_line_accept s (proj1 (proj2 (proj1 Hr)))
                       (proj1 (proj1 Hr)))) as Hboth.
      eapply total_weaken; [exact Hboth|]. clear Hboth.
      intros rc s1 ((Hr1 & Hf1 & Hp1 & _) & -> & _).
      split_and!; auto. rewrite Hp1. unfold STDOUT_LINE_SIZE. lia.
    + apply total_ret. apply Z.leb_gt in Hfull. split_and!; auto with frame.
  - intros r s1 (-> & Hr1 & Hf1 & Hpos1).
    rewrite nonzero_0.
    pose proof Hr1 as (Hok1 & Hout1 & Herr1).
    pose proof Hok1 as (Hbuf1 & Hacc1 & Hscan1).
    pose proof Hbuf1 as (Hp1 & Hlen1).
    eapply total_bind with (R := fun _ s2 => s2 = stored c s1).
    { unfold total. rewrite store_stdout_line_eq by (auto; lia). reflexivity. }
    intros r s2 Hs2.
    assert (Hr2 : rendered (out ++ [c]) err s2).
    { subst s2. unfold rendered, rendering_ok, buffer_ok. simpl.
      rewrite length_insert. split_and!; auto; try lia.
      replace (Z.to_nat (stdout_line_pos (glob s1) + 1))
        with (S (Z.to_nat (stdout_line_pos (glob s1)))) by lia.
      rewrite take_store by lia. rewrite app_assoc, Hout1. reflexivity. }
    assert (Hf2 : render_frame s s2) by (subst s2; exact Hf1).
    destruct (Byte.eqb c newline).
    + eapply total_bind; [apply flush_stdout_line_rendered; exact Hr2|].
      intros r' s3 (Hr3 & Hf3 & _).
      assert (Hf : render_frame s s3) by (eapply render_frame_trans; eassumption).
      destruct (nonzero r'); apply total_ret; auto.
    + apply total_ret. auto.
Qed.

Lemma stderr_putc_rendered c out err s :
  rendered out err s ->
  total (stderr_putc c) s (fun _ s' =>
    rendered out (err ++ [c]) s' /\ render_frame s s').
Proof.
  intros (Hok & Hout & Herr).
  pose proof (total_conj _ _ _ _ (stderr_putc_ok c s Hok)
                (stderr_putc_accept c s (proj1 (proj2 Hok)))) as Hboth.
  eapply total_weaken; [exact Hboth|]. clear Hboth.
  intros rc s' ((Hok' & Hf) & _ & Hg & _ & _ & Hs).
  split; [|exact Hf]. unfold rendered. split_and!; auto.
  - rewrite Hg, Hs, !bytes_on_app. simpl. rewrite <- Hout.
    destruct (in_stderr (glob s)); simpl; rewrite !app_nil_r; reflexivity.
  - rewrite Hs, !stderr_data_app, <- Herr.
    destruct (in_stderr (glob s)); reflexivity.
Qed.

(** One turn of the loop renders the bytes the turn delivers. *)
Lemma multiplex_loop_turn_rendered fuel fd_out fd_err t polls reads out err s :
  os_poll s = turn_poll t :: polls ->
  os_read s = turn_reads t ++ reads ->
  rendered out err s ->
  exists s',
    multiplex_loop (S fuel) fd_out fd_err s = multiplex_loop fuel fd_out fd_err s' /\
    os_poll s' = polls /\ os_read s' = reads /\
    rendered (out ++ turn_stdout t) (err ++ turn_stderr t) s'.
Proof.
  intros Hp Hr Hrend. simpl.
  unfold bind at 1, sys_poll. rewrite Hp.
  set (s0 := with_os_poll polls s).
  assert (Hout : forall b reads' s1, os_read s1 = ReadByte b :: reads' ->
            forall out' err', rendered out' err' s1 ->
            exists s2, service fd_out "read() from stdout pipe" stdout_putc s1 =
                       Some (Some true, s2) /\
              os_poll s2 = os_poll s1 /\ os_read s2 = reads' /\
              rendered (out' ++ [b]) err' s2).
  { intros b reads' s1 Hr1 out' err' Hrend1.
    rewrite (service_byte _ _ _ b reads' s1 Hr1).
    set (s1' := with_os_read reads' _).
    pose proof (stdout_putc_rendered b out' err' s1' Hrend1) as Hspec.
    apply total_some in Hspec as (rc & s2 & Hrun & Hrend2 & Hf).
    exists s2. unfold bind. rewrite Hrun. split; [reflexivity|].
    destruct Hf as (_ & Hp2 & Hr2 & _). auto. }
  assert (Herr : forall e reads' s1, os_read s1 = ReadByte e :: reads' ->
            forall out' err', rendered out' err' s1 ->
            exists s2, service fd_err "read() from stderr pipe" stderr_putc s1 =
                       Some (Some true, s2) /\
              os_poll s2 = os_poll s1 /\ os_read s2 = reads' /\
              rendered out' (err' ++ [e]) s2).
  { intros e reads' s1 Hr1 out' err' Hrend1.
    rewrite (service_byte _ _ _ e reads' s1 Hr1).
    set (s1' := with_os_read reads' _).
    pose proof (stderr_putc_rendered e out' err' s1' Hrend1) as Hspec.
    apply total_some in Hspec as (rc & s2 & Hrun & Hrend2 & Hf).
    exists s2. unfold bind. rewrite Hrun. split; [reflexivity|].
    destruct Hf as (_ & Hp2 & Hr2 & _). auto. }
  destruct t as [b|e|b e]; simpl in Hr |- *; rewrite ?app_nil_r.
  - destruct (Hout b reads s0 Hr out err Hrend) as (s1 & Hrun & Hp1 & Hr1 & Hrend1).
    exists s1. unfold bind at 1. rewrite Hrun. split_and!; auto.
  - destruct (Herr e reads s0 Hr out err Hrend) as (s1 & Hrun & Hp1 & Hr1 & Hrend1).
    exists s1. unfold bind at 1, ret at 1. unfold bind at 1. rewrite Hrun.
    split_and!; auto.
  - destruct (Hout b (ReadByte e :: reads) s0 Hr out err Hrend)
      as (s1 & Hrun & Hp1 & Hr1 & Hrend1).
    destruct (Herr e reads s1 Hr1 _ _ Hrend1) as (s2 & Hrun2 & Hp2 & Hr2 & Hrend2).
    exists s2. unfold bind at 1. rewrite Hrun. unfold bind at 1. rewrite Hrun2.
    simpl. split_and!; auto. rewrite Hp2, Hp1. reflexivity.
Qed.

Lemma multiplex_loop_turns_rendered fuel fd_out fd_err turns :
  forall s polls reads out err,
  os_poll s = (turn_poll <$> turns) ++ polls ->
  os_read s = concat (turn_reads <$> turns) ++ reads ->
  rendered out err s ->
  exists s',
    multiplex_loop (length turns + fuel) fd_out fd_err s =
    multiplex_loop fuel fd_out fd_err s' /\
    os_poll s' = polls /\ os_read s' = reads /\
    rendered (out ++ stdout_of turns) (err ++ stderr_of turns) s'.
Proof.
  induction turns as [|t turns IH]; intros s polls reads out err Hp Hr Hrend.
  - exists s. simpl in *. unfold stdout_of, stderr_of. simpl.
    rewrite !app_nil_r. auto.
  - change (stdout_of (t :: turns)) with (turn_stdout t ++ stdout_of turns).
    change (stderr_of (t :: turns)) with (turn_stderr t ++ stderr_of turns).
    simpl in Hp, Hr. rewrite <- app_assoc in Hr.
    destruct (multiplex_loop_turn_rendered (length turns + fuel) fd_out fd_err
                t _ _ out err s Hp Hr Hrend)
      as (s1 & Heq1 & Hp1 & Hr1 & Hrend1).
    destruct (IH s1 polls reads _ _ Hp1 Hr1 Hrend1) as (s' & Heq' & Hp' & Hr' & Hrend').
    exists s'. change (length (t :: turns) + fuel)%nat with (S (length turns + fuel)).
    rewrite Heq1, Heq', !app_assoc. auto.
Qed.

(** In a run made of turns, on well-behaved descriptors, the standard
    output receives exactly the bytes of the child's stdout, in order, and
    the bytes written one by one on the standard error are exactly those
    of the child's stderr, in order. *)
Lemma parent_keeps_origins (r_out w_out r_err w_err : Z) turns writes waits indet :
  accept_all writes = true ->
  total (parent (r_out, w_out) (r_err, w_err)) (run_of turns writes waits indet)
    (fun _ s' =>
       bytes_on STDOUT_FILENO (sink s') = stdout_of turns /\
       stderr_data (sink s') = stderr_of turns).
Proof.
  intros Hacc.
  set (s0 := run_of turns writes waits indet).
  assert (Hrend0 : rendered [] [] (with_closed [w_out; w_err] s0)).
  { unfold rendered, rendering_ok.
    split_and!; [apply initial_buffer_ok|exact Hacc|reflexivity..]. }
  destruct (multiplex_loop_turns_rendered 1 r_out r_err turns
              (with_closed [w_out; w_err] s0) [] [] [] [])
    as (s1 & Heq & Hp1 & _ & Hrend1); rewrite ?app_nil_r; auto.
  assert (Hrun : multiplex r_out r_err (with_closed [w_out; w_err] s0) = Some (tt, s1)).
  { unfold multiplex. simpl os_poll. rewrite length_fmap.
    replace (S (length turns)) with (length turns + 1)%nat by lia.
    rewrite Heq. apply multiplex_loop_hangup. exact Hp1. }
  assert (Hparent : parent (r_out, w_out) (r_err, w_err) s0 = reap_child s1).
  { unfold parent, bind at 1. cbn [fst snd].
    change (sys_close w_out s0) with (Some (0, with_closed [w_out] s0)).
    cbv beta iota. change (0 =? -1) with false. cbv beta iota.
    unfold bind at 1. cbn [fst snd].
    change (sys_close w_err (with_closed [w_out] s0))
      with (Some (0, with_closed [w_out; w_err] s0)).
    cbv beta iota. change (0 =? -1) with false. cbv beta iota.
    unfold bind at 1. cbn [fst snd].
    rewrite Hrun. reflexivity. }
  unfold total at 1. rewrite Hparent. simpl in Hrend1.
  eapply total_weaken.
  - apply (reap_child_spec s1 (fun s2 =>
             bytes_on STDOUT_FILENO (sink s2) = stdout_of turns /\
             stderr_data (sink s2) = stderr_of turns)).
    eapply total_weaken; [apply flush_stdout_line_rendered; exact Hrend1|].
    intros r s2 ((_ & Hout2 & Herr2) & _ & Hpos2 & _).
    rewrite Hpos2 in Hout2. simpl in Hout2. rewrite app_nil_r in Hout2. auto.
  - intros r s' (s2 & [Hout2 Herr2] & _ & Hs' & _). rewrite Hs'. auto.
Qed.

(** * The mode at the end of a run *)


(** * The wait status *)

(** The exit codes 0 to 255 are exactly what a normal exit can report. *)
Lemma exit_status_encoding N :
  0 <= N <= 255 ->
  WIFEXITED (Z.shiftl N 8) = true /\ WEXITSTATUS (Z.shiftl N 8) = N.
Proof.
  intros HN. unfold WIFEXITED, WEXITSTATUS, WTERMSIG.
  assert (H127 : Z.land (Z.shiftl N 8) 127 = 0).
  { apply Z.bits_inj'. intros n Hn. rewrite Z.land_spec, Z.bits_0.
    destruct (Z.ltb_spec n 8).
    - rewrite Z.shiftl_spec_low by lia. reflexivity.
    - change 127 with (Z.ones 7). rewrite Z.ones_spec_high by lia.
      apply andb_false_r. }
  rewrite H127. split; [reflexivity|].
  apply Z.bits_inj'. intros n Hn.
  rewrite Z.shiftr_spec, Z.land_spec, Z.shiftl_spec by lia.
  replace (n + 8 - 8) with n by lia.
  destruct (Z.ltb_spec n 8).
  - change 65280 with (Z.shiftl (Z.ones 8) 8).
    rewrite Z.shiftl_spec by lia. replace (n + 8 - 8) with n by lia.
    rewrite Z.ones_spec_low by lia. apply andb_true_r.
  - assert (HNn : Z.testbit N n = false).
    { destruct (Z.eq_dec N 0) as [->|Hnz]; [apply Z.bits_0|].
      apply Z.bits_above_log2; [lia|].
      assert (Z.log2 N < 8) by (apply Z.log2_lt_pow2; lia). lia. }
    rewrite HNn. reflexivity.
Qed.

(** Whatever the status, the exit code read from it is a byte. *)
Lemma WEXITSTATUS_range status : 0 <= WEXITSTATUS status <= 255.
Proof.
  unfold WEXITSTATUS.
  assert (H : Z.shiftr (Z.land status 65280) 8 = Z.land (Z.shiftr status 8) (Z.ones 8)).
  { apply Z.bits_inj'. intros n Hn.
    rewrite Z.shiftr_spec, !Z.land_spec, Z.shiftr_spec by lia.
    change 65280 with (Z.shiftl (Z.ones 8) 8).
    rewrite Z.shiftl_spec by lia. replace (n + 8 - 8) with n by lia. reflexivity. }
  rewrite H, Z.land_ones by lia.
  assert (Hm := Z.mod_pos_bound (Z.shiftr status 8) (2 ^ 8) eq_refl).
  change (2 ^ 8) with 256 in *. lia.
Qed.

(** * Runs that fill the buffer exactly *)

Lemma no_newline_Forall bs :
  no_newline bs = true -> Forall (fun b => b <> newline) bs.
Proof.
  unfold no_newline. intros H. apply Forall_forall. intros b Hb Heq. subst b.
  rewrite forallb_forall in H. apply list_elem_of_In in Hb.
  specialize (H _ Hb). discriminate.
Qed.

(** * The claims *)

(** C1 fails on the code.  [parent] tests the result of [read_nointr]
    against -1 only, so a read of zero bytes is handled like a read of one
    byte: the content of the uninitialised local is handed to the renderer,
    which writes it between markers (stderr pipe) or buffers and flushes it
    (stdout pipe). *)
Theorem zero_byte_read_is_rendered :
  parent (3, 4) (5, 6) eof_on_stderr_run =
    Some (0, final (parent (3, 4) (5, 6)) eof_on_stderr_run) /\
  sink (final (parent (3, 4) (5, 6)) eof_on_stderr_run) =
    [(STDERR_FILENO, STDERR_BEGIN_MARKER); (STDERR_FILENO, [x58]);
     (STDERR_FILENO, STDERR_END_MARKER)] /\
  parent (3, 4) (5, 6) eof_on_stdout_run =
    Some (0, final (parent (3, 4) (5, 6)) eof_on_stdout_run) /\
  sink (final (parent (3, 4) (5, 6)) eof_on_stdout_run) = [(STDOUT_FILENO, [x58])].
Proof.
  split_and!; vm_compute; reflexivity.
Qed.

(** C2 as stated fails: after the loop has handled all 1024 bytes, and has
    even seen both pipes hang up, nothing has been written, so the block
    of 1024 bytes has not been flushed; the buffer holds the bytes. *)
Lemma full_buffer_is_not_flushed_at_capacity :
  length (stdout_of (TurnOut <$> full_line)) = 1024%nat /\
  no_newline (stdout_of (TurnOut <$> full_line)) = true /\
  multiplex 3 5 full_line_run = Some (tt, final (multiplex 3 5) full_line_run) /\
  sink (final (multiplex 3 5) full_line_run) = [] /\
  stdout_line_pos (glob (final (multiplex 3 5) full_line_run)) = 1024 /\
  writes_on STDOUT_FILENO (sink (final (multiplex 3 5) full_line_run)) <>
    [(STDOUT_FILENO, full_line)].
Proof.
  assert (Hs : sink (final (multiplex 3 5) full_line_run) = [])
    by (vm_compute; reflexivity).
  split_and!; try (vm_compute; reflexivity).
  rewrite Hs. discriminate.
Qed.

(** C2, amended.  In a run in which the child's stdout carries exactly
    1024 bytes, none a newline, and whose writes are accepted, the loop
    writes nothing to the standard output: when it ends the 1024 bytes are
    all in the buffer.  They are written exactly once, as one block, by
    the flush at [reap_child]. *)
Theorem full_buffer_is_flushed_once_at_the_end
    (turns : list turn) (writes : list write_outcome)
    (waits : list wait_outcome) (indet : list byte)
    (r_out w_out r_err w_err : Z) :
  length (stdout_of turns) = 1024%nat ->
  no_newline (stdout_of turns) = true ->
  accept_all writes = true ->
  total (multiplex r_out r_err) (run_of turns writes waits indet)
    (fun _ s1 =>
       writes_on STDOUT_FILENO (sink s1) = [] /\
       stdout_line_pos (glob s1) = 1024 /\
       take 1024 (stdout_line (glob s1)) = stdout_of turns) /\
  total (parent (r_out, w_out) (r_err, w_err)) (run_of turns writes waits indet)
    (fun _ s2 =>
       writes_on STDOUT_FILENO (sink s2) = [(STDOUT_FILENO, stdout_of turns)]).
Proof.
  intros Hlen Hnl Hacc. apply no_newline_Forall in Hnl.
  assert (Hfit : Z.of_nat (length (stdout_of turns)) <= STDOUT_LINE_SIZE)
    by (rewrite Hlen; unfold STDOUT_LINE_SIZE; lia).
  assert (Hfill : forall s,
    os_poll s = turn_poll <$> turns ->
    os_read s = concat (turn_reads <$> turns) ->
    os_write s = writes -> glob s = initial_globals -> sink s = [] ->
    exists s1, multiplex r_out r_err s = Some (tt, s1) /\
      accept_all (os_write s1) = true /\
      writes_on STDOUT_FILENO (sink s1) = [] /\
      stdout_line_pos (glob s1) = 1024 /\
      Z.of_nat (length (stdout_line (glob s1))) = STDOUT_LINE_SIZE /\
      take 1024 (stdout_line (glob s1)) = stdout_of turns).
  { intros s Hp Hr Hw Hg Hs.
    destruct (multiplex_fills_buffer r_out r_err turns s)
      as (s1 & Hrun & Ha1 & Hw1 & Hp1 & Hl1 & Ht1); auto.
    - rewrite Hw. exact Hacc.
    - rewrite Hg. reflexivity.
    - rewrite Hg. reflexivity.
    - exists s1. rewrite Hs in Hw1. rewrite Hlen in Hp1, Ht1.
      split_and!; auto. }
  split.
  - destruct (Hfill (run_of turns writes waits indet))
      as (s1 & Hrun & _ & Hw1 & Hp1 & _ & Ht1); try reflexivity.
    unfold total. rewrite Hrun. auto.
  - set (s0 := run_of turns writes waits indet).
    destruct (Hfill (with_closed [w_out; w_err] s0))
      as (s1 & Hrun & Ha1 & Hw1 & Hp1 & Hl1 & Ht1); try reflexivity.
    assert (Hparent : parent (r_out, w_out) (r_err, w_err) s0 = reap_child s1).
    { unfold parent, bind at 1. cbn [fst snd].
      change (sys_close w_out s0) with (Some (0, with_closed [w_out] s0)).
      cbv beta iota. change (0 =? -1) with false. cbv beta iota.
      unfold bind at 1. cbn [fst snd].
      change (sys_close w_err (with_closed [w_out] s0))
        with (Some (0, with_closed [w_out; w_err] s0)).
      cbv beta iota. change (0 =? -1) with false. cbv beta iota.
      unfold bind at 1. cbn [fst snd].
      rewrite Hrun. reflexivity. }
    unfold total at 1. rewrite Hparent.
    eapply total_weaken.
    + apply (reap_child_spec s1 (fun s2 =>
               writes_on STDOUT_FILENO (sink s2) = [(STDOUT_FILENO, stdout_of turns)])).
      eapply total_weaken.
      * apply flush_stdout_line_accept; [exact Ha1|].
        split; [rewrite Hp1; unfold STDOUT_LINE_SIZE; lia|exact Hl1].
      * intros r s2 (_ & _ & _ & _ & Hs2). rewrite Hs2, !writes_on_app, Hw1, Hp1.
        change (Z.to_nat 1024) with 1024%nat. rewrite Ht1.
        destruct (in_stderr (glob s1)); reflexivity.
    + intros r s' (s2 & Hw2 & _ & Hs' & _). rewrite Hs'. exact Hw2.
Qed.

Lemma full_buffer_is_flushed_once_at_the_end_witness :
  length (stdout_of (TurnOut <$> full_line)) = 1024%nat /\
  no_newline (stdout_of (TurnOut <$> full_line)) = true /\
  accept_all [] = true /\
  total (multiplex 3 5) full_line_run
    (fun _ s1 =>
       writes_on STDOUT_FILENO (sink s1) = [] /\
       stdout_line_pos (glob s1) = 1024 /\
       take 1024 (stdout_line (glob s1)) = stdout_of (TurnOut <$> full_line)) /\
  total (parent (3, 4) (5, 6)) full_line_run
    (fun _ s2 =>
       writes_on STDOUT_FILENO (sink s2) =
       [(STDOUT_FILENO, stdout_of (TurnOut <$> full_line))]).
Proof.
  assert (H1 : length (stdout_of (TurnOut <$> full_line)) = 1024%nat)
    by (vm_compute; reflexivity).
  assert (H2 : no_newline (stdout_of (TurnOut <$> full_line)) = true)
    by (vm_compute; reflexivity).
  split; [exact H1|]. split; [exact H2|]. split; [reflexivity|].
  exact (full_buffer_is_flushed_once_at_the_end
           (TurnOut <$> full_line) [] [WaitPid 4242 0] [] 3 4 5 6
           H1 H2 eq_refl).
Defined.




(** C4 fails on the code for [poll] and [wait].  [read_nointr] and
    [write_nointr] repeat an interrupted call ([read_nointr_retries],
    [write_nointr_retries]), but [parent] calls [poll] and [wait] directly:
    an interrupted [poll] ends the loop with the diagnostic of a failure,
    leaving the waiting byte unread, and an interrupted [wait] makes
    [parent] return [EXIT_FAILURE] without asking again. *)
Theorem interrupted_poll_and_wait_are_failures :
  parent (3, 4) (5, 6) interrupted_run =
    Some (EXIT_FAILURE, final (parent (3, 4) (5, 6)) interrupted_run) /\
  stdio_err (final (parent (3, 4) (5, 6)) interrupted_run) =
    [Perror "poll()" EINTR; Perror "wait()" EINTR] /\
  os_poll (final (parent (3, 4) (5, 6)) interrupted_run) = [PollReady POLLIN 0] /\
  os_read (final (parent (3, 4) (5, 6)) interrupted_run) = [ReadByte x61] /\
  os_wait (final (parent (3, 4) (5, 6)) interrupted_run) = [WaitPid 4242 0] /\
  stdio_out (final (parent (3, 4) (5, 6)) interrupted_run) = EmptyString.
Proof.
  split_and!; vm_compute; reflexivity.
Qed.

(** C5 fails on the code.  [stdout_putc] and [stderr_putc] report a failed
    write through their result, but [parent] drops that result: after the
    failed write the loop polls again, reads the second byte and renders
    it.  Only the second half of the claim holds: the child is reaped and
    reported. *)
Theorem write_failure_does_not_end_the_loop :
  parent (3, 4) (5, 6) write_failure_run =
    Some (0, final (parent (3, 4) (5, 6)) write_failure_run) /\
  stdio_err (final (parent (3, 4) (5, 6)) write_failure_run) = [Perror "write()" 5] /\
  os_poll (final (parent (3, 4) (5, 6)) write_failure_run) = [] /\
  os_read (final (parent (3, 4) (5, 6)) write_failure_run) = [] /\
  sink (final (parent (3, 4) (5, 6)) write_failure_run) =
    [(STDERR_FILENO, [x62]); (STDERR_FILENO, STDERR_END_MARKER)] /\
  stdio_out (final (parent (3, 4) (5, 6)) write_failure_run) =
    blue "Exited with status 0".
Proof.
  split_and!; vm_compute; reflexivity.
Qed.

(** C6 as stated fails: the output of one run goes to two descriptors. *)
Lemma rendered_output_uses_two_descriptors :
  parent (3, 4) (5, 6) sample_run = Some (3, final (parent (3, 4) (5, 6)) sample_run) /\
  sink (final (parent (3, 4) (5, 6)) sample_run) =
    [ (STDOUT_FILENO, [x6f; x0a]);
      (STDERR_FILENO, STDERR_BEGIN_MARKER);
      (STDERR_FILENO, [x65]); (STDERR_FILENO, [x66]);
      (STDERR_FILENO, STDERR_END_MARKER);
      (STDOUT_FILENO, [x70]) ] /\
  ~ (exists fd, Forall (fun w => fst w = fd) (sink (final (parent (3, 4) (5, 6)) sample_run))).
Proof.
  assert (Hs : sink (final (parent (3, 4) (5, 6)) sample_run) =
    [ (STDOUT_FILENO, [x6f; x0a]);
      (STDERR_FILENO, STDERR_BEGIN_MARKER);
      (STDERR_FILENO, [x65]); (STDERR_FILENO, [x66]);
      (STDERR_FILENO, STDERR_END_MARKER);
      (STDOUT_FILENO, [x70]) ]) by (vm_compute; reflexivity).
  split; [vm_compute; reflexivity|]. split; [exact Hs|].
  rewrite Hs. intros [fd Hfd].
  apply Forall_cons in Hfd as [H1 Hfd]. apply Forall_cons in Hfd as [H2 _].
  simpl in H1, H2. unfold STDOUT_FILENO, STDERR_FILENO in *. lia.
Qed.

(** C6, amended.  The output of a run goes to two descriptors.  In every
    run of [parent] whose writes are accepted it follows the two-mode
    protocol and ends in plain mode: the blocks of stdout bytes go
    unmarked to the standard output, the stderr bytes go one by one to the
    standard error, and there each span of them is opened by the begin
    marker and closed by the end marker before the next stdout block or
    the end of the run.  When every turn of the loop delivers a byte, the
    standard output receives exactly the child's stdout bytes and the
    bytes between the markers are exactly the child's stderr bytes, each
    stream in its order. *)
Theorem rendered_output_is_wrapped
    (stdout_pipes stderr_pipes : Z * Z)
    (closes : list close_outcome) (polls : list poll_outcome)
    (reads : list read_outcome) (writes : list write_outcome)
    (waits : list wait_outcome) (indet : list byte) (turns : list turn) :
  accept_all writes = true ->
  total (parent stdout_pipes stderr_pipes)
    (boot closes polls reads writes waits indet)
    (fun _ s' => wrapped (sink s')) /\
  total (parent stdout_pipes stderr_pipes) (run_of turns writes waits indet)
    (fun _ s' =>
       wrapped (sink s') /\
       bytes_on STDOUT_FILENO (sink s') = stdout_of turns /\
       stderr_data (sink s') = stderr_of turns).
Proof.
  intros Hacc. split.
  - apply parent_wrapped, boot_rendering_ok, Hacc.
  - destruct stdout_pipes as [r_out w_out], stderr_pipes as [r_err w_err].
    eapply total_weaken.
    + apply total_conj.
      * apply (parent_wrapped (r_out, w_out) (r_err, w_err)).
        apply boot_rendering_ok, Hacc.
      * apply parent_keeps_origins, Hacc.
    + intros r s' (Hw & Ho & He). auto.
Qed.

Lemma rendered_output_is_wrapped_witness :
  accept_all sample_writes = true /\
  total (parent (3, 4) (5, 6)) sample_run (fun _ s' => wrapped (sink s')) /\
  total (parent (3, 4) (5, 6)) (run_of sample_turns sample_writes [] [])
    (fun _ s' =>
       wrapped (sink s') /\
       bytes_on STDOUT_FILENO (sink s') = [x6f; x0a; x70] /\
       stderr_data (sink s') = [x65; x66]).
Proof.
  split; [reflexivity|].
  apply (rendered_output_is_wrapped (3, 4) (5, 6) [CloseOk; CloseOk]
           sample_polls sample_reads sample_writes [WaitPid 4242 768] []
           sample_turns).
  reflexivity.
Defined.

(** C7.  When the child has exited normally with code [N], [parent]
    prints the line "Exited with status N" (in its colour markers) and
    returns [N], which [main] returns as the exit code of the process.
    This holds whatever happened during multiplexing. *)
Theorem exit_code_is_reported_and_returned
    (stdout_pipes stderr_pipes : Z * Z)
    (closes : list close_outcome) (polls : list poll_outcome)
    (reads : list read_outcome) (writes : list write_outcome)
    (waits : list wait_outcome) (indet : list byte)
    (pid status N : Z) :
  0 < pid ->
  WIFEXITED status = true -> WEXITSTATUS status = N ->
  total (parent stdout_pipes stderr_pipes)
    (boot closes polls reads writes (WaitPid pid status :: waits) indet)
    (fun rc s' =>
       rc = N /\
       stdio_out s' = blue ("Exited with status " ++ decimal N) /\
       0 <= N <= 255).
Proof.
  intros Hpid Hex HN.
  set (I := fun s : state =>
    buffer_ok (glob s) /\ os_wait s = WaitPid pid status :: waits /\
    stdio_out s = EmptyString).
  assert (Hputc : forall (putc : byte -> M Z),
    (forall c s, buffer_ok (glob s) ->
       total (putc c) s (fun _ s' => buffer_ok (glob s') /\ render_frame s s')) ->
    forall c s, I s -> total (putc c) s (fun _ s' => I s' /\ os_poll s' = os_poll s)).
  { intros putc H c s (Hb & Hw & Ho). eapply total_weaken; [apply H; exact Hb|].
    intros r s' (Hb' & Hf). unfold I. destruct Hf as (_ & Hp & _ & Hw' & _ & _ & Ho').
    split_and!; auto; congruence. }
  destruct (parent_inv stdout_pipes stderr_pipes I)
    with (s := boot closes polls reads writes (WaitPid pid status :: waits) indet)
    as (s1 & (Hb1 & Hw1 & Ho1) & Heq); auto.
  - apply Hputc. intros c s Hb. eapply total_weaken; [apply stdout_putc_spec; exact Hb|].
    intros r s' (Hb' & Hf & _). auto.
  - apply Hputc. intros c s Hb. eapply total_weaken; [apply stderr_putc_spec|].
    intros r s' (Hl & Hp & Hf & _). split; [|exact Hf].
    destruct Hb as [Hb1 Hb2]. split; congruence.
  - unfold I. split_and!; [apply initial_buffer_ok|reflexivity|reflexivity].
  - unfold total at 1. rewrite Heq. unfold reap_child.
    eapply total_bind; [apply flush_stdout_line_spec; exact Hb1|].
    intros r s2 (Hf & _). destruct Hf as (_ & _ & _ & Hw2 & _ & _ & Ho2).
    unfold total.
    rewrite (wait_and_report_exited s2 pid status waits) by (try congruence; lia).
    simpl. rewrite HN, Ho2, Ho1.
    pose proof (WEXITSTATUS_range status) as Hrange. rewrite HN in Hrange.
    split_and!; auto; lia.
Qed.

Lemma exit_code_is_reported_and_returned_witness :
  0 < 4242 /\ WIFEXITED 768 = true /\ WEXITSTATUS 768 = 3 /\
  total (parent (3, 4) (5, 6)) sample_run
    (fun rc s' =>
       rc = 3 /\
       stdio_out s' = blue "Exited with status 3" /\
       0 <= 3 <= 255).
Proof.
  split; [lia|]. split; [reflexivity|]. split; [reflexivity|].
  apply (exit_code_is_reported_and_returned (3, 4) (5, 6)
           [CloseOk; CloseOk] sample_polls sample_reads sample_writes [] []
           4242 768 3); [lia|reflexivity|reflexivity].
Defined.

(** C8 fails on the code.  The only descriptors [parent] ever passes to
    [close] are the two write ends: the calls [close(stdout_pipes[0])] and
    [close(stderr_pipes[0])] stand after an [if] whose every branch
    returns.  A read end, which differs from both write ends, is therefore
    closed zero times by the controlling process, not once. *)
Theorem read_ends_are_never_closed
    (r_out w_out r_err w_err : Z)
    (closes : list close_outcome) (polls : list poll_outcome)
    (reads : list read_outcome) (writes : list write_outcome)
    (waits : list wait_outcome) (indet : list byte) :
  total (parent (r_out, w_out) (r_err, w_err))
    (boot closes polls reads writes waits indet)
    (fun _ s' =>
       Forall (fun fd => fd = w_out \/ fd = w_err) (closed s') /\
       forall fd, fd <> w_out -> fd <> w_err -> fd ∉ closed s').
Proof.
  set (I := fun s : state =>
    buffer_ok (glob s) /\ Forall (fun fd => fd = w_out \/ fd = w_err) (closed s)).
  assert (Hputc : forall (putc : byte -> M Z),
    (forall c s, buffer_ok (glob s) ->
       total (putc c) s (fun _ s' => buffer_ok (glob s') /\ render_frame s s')) ->
    forall c s, I s -> total (putc c) s (fun _ s' => I s' /\ os_poll s' = os_poll s)).
  { intros putc H c s (Hb & Hc). eapply total_weaken; [apply H; exact Hb|].
    intros r s' (Hb' & Hf). unfold I. destruct Hf as (_ & Hp & _ & _ & _ & Hc' & _).
    split_and!; auto. rewrite Hc'. exact Hc. }
  destruct (parent_inv (r_out, w_out) (r_err, w_err) I)
    with (s := boot closes polls reads writes waits indet)
    as (s1 & (Hb1 & Hc1) & Heq); auto.
  - intros fd s Hfd (Hb & Hc). split; [exact Hb|]. simpl.
    apply Forall_app. split; [exact Hc|]. apply Forall_singleton. exact Hfd.
  - apply Hputc. intros c s Hb. eapply total_weaken; [apply stdout_putc_spec; exact Hb|].
    intros r s' (Hb' & Hf & _). auto.
  - apply Hputc. intros c s Hb. eapply total_weaken; [apply stderr_putc_spec|].
    intros r s' (Hl & Hp & Hf & _). split; [|exact Hf].
    destruct Hb as [Hb1 Hb2]. split; congruence.
  - unfold I. split; [apply initial_buffer_ok|]. simpl. apply Forall_nil_2.
  - unfold total at 1. rewrite Heq.
    eapply total_weaken.
    + apply (reap_child_spec s1 (fun s2 => closed s2 = closed s1)).
      eapply total_weaken; [apply flush_stdout_line_spec; exact Hb1|].
      intros r s2 (Hf & _). apply Hf.
    + intros r s' (s2 & Hc2 & _ & _ & Hc'). simpl.
      assert (Hall : Forall (fun fd => fd = w_out \/ fd = w_err) (closed s'))
        by (rewrite Hc', Hc2; exact Hc1).
      split; [exact Hall|].
      intros fd H1 H2 Hin. rewrite Forall_forall in Hall.
      destruct (Hall fd Hin); contradiction.
Qed.

(** C9.  For every sequence of calls of [stdout_putc], whatever the
    operating system does with the writes, every call has a defined result
    and the position stays between 0 and 1024.  A store at an index of
    1024 or more has no defined result ([store_out_of_bounds]), so every
    byte is stored at an index below 1024: when the position has reached
    1024 the buffer is flushed before the byte is appended, and if that
    flush fails the byte is dropped. *)
Theorem stdout_line_never_overflows (cs : list byte) (s : state) :
  buffer_ok (glob s) ->
  total (stdout_puts cs) s (fun _ s' =>
    0 <= stdout_line_pos (glob s') <= 1024 /\
    length (stdout_line (glob s')) = 1024%nat).
Proof.
  revert s. induction cs as [|c cs IH]; intros s Hok; simpl.
  - apply total_ret. destruct Hok as [Hpos Hlen].
    unfold STDOUT_LINE_SIZE in *. split; lia.
  - eapply total_bind; [apply stdout_putc_spec; exact Hok|].
    intros r s1 (Hok1 & _). apply IH. exact Hok1.
Qed.

Lemma stdout_line_never_overflows_witness :
  buffer_ok (glob (boot [] [] [] [WFail 5; WShort 3] [] [])) /\
  total (stdout_puts (replicate 1030 x61 ++ [newline; x62]))
    (boot [] [] [] [WFail 5; WShort 3] [] [])
    (fun _ s' =>
       0 <= stdout_line_pos (glob s') <= 1024 /\
       length (stdout_line (glob s')) = 1024%nat).
Proof.
  assert (H : buffer_ok (glob (boot [] [] [] [WFail 5; WShort 3] [] []))).
  { unfold buffer_ok. simpl. unfold STDOUT_LINE_SIZE. split; [lia|reflexivity]. }
  split; [exact H|].
  apply (stdout_line_never_overflows _ _ H).
Defined.



(** * Further properties of the code *)

(** ** The wrappers of [read] and [write] *)

(** X1.  [write_all_nointr] returns 0 or -1 whatever the operating
    system does with the writes (short counts, interruptions, failures).
    The descriptor receives a prefix of the first [nbyte] bytes of the
    buffer, in order and without repetition, and all of them when the
    result is 0; no other descriptor receives anything and the globals
    are left alone. *)
Theorem write_all_nointr_delivers_a_prefix fd buf nbyte s :
  0 <= nbyte < 2 ^ 31 ->
  total (write_all_nointr fd buf nbyte) s (fun rc s' =>
    (rc = 0 \/ rc = -1) /\ glob s' = glob s /\
    exists k, 0 <= k <= nbyte /\ (rc = 0 -> k = nbyte) /\
      bytes_on fd (sink s') = bytes_on fd (sink s) ++ take (Z.to_nat k) buf /\
      forall fd', fd' <> fd -> bytes_on fd' (sink s') = bytes_on fd' (sink s)).
Proof.
  intros Hn. eapply total_weaken; [apply write_all_nointr_spec; exact Hn|].
  intros rc s' (Hg & _ & _ & Hrc & k & Hk & Hk0 & Hb).
  split_and!; auto. exists k. split_and!; auto; try lia.
  - rewrite Hb, Z.eqb_refl. reflexivity.
  - intros fd' Hfd. rewrite Hb.
    replace (fd =? fd') with false by (symmetry; apply Z.eqb_neq; congruence).
    apply app_nil_r.
Qed.

Lemma write_all_nointr_delivers_a_prefix_witness :
  0 <= 3 < 2 ^ 31 /\
  total (write_all_nointr 1 [x61; x62; x63] 3) sample_short_writes (fun rc s' =>
    (rc = 0 \/ rc = -1) /\ glob s' = glob sample_short_writes /\
    exists k, 0 <= k <= 3 /\ (rc = 0 -> k = 3) /\
      bytes_on 1 (sink s') =
        bytes_on 1 (sink sample_short_writes) ++ take (Z.to_nat k) [x61; x62; x63] /\
      forall fd', fd' <> 1 -> bytes_on fd' (sink s') = bytes_on fd' (sink sample_short_writes)).
Proof.
  split; [lia|].
  apply (write_all_nointr_delivers_a_prefix 1 [x61; x62; x63] 3 sample_short_writes). lia.
Defined.

(** The state in which a retried call is made again: [errno] holds
    [EINTR] if an attempt was interrupted. *)
Lemma read_nointr_skips k : forall fd c s rest,
  os_read s = replicate k (ReadFail EINTR) ++ rest ->
  read_nointr fd c s =
  read_nointr fd c (with_os_read rest (match k with O => s | S _ => with_errno EINTR s end)).
Proof.
  induction k as [|k IH]; intros fd c s rest Hr.
  - simpl in Hr. subst rest. destruct s; reflexivity.
  - simpl in Hr. rewrite (read_nointr_retries fd c s _ Hr).
    rewrite (IH fd c _ rest) by reflexivity. destruct k; reflexivity.
Qed.

(** X2.  [read_nointr] tries an interrupted [read] again, any number of
    times: it returns exactly what the first [read] that is not
    interrupted returns, and consumes no outcome after that one. *)
Theorem read_nointr_returns_the_first_uninterrupted_read fd c s k rest :
  os_read s = replicate k (ReadFail EINTR) ++ rest ->
  head rest <> Some (ReadFail EINTR) ->
  read_nointr fd c s =
  sys_read fd c (with_os_read rest (match k with O => s | S _ => with_errno EINTR s end)).
Proof.
  intros Hr Hrest. rewrite (read_nointr_skips k fd c s rest Hr).
  set (s0 := match k with O => s | S _ => with_errno EINTR s end).
  unfold read_nointr. simpl os_read.
  destruct rest as [|[b| |e] rest']; simpl; try reflexivity.
  unfold bind, sys_read, get_errno, ret. simpl.
  replace (e =? EINTR) with false; [reflexivity|].
  symmetry. apply Z.eqb_neq. intros ->. apply Hrest. reflexivity.
Qed.

Lemma read_nointr_returns_the_first_uninterrupted_read_witness :
  os_read (boot [] [] [ReadFail EINTR; ReadFail EINTR; ReadByte x61; ReadEof] [] [] []) =
    replicate 2 (ReadFail EINTR) ++ [ReadByte x61; ReadEof] /\
  head [ReadByte x61; ReadEof] <> Some (ReadFail EINTR) /\
  read_nointr 3 x00
    (boot [] [] [ReadFail EINTR; ReadFail EINTR; ReadByte x61; ReadEof] [] [] []) =
  sys_read 3 x00
    (with_os_read [ReadByte x61; ReadEof]
       (with_errno EINTR
          (boot [] [] [ReadFail EINTR; ReadFail EINTR; ReadByte x61; ReadEof] [] [] []))).
Proof.
  split; [reflexivity|]. split; [discriminate|].
  apply (read_nointr_returns_the_first_uninterrupted_read 3 x00 _ 2 [ReadByte x61; ReadEof]);
    [reflexivity|discriminate].
Defined.

Lemma write_nointr_skips k : forall fd buf n s rest,
  os_write s = replicate k (WFail EINTR) ++ rest ->
  write_nointr fd buf n s =
  write_nointr fd buf n
    (with_os_write rest (match k with O => s | S _ => with_errno EINTR s end)).
Proof.
  induction k as [|k IH]; intros fd buf n s rest Hw.
  - simpl in Hw. subst rest. destruct s; reflexivity.
  - simpl in Hw. rewrite (write_nointr_retries fd buf n s _ Hw).
    rewrite (IH fd buf n _ rest) by reflexivity. destruct k; reflexivity.
Qed.

(** X3.  [write_nointr] tries an interrupted [write] again, any number
    of times: it returns exactly what the first [write] that is not
    interrupted returns, short counts and other failures included. *)
Theorem write_nointr_returns_the_first_uninterrupted_write fd buf n s k rest :
  0 <= n < 2 ^ 31 ->
  os_write s = replicate k (WFail EINTR) ++ rest ->
  head rest <> Some (WFail EINTR) ->
  write_nointr fd buf n s =
  sys_write fd buf n
    (with_os_write rest (match k with O => s | S _ => with_errno EINTR s end)).
Proof.
  intros Hn Hw Hrest. rewrite (write_nointr_skips k fd buf n s rest Hw).
  set (s0 := match k with O => s | S _ => with_errno EINTR s end).
  assert (Hne : (n =? -1) = false) by (apply Z.eqb_neq; lia).
  unfold write_nointr. simpl os_write.
  destruct rest as [|[|j|e] rest']; simpl;
    unfold bind, sys_write, get_errno, ret; simpl.
  - rewrite to_int_small by lia. rewrite Hne. reflexivity.
  - rewrite to_int_small by lia. rewrite Hne. reflexivity.
  - rewrite to_int_small by lia.
    replace (Z.max 0 (Z.min j n) =? -1) with false by (symmetry; apply Z.eqb_neq; lia).
    reflexivity.
  - replace (e =? EINTR) with false; [reflexivity|].
    symmetry. apply Z.eqb_neq. intros ->. apply Hrest. reflexivity.
Qed.

Lemma write_nointr_returns_the_first_uninterrupted_write_witness :
  0 <= 3 < 2 ^ 31 /\
  os_write (boot [] [] [] [WFail EINTR; WShort 2; WAll] [] []) =
    replicate 1 (WFail EINTR) ++ [WShort 2; WAll] /\
  head [WShort 2; WAll] <> Some (WFail EINTR) /\
  write_nointr 1 [x61; x62; x63] 3 (boot [] [] [] [WFail EINTR; WShort 2; WAll] [] []) =
  sys_write 1 [x61; x62; x63] 3
    (with_os_write [WShort 2; WAll]
       (with_errno EINTR (boot [] [] [] [WFail EINTR; WShort 2; WAll] [] []))).
Proof.
  split; [lia|]. split; [reflexivity|]. split; [discriminate|].
  apply (write_nointr_returns_the_first_uninterrupted_write 1 [x61; x62; x63] 3 _ 1
           [WShort 2; WAll]); [lia|reflexivity|discriminate].
Defined.

(** ** The renderer, whatever the writes do *)

Lemma set_stderr_bytes b s :
  total (set_stderr b) s (fun rc s' =>
    glob s' = mkGlobals b (stdout_line (glob s)) (stdout_line_pos (glob s)) /\
    (rc = 0 \/ rc = -1) /\
    (in_stderr (glob s) = b -> rc = 0 /\ s' = s) /\
    forall fd, fd <> STDERR_FILENO -> bytes_on fd (sink s') = bytes_on fd (sink s)).
Proof.
  unfold set_stderr. apply total_get_glob.
  destruct (Bool.eqb b (in_stderr (glob s))) eqn:Hb.
  - apply Bool.eqb_prop in Hb. subst b. apply total_ret.
    destruct (glob s); split_and!; auto.
  - apply total_put_glob.
    assert (Hne : in_stderr (glob s) <> b).
    { intros <-. rewrite Bool.eqb_reflx in Hb. discriminate. }
    assert (Hm : forall m : list byte, (length m < 10)%nat ->
      total (write_all_nointr STDERR_FILENO m (sizeof_array m))
        (with_glob (mkGlobals b (stdout_line (glob s)) (stdout_line_pos (glob s))) s)
        (fun rc s' =>
           glob s' = mkGlobals b (stdout_line (glob s)) (stdout_line_pos (glob s)) /\
           (rc = 0 \/ rc = -1) /\
           (in_stderr (glob s) = b -> rc = 0 /\ s' = s) /\
           forall fd, fd <> STDERR_FILENO -> bytes_on fd (sink s') = bytes_on fd (sink s))).
    { intros m Hm. eapply total_weaken.
      - apply write_all_nointr_spec. unfold sizeof_array. lia.
      - intros rc s' (Hg & _ & _ & Hrc & k & _ & _ & Hbytes).
        split_and!; auto; [contradiction|].
        intros fd Hfd. rewrite Hbytes.
        replace (STDERR_FILENO =? fd) with false
          by (symmetry; apply Z.eqb_neq; congruence).
        apply app_nil_r. }
    destruct b; apply Hm; simpl; lia.
Qed.

Lemma flush_stdout_line_bytes s :
  buffer_ok (glob s) ->
  total flush_stdout_line s (fun rc s' =>
    in_stderr (glob s') = false /\ stdout_line (glob s') = stdout_line (glob s) /\
    ((rc = 0 /\ stdout_line_pos (glob s') = 0 /\
      bytes_on STDOUT_FILENO (sink s') =
        bytes_on STDOUT_FILENO (sink s) ++
        take (Z.to_nat (stdout_line_pos (glob s))) (stdout_line (glob s))) \/
     (rc = 1 /\ stdout_line_pos (glob s') = stdout_line_pos (glob s) /\
      exists k, 0 <= k <= stdout_line_pos (glob s) /\
        bytes_on STDOUT_FILENO (sink s') =
          bytes_on STDOUT_FILENO (sink s) ++ take (Z.to_nat k) (stdout_line (glob s))))).
Proof.
  intros [Hpos Hlen]. unfold flush_stdout_line.
  eapply total_bind; [apply set_stderr_bytes|].
  intros r s1 (Hg1 & Hr & _ & Hb1).
  specialize (Hb1 STDOUT_FILENO ltac:(discriminate)).
  destruct Hr as [-> | ->].
  - rewrite nonzero_0. apply total_get_glob.
    eapply total_bind.
    + apply write_all_nointr_spec. rewrite Hg1. simpl. unfold STDOUT_LINE_SIZE in Hpos. lia.
    + intros r s2 (Hg2 & _ & _ & Hr & k & Hk & Hk0 & Hb2).
      specialize (Hb2 STDOUT_FILENO). rewrite Z.eqb_refl, Hb1 in Hb2.
      rewrite Hg1 in Hb2, Hk, Hk0. simpl in Hb2, Hk, Hk0.
      destruct Hr as [-> | ->].
      * rewrite nonzero_0. apply total_get_glob, total_put_glob, total_ret.
        simpl. rewrite Hg2, Hg1. simpl. split_and!; auto.
        left. rewrite Hb2, (Hk0 eq_refl). auto.
      * rewrite nonzero_m1. apply total_ret. rewrite Hg2, Hg1. simpl.
        split_and!; auto. right. split_and!; auto. exists k. auto.
  - rewrite nonzero_m1. apply total_ret. rewrite Hg1. simpl. split_and!; auto.
    right. split_and!; auto. exists 0. rewrite Hb1, app_nil_r. split; [lia|reflexivity].
Qed.

(** X4.  Whatever the operating system does with the writes, a flush
    leaves the renderer in plain mode and the array as it was.  When it
    returns 0 the buffer is empty and the standard output has received
    exactly the buffered bytes; when it returns 1 the position is kept,
    although a prefix of the buffer may have been written. *)
Theorem flush_stdout_line_writes_the_buffer s :
  buffer_ok (glob s) ->
  total flush_stdout_line s (fun rc s' =>
    in_stderr (glob s') = false /\ stdout_line (glob s') = stdout_line (glob s) /\
    ((rc = 0 /\ stdout_line_pos (glob s') = 0 /\
      bytes_on STDOUT_FILENO (sink s') =
        bytes_on STDOUT_FILENO (sink s) ++
        take (Z.to_nat (stdout_line_pos (glob s))) (stdout_line (glob s))) \/
     (rc = 1 /\ stdout_line_pos (glob s') = stdout_line_pos (glob s) /\
      exists k, 0 <= k <= stdout_line_pos (glob s) /\
        bytes_on STDOUT_FILENO (sink s') =
          bytes_on STDOUT_FILENO (sink s) ++ take (Z.to_nat k) (stdout_line (glob s))))).
Proof. exact (flush_stdout_line_bytes s). Qed.

Lemma flush_stdout_line_writes_the_buffer_witness :
  buffer_ok (glob pending_line) /\
  total flush_stdout_line pending_line (fun rc s' =>
    in_stderr (glob s') = false /\
    stdout_line (glob s') = stdout_line (glob pending_line) /\
    ((rc = 0 /\ stdout_line_pos (glob s') = 0 /\
      bytes_on STDOUT_FILENO (sink s') =
        bytes_on STDOUT_FILENO (sink pending_line) ++
        take (Z.to_nat (stdout_line_pos (glob pending_line)))
          (stdout_line (glob pending_line))) \/
     (rc = 1 /\
      stdout_line_pos (glob s') = stdout_line_pos (glob pending_line) /\
      exists k, 0 <= k <= stdout_line_pos (glob pending_line) /\
        bytes_on STDOUT_FILENO (sink s') =
          bytes_on STDOUT_FILENO (sink pending_line) ++
          take (Z.to_nat k) (stdout_line (glob pending_line))))) /\
  buffer_ok (glob pending_line_failing) /\
  total flush_stdout_line pending_line_failing (fun rc s' =>
    in_stderr (glob s') = false /\
    stdout_line (glob s') = stdout_line (glob pending_line_failing) /\
    ((rc = 0 /\ stdout_line_pos (glob s') = 0 /\
      bytes_on STDOUT_FILENO (sink s') =
        bytes_on STDOUT_FILENO (sink pending_line_failing) ++
        take (Z.to_nat (stdout_line_pos (glob pending_line_failing)))
          (stdout_line (glob pending_line_failing))) \/
     (rc = 1 /\
      stdout_line_pos (glob s') = stdout_line_pos (glob pending_line_failing) /\
      exists k, 0 <= k <= stdout_line_pos (glob pending_line_failing) /\
        bytes_on STDOUT_FILENO (sink s') =
          bytes_on STDOUT_FILENO (sink pending_line_failing) ++
          take (Z.to_nat k) (stdout_line (glob pending_line_failing))))).
Proof.
  assert (H1 : buffer_ok (glob pending_line)).
  { unfold buffer_ok. simpl. unfold STDOUT_LINE_SIZE. split; [lia|reflexivity]. }
  assert (H2 : buffer_ok (glob pending_line_failing)).
  { unfold buffer_ok. simpl. unfold STDOUT_LINE_SIZE. split; [lia|reflexivity]. }
  split; [exact H1|].
  split; [apply (flush_stdout_line_writes_the_buffer pending_line H1)|].
  split; [exact H2|].
  apply (flush_stdout_line_writes_the_buffer pending_line_failing H2).
Defined.

(** X5.  A flush in plain mode with an empty buffer does nothing at all:
    no [write] is made, so no outcome of the operating system is
    consumed, and the result is 0. *)
Theorem flush_of_an_empty_buffer_does_nothing s :
  in_stderr (glob s) = false -> stdout_line_pos (glob s) = 0 ->
  flush_stdout_line s = Some (0, s).
Proof.
  intros Hmode Hpos.
  destruct s as [[m l p] e cl po rd wr wa ind sk cd so se]. simpl in *. subst.
  reflexivity.
Qed.

Lemma flush_of_an_empty_buffer_does_nothing_witness :
  in_stderr (glob write_failure_run) = false /\
  stdout_line_pos (glob write_failure_run) = 0 /\
  flush_stdout_line write_failure_run = Some (0, write_failure_run).
Proof.
  split; [reflexivity|]. split; [reflexivity|].
  apply (flush_of_an_empty_buffer_does_nothing write_failure_run); reflexivity.
Defined.

(** X6.  [set_stderr] records the new mode before it writes the marker:
    the mode is the requested one afterwards even when the write fails.
    The line buffer is left alone and only the standard error is written
    to; when the mode is already the requested one nothing happens. *)
Theorem set_stderr_switches_before_it_writes b s :
  total (set_stderr b) s (fun rc s' =>
    in_stderr (glob s') = b /\
    stdout_line (glob s') = stdout_line (glob s) /\
    stdout_line_pos (glob s') = stdout_line_pos (glob s) /\
    (rc = 0 \/ rc = -1) /\
    (in_stderr (glob s) = b -> rc = 0 /\ s' = s) /\
    forall fd, fd <> STDERR_FILENO -> bytes_on fd (sink s') = bytes_on fd (sink s)).
Proof.
  eapply total_weaken; [apply set_stderr_bytes|].
  intros rc s' (Hg & Hrc & Hsame & Hb). rewrite Hg. simpl. split_and!; auto.
Qed.

(** X7.  On a well-behaved standard error a stderr byte is written at
    once, as a write of its own, after the begin marker if the renderer
    was in plain mode; the line buffer of the standard output is not
    touched. *)
Theorem stderr_putc_writes_at_once c s :
  accept_all (os_write s) = true ->
  total (stderr_putc c) s (fun rc s' =>
    rc = 0 /\ in_stderr (glob s') = true /\
    stdout_line (glob s') = stdout_line (glob s) /\
    stdout_line_pos (glob s') = stdout_line_pos (glob s) /\
    sink s' = sink s ++
      (if in_stderr (glob s) then [] else [(STDERR_FILENO, STDERR_BEGIN_MARKER)]) ++
      [(STDERR_FILENO, [c])]).
Proof.
  intros Hacc. eapply total_weaken; [apply stderr_putc_accept; exact Hacc|].
  intros rc s' (-> & Hg & _ & _ & Hs). rewrite Hg. simpl. split_and!; auto.
Qed.

Lemma stderr_putc_writes_at_once_witness :
  accept_all (os_write plain_renderer) = true /\
  total (stderr_putc x65) plain_renderer (fun rc s' =>
    rc = 0 /\ in_stderr (glob s') = true /\
    stdout_line (glob s') = stdout_line (glob plain_renderer) /\
    stdout_line_pos (glob s') = stdout_line_pos (glob plain_renderer) /\
    sink s' = sink plain_renderer ++
      (if in_stderr (glob plain_renderer) then []
       else [(STDERR_FILENO, STDERR_BEGIN_MARKER)]) ++
      [(STDERR_FILENO, [x65])]) /\
  accept_all (os_write highlighted_renderer) = true /\
  total (stderr_putc x65) highlighted_renderer (fun rc s' =>
    rc = 0 /\ in_stderr (glob s') = true /\
    stdout_line (glob s') = stdout_line (glob highlighted_renderer) /\
    stdout_line_pos (glob s') = stdout_line_pos (glob highlighted_renderer) /\
    sink s' = sink highlighted_renderer ++
      (if in_stderr (glob highlighted_renderer) then []
       else [(STDERR_FILENO, STDERR_BEGIN_MARKER)]) ++
      [(STDERR_FILENO, [x65])]).
Proof.
  split; [reflexivity|].
  split; [apply (stderr_putc_writes_at_once x65 plain_renderer); reflexivity|].
  split; [reflexivity|].
  apply (stderr_putc_writes_at_once x65 highlighted_renderer). reflexivity.
Defined.

(** ** Lines and full buffers *)

Lemma stdout_puts_app a b s :
  stdout_puts (a ++ b) s = bind (stdout_puts a) (fun _ => stdout_puts b) s.
Proof.
  revert s. induction a as [|c a IH]; intros s; [reflexivity|].
  simpl. unfold bind. destruct (stdout_putc c s) as [[r s1]|]; [|reflexivity].
  rewrite IH. reflexivity.
Qed.

(** Bytes other than the newline that fit in the buffer are stored and
    nothing else happens. *)
Lemma stdout_puts_buffers bs : forall s,
  Forall (fun b => b <> newline) bs ->
  0 <= stdout_line_pos (glob s) ->
  stdout_line_pos (glob s) + Z.of_nat (length bs) <= STDOUT_LINE_SIZE ->
  Z.of_nat (length (stdout_line (glob s))) = STDOUT_LINE_SIZE ->
  exists s',
    stdout_puts bs s = Some (tt, s') /\
    sink s' = sink s /\ os_write s' = os_write s /\
    in_stderr (glob s') = in_stderr (glob s) /\
    stdout_line_pos (glob s') = stdout_line_pos (glob s) + Z.of_nat (length bs) /\
    Z.of_nat (length (stdout_line (glob s'))) = STDOUT_LINE_SIZE /\
    take (Z.to_nat (stdout_line_pos (glob s'))) (stdout_line (glob s')) =
    take (Z.to_nat (stdout_line_pos (glob s))) (stdout_line (glob s)) ++ bs.
Proof.
  induction bs as [|b bs IH]; intros s Hnl Hpos Hfit Hlen.
  - exists s. simpl. rewrite Z.add_0_r, app_nil_r. split_and!; auto.
  - apply Forall_cons in Hnl as [Hb Hnl].
    change (length (b :: bs)) with (S (length bs)) in *.
    simpl stdout_puts. unfold bind.
    rewrite stdout_putc_buffers by (auto; lia).
    destruct (IH (stored b s)) as (s' & Hrun & Hs & Hw & Hm & Hp & Hl & Ht);
      simpl; auto; try lia.
    { rewrite length_insert. exact Hlen. }
    exists s'. simpl in *. split_and!; auto; try lia.
    rewrite Ht.
    replace (Z.to_nat (stdout_line_pos (glob s) + 1))
      with (S (Z.to_nat (stdout_line_pos (glob s)))) by lia.
    rewrite take_store by lia. rewrite <- app_assoc. reflexivity.
Qed.

(** The newline, put into a buffer that is not full on a well-behaved
    descriptor: the line goes out as one block. *)
Lemma stdout_putc_newline s :
  accept_all (os_write s) = true ->
  0 <= stdout_line_pos (glob s) < STDOUT_LINE_SIZE ->
  Z.of_nat (length (stdout_line (glob s))) = STDOUT_LINE_SIZE ->
  total (stdout_putc newline) s (fun rc s' =>
    rc = 0 /\ stdout_line_pos (glob s') = 0 /\ in_stderr (glob s') = false /\
    accept_all (os_write s') = true /\
    sink s' = sink s ++
      (if in_stderr (glob s) then [(STDERR_FILENO, STDERR_END_MARKER)] else []) ++
      [(STDOUT_FILENO,
        take (Z.to_nat (stdout_line_pos (glob s))) (stdout_line (glob s)) ++ [newline])]).
Proof.
  intros Hacc Hpos Hlen. unfold stdout_putc. apply total_get_glob.
  replace (STDOUT_LINE_SIZE <=? stdout_line_pos (glob s)) with false
    by (symmetry; apply Z.leb_gt; lia).
  eapply total_bind with (R := fun r s0 => r = 0 /\ s0 = s);
    [apply total_ret; split; reflexivity|].
  intros r s0 [-> ->]. rewrite nonzero_0.
  eapply total_bind with (R := fun _ s2 => s2 = stored newline s).
  { unfold total. rewrite store_stdout_line_eq by (auto; lia). reflexivity. }
  intros r s2 ->. change (Byte.eqb newline newline) with true. cbv beta iota.
  eapply total_bind.
  { apply flush_stdout_line_accept; [exact Hacc|].
    split; simpl; [lia|]. rewrite length_insert. exact Hlen. }
  intros r' s3 (-> & Hg & Hacc' & _ & Hs). rewrite nonzero_0. apply total_ret.
  rewrite Hg, Hs. simpl.
  replace (0 <? stdout_line_pos (glob s) + 1) with true by (symmetry; apply Z.ltb_lt; lia).
  replace (Z.to_nat (stdout_line_pos (glob s) + 1))
    with (S (Z.to_nat (stdout_line_pos (glob s)))) by lia.
  rewrite take_store by lia. split_and!; auto.
Qed.

(** X8.  Line buffering: a line shorter than the buffer, handed to the
    renderer byte by byte from an empty buffer, is written to the
    standard output as one block, newline included, when its newline
    arrives (after the end marker if the renderer was in highlighted
    mode); the buffer is empty again afterwards. *)
Theorem a_line_is_written_as_one_block bs s :
  accept_all (os_write s) = true -> buffer_ok (glob s) ->
  stdout_line_pos (glob s) = 0 ->
  no_newline bs = true -> Z.of_nat (length bs) < STDOUT_LINE_SIZE ->
  total (stdout_puts (bs ++ [newline])) s (fun _ s' =>
    sink s' = sink s ++
      (if in_stderr (glob s) then [(STDERR_FILENO, STDERR_END_MARKER)] else []) ++
      [(STDOUT_FILENO, bs ++ [newline])] /\
    stdout_line_pos (glob s') = 0 /\ in_stderr (glob s') = false).
Proof.
  intros Hacc [_ Hlen] Hpos Hnl Hfit.
  destruct (stdout_puts_buffers bs s) as (s1 & Hrun & Hs & Hw & Hm & Hp & Hl & Ht);
    auto using no_newline_Forall; try lia.
  unfold total. rewrite stdout_puts_app. unfold bind at 1. rewrite Hrun.
  simpl stdout_puts. unfold bind at 1.
  pose proof (stdout_putc_newline s1) as Hput. unfold total in Hput.
  destruct (stdout_putc newline s1) as [[rc s2]|].
  - destruct Hput as (_ & Hp2 & Hm2 & _ & Hs2); try congruence; try lia.
    simpl. rewrite Hs2, Hs, Hm, Ht, Hpos. simpl. auto.
  - apply Hput; try congruence; lia.
Qed.

Lemma a_line_is_written_as_one_block_witness :
  accept_all (os_write sample_run) = true /\ buffer_ok (glob sample_run) /\
  stdout_line_pos (glob sample_run) = 0 /\
  no_newline [x68; x69] = true /\ Z.of_nat (length [x68; x69]) < STDOUT_LINE_SIZE /\
  total (stdout_puts ([x68; x69] ++ [newline])) sample_run (fun _ s' =>
    sink s' = sink sample_run ++
      (if in_stderr (glob sample_run) then [(STDERR_FILENO, STDERR_END_MARKER)] else []) ++
      [(STDOUT_FILENO, [x68; x69] ++ [newline])] /\
    stdout_line_pos (glob s') = 0 /\ in_stderr (glob s') = false).
Proof.
  assert (H : buffer_ok (glob sample_run)).
  { unfold buffer_ok. simpl. split; [|reflexivity]. unfold STDOUT_LINE_SIZE. lia. }
  split; [reflexivity|]. split; [exact H|]. split; [reflexivity|].
  split; [reflexivity|]. split; [reflexivity|].
  apply (a_line_is_written_as_one_block [x68; x69] sample_run);
    [reflexivity|exact H|reflexivity|reflexivity|reflexivity].
Defined.

(** X9.  A byte other than the newline that arrives at a full buffer,
    whatever the operating system does with the writes: either the
    flush succeeds, the standard output has received the 1024 buffered
    bytes and the new byte is the first of the buffer; or the flush
    fails, the result is 1, and the new byte is dropped with the buffer
    kept as it was. *)
Theorem stdout_putc_on_a_full_buffer c s :
  buffer_ok (glob s) -> stdout_line_pos (glob s) = STDOUT_LINE_SIZE ->
  c <> newline ->
  total (stdout_putc c) s (fun rc s' =>
    in_stderr (glob s') = false /\
    ((rc = 0 /\ stdout_line_pos (glob s') = 1 /\
      stdout_line (glob s') = <[0%nat := c]> (stdout_line (glob s)) /\
      bytes_on STDOUT_FILENO (sink s') =
        bytes_on STDOUT_FILENO (sink s) ++ stdout_line (glob s)) \/
     (rc = 1 /\ stdout_line_pos (glob s') = STDOUT_LINE_SIZE /\
      stdout_line (glob s') = stdout_line (glob s)))).
Proof.
  intros Hok Hfull Hc. unfold stdout_putc. apply total_get_glob.
  rewrite Hfull, Z.leb_refl.
  eapply total_bind; [apply flush_stdout_line_bytes; exact Hok|].
  intros r s1 (Hm1 & Hl1 & Hr). destruct Hok as [_ Hlen].
  destruct Hr as [(-> & Hp1 & Hb1)|(-> & Hp1 & _)].
  - rewrite nonzero_0.
    eapply total_bind with (R := fun _ s2 => s2 = stored c s1).
    { unfold total. rewrite store_stdout_line_eq; rewrite ?Hp1, ?Hl1; auto.
      rewrite Hlen. unfold STDOUT_LINE_SIZE. lia. }
    intros r s2 ->.
    replace (Byte.eqb c newline) with false.
    + apply total_ret. simpl. rewrite Hp1, Hl1, Hb1, Hfull. split; [exact Hm1|].
      left. split_and!; auto. f_equal. apply take_ge. lia.
    + symmetry. apply not_true_is_false. intros H. apply Hc.
      apply Byte.byte_dec_bl. exact H.
  - change (nonzero 1) with true. apply total_ret. split; [exact Hm1|].
    right. split_and!; auto. congruence.
Qed.

Lemma stdout_putc_on_a_full_buffer_witness :
  buffer_ok (glob full_buffer) /\ stdout_line_pos (glob full_buffer) = STDOUT_LINE_SIZE /\
  x62 <> newline /\
  total (stdout_putc x62) full_buffer (fun rc s' =>
    in_stderr (glob s') = false /\
    ((rc = 0 /\ stdout_line_pos (glob s') = 1 /\
      stdout_line (glob s') = <[0%nat := x62]> (stdout_line (glob full_buffer)) /\
      bytes_on STDOUT_FILENO (sink s') =
        bytes_on STDOUT_FILENO (sink full_buffer) ++ stdout_line (glob full_buffer)) \/
     (rc = 1 /\ stdout_line_pos (glob s') = STDOUT_LINE_SIZE /\
      stdout_line (glob s') = stdout_line (glob full_buffer)))).
Proof.
  assert (H : buffer_ok (glob full_buffer)).
  { unfold buffer_ok. simpl. unfold STDOUT_LINE_SIZE. split; [lia|reflexivity]. }
  split; [exact H|]. split; [reflexivity|]. split; [discriminate|].
  apply (stdout_putc_on_a_full_buffer x62 full_buffer H); [reflexivity|discriminate].
Defined.

(** ** The ways out of the loop *)

(** X10.  A [poll] that reports an error condition ([POLLERR] or
    [POLLNVAL]) on either pipe ends the loop at once: the message is
    printed and no pipe is read, even if the same [poll] reports data. *)
Theorem stream_error_ends_the_loop_unread fd_out fd_err s r0 r1 polls :
  os_poll s = PollReady r0 r1 :: polls ->
  has_event r0 (Z.lor POLLERR POLLNVAL) || has_event r1 (Z.lor POLLERR POLLNVAL) = true ->
  multiplex fd_out fd_err s =
  Some (tt, with_stdio_err (stdio_err s ++ [Fprintf ("stream error" ++ LF)])
              (with_os_poll polls s)).
Proof.
  intros Hp Herr. unfold multiplex. rewrite Hp. simpl.
  unfold bind at 1, sys_poll. rewrite Hp. cbv beta iota.
  change (1 =? -1) with false. cbv beta iota. rewrite Herr. reflexivity.
Qed.

Lemma stream_error_ends_the_loop_unread_witness :
  os_poll (boot [] [PollReady (Z.lor POLLIN POLLERR) POLLIN] [ReadByte x61] [] [] []) =
    PollReady (Z.lor POLLIN POLLERR) POLLIN :: [] /\
  has_event (Z.lor POLLIN POLLERR) (Z.lor POLLERR POLLNVAL)
    || has_event POLLIN (Z.lor POLLERR POLLNVAL) = true /\
  multiplex 3 5 (boot [] [PollReady (Z.lor POLLIN POLLERR) POLLIN] [ReadByte x61] [] [] []) =
  Some (tt, with_stdio_err
              (stdio_err (boot [] [PollReady (Z.lor POLLIN POLLERR) POLLIN]
                            [ReadByte x61] [] [] [])
                 ++ [Fprintf ("stream error" ++ LF)])
              (with_os_poll []
                 (boot [] [PollReady (Z.lor POLLIN POLLERR) POLLIN] [ReadByte x61] [] [] []))).
Proof.
  split; [reflexivity|]. split; [reflexivity|].
  apply (stream_error_ends_the_loop_unread 3 5 _ (Z.lor POLLIN POLLERR) POLLIN []);
    reflexivity.
Defined.

(** X11.  A [read] on the stdout pipe that fails (other than by an
    interruption) ends the loop before the stderr pipe is looked at:
    one outcome of [read] is consumed, the failure is reported with
    [perror], and nothing is rendered. *)
Theorem read_failure_ends_the_loop fd_out fd_err s r0 r1 polls e reads :
  os_poll s = PollReady r0 r1 :: polls ->
  has_event r0 (Z.lor POLLERR POLLNVAL) || has_event r1 (Z.lor POLLERR POLLNVAL) = false ->
  has_event r0 (Z.lor POLLIN POLLPRI) = true ->
  os_read s = ReadFail e :: reads -> e <> EINTR ->
  total (multiplex fd_out fd_err) s (fun _ s' =>
    os_poll s' = polls /\ os_read s' = reads /\
    glob s' = glob s /\ sink s' = sink s /\
    stdio_err s' = stdio_err s ++ [Perror "read() from stdout pipe" e]).
Proof.
  intros Hp Herr Hin Hr He. unfold total, multiplex. rewrite Hp.
  change (length (PollReady r0 r1 :: polls)) with (S (length polls)).
  remember (S (length polls)) as fuel eqn:Hfuel. simpl.
  unfold bind at 1, sys_poll. rewrite Hp. cbv beta iota.
  change (1 =? -1) with false. cbv beta iota. rewrite Herr, Hin.
  unfold bind at 1, service. unfold bind at 1, indeterminate.
  assert (Hread : forall c s0, os_read s0 = ReadFail e :: reads ->
            read_nointr fd_out c s0 = Some ((-1, c), with_errno e (with_os_read reads s0))).
  { intros c s0 Hr0. unfold read_nointr. rewrite Hr0. simpl.
    unfold bind, sys_read, get_errno, ret. rewrite Hr0. simpl.
    replace (e =? EINTR) with false by (symmetry; apply Z.eqb_neq; exact He).
    reflexivity. }
  cbn [os_indet with_os_poll].
  destruct (os_indet s) as [|c indet] eqn:Hi; cbv beta iota;
    unfold bind at 1; rewrite Hread by exact Hr; simpl; auto.
Qed.

Lemma read_failure_ends_the_loop_witness :
  os_poll (boot [] [PollReady POLLIN POLLIN] [ReadFail 5; ReadByte x65] [] [] []) =
    PollReady POLLIN POLLIN :: [] /\
  has_event POLLIN (Z.lor POLLERR POLLNVAL) || has_event POLLIN (Z.lor POLLERR POLLNVAL)
    = false /\
  has_event POLLIN (Z.lor POLLIN POLLPRI) = true /\
  os_read (boot [] [PollReady POLLIN POLLIN] [ReadFail 5; ReadByte x65] [] [] []) =
    ReadFail 5 :: [ReadByte x65] /\
  5 <> EINTR /\
  total (multiplex 3 5)
    (boot [] [PollReady POLLIN POLLIN] [ReadFail 5; ReadByte x65] [] [] [])
    (fun _ s' =>
       os_poll s' = [] /\ os_read s' = [ReadByte x65] /\
       glob s' = glob (boot [] [PollReady POLLIN POLLIN] [ReadFail 5; ReadByte x65] [] [] []) /\
       sink s' = sink (boot [] [PollReady POLLIN POLLIN] [ReadFail 5; ReadByte x65] [] [] []) /\
       stdio_err s' =
         stdio_err (boot [] [PollReady POLLIN POLLIN] [ReadFail 5; ReadByte x65] [] [] [])
           ++ [Perror "read() from stdout pipe" 5]).
Proof.
  split; [reflexivity|]. split; [reflexivity|]. split; [reflexivity|].
  split; [reflexivity|]. split; [discriminate|].
  apply (read_failure_ends_the_loop 3 5 _ POLLIN POLLIN [] 5 [ReadByte x65]);
    [reflexivity|reflexivity|reflexivity|reflexivity|discriminate].
Defined.

(** X12.  When one [poll] finds a newline on the stdout pipe and a byte
    on the stderr pipe, stdout is served first: on well-behaved
    descriptors the line that the newline completes is written to the
    standard output before the begin marker and the stderr byte are
    written to the standard error, and the loop goes on. *)
Theorem stdout_is_served_before_stderr fuel fd_out fd_err s r0 r1 polls e reads :
  os_poll s = PollReady r0 r1 :: polls ->
  has_event r0 (Z.lor POLLERR POLLNVAL) || has_event r1 (Z.lor POLLERR POLLNVAL) = false ->
  has_event r0 (Z.lor POLLIN POLLPRI) = true ->
  has_event r1 (Z.lor POLLIN POLLPRI) = true ->
  os_read s = ReadByte newline :: ReadByte e :: reads ->
  accept_all (os_write s) = true ->
  0 <= stdout_line_pos (glob s) < STDOUT_LINE_SIZE ->
  Z.of_nat (length (stdout_line (glob s))) = STDOUT_LINE_SIZE ->
  exists s',
    multiplex_loop (S fuel) fd_out fd_err s = multiplex_loop fuel fd_out fd_err s' /\
    os_poll s' = polls /\ os_read s' = reads /\
    sink s' = sink s ++
      (if in_stderr (glob s) then [(STDERR_FILENO, STDERR_END_MARKER)] else []) ++
      [(STDOUT_FILENO,
        take (Z.to_nat (stdout_line_pos (glob s))) (stdout_line (glob s)) ++ [newline]);
       (STDERR_FILENO, STDERR_BEGIN_MARKER); (STDERR_FILENO, [e])].
Proof.
  intros Hp Herr Hin0 Hin1 Hr Hacc Hpos Hlen. simpl.
  unfold bind at 1, sys_poll. rewrite Hp. cbv beta iota.
  change (1 =? -1) with false. cbv beta iota. rewrite Herr, Hin0, Hin1.
  set (s0 := with_os_poll polls s).
  unfold bind at 1.
  rewrite (service_byte fd_out _ stdout_putc newline (ReadByte e :: reads) s0 Hr).
  set (s1 := with_os_read (ReadByte e :: reads) _).
  pose proof (stdout_putc_newline s1 Hacc Hpos Hlen) as Hput.
  apply total_some in Hput as (rc & s2 & Hrun & _ & Hp2 & Hm2 & Hacc2 & Hs2).
  pose proof (stdout_putc_spec newline s1) as Hfr.
  unfold total in Hfr. rewrite Hrun in Hfr.
  destruct Hfr as (_ & (_ & Hpoll2 & Hread2 & _) & _).
  { split; [subst s1 s0; simpl; lia|exact Hlen]. }
  unfold bind at 1. rewrite Hrun. unfold ret at 1. cbv beta iota.
  unfold bind at 1.
  rewrite (service_byte fd_err _ stderr_putc e reads s2)
    by (rewrite Hread2; reflexivity).
  set (s3 := with_os_read reads _).
  pose proof (stderr_putc_accept e s3 Hacc2) as Hput3.
  apply total_some in Hput3 as (rc3 & s4 & Hrun3 & _ & _ & _ & Hf4 & Hs4).
  unfold bind at 1. rewrite Hrun3. unfold ret at 1. cbv beta iota.
  exists s4. split; [reflexivity|].
  destruct Hf4 as (_ & Hpoll4 & Hread4 & _).
  split_and!.
  - rewrite Hpoll4. subst s3. simpl. rewrite Hpoll2. reflexivity.
  - rewrite Hread4. reflexivity.
  - rewrite Hs4. subst s3. simpl. rewrite Hm2, Hs2. subst s1 s0. simpl.
    rewrite <- !app_assoc. reflexivity.
Qed.

Lemma stdout_is_served_before_stderr_witness :
  os_poll (boot [] [PollReady POLLIN POLLIN] [ReadByte newline; ReadByte x65] [] [] []) =
    PollReady POLLIN POLLIN :: [] /\
  has_event POLLIN (Z.lor POLLERR POLLNVAL) || has_event POLLIN (Z.lor POLLERR POLLNVAL)
    = false /\
  has_event POLLIN (Z.lor POLLIN POLLPRI) = true /\
  has_event POLLIN (Z.lor POLLIN POLLPRI) = true /\
  os_read (boot [] [PollReady POLLIN POLLIN] [ReadByte newline; ReadByte x65] [] [] []) =
    ReadByte newline :: ReadByte x65 :: [] /\
  accept_all
    (os_write (boot [] [PollReady POLLIN POLLIN] [ReadByte newline; ReadByte x65] [] [] []))
    = true /\
  0 <= stdout_line_pos
         (glob (boot [] [PollReady POLLIN POLLIN] [ReadByte newline; ReadByte x65] [] [] []))
    < STDOUT_LINE_SIZE /\
  Z.of_nat (length (stdout_line
    (glob (boot [] [PollReady POLLIN POLLIN] [ReadByte newline; ReadByte x65] [] [] []))))
    = STDOUT_LINE_SIZE /\
  exists s',
    multiplex_loop 2 3 5
      (boot [] [PollReady POLLIN POLLIN] [ReadByte newline; ReadByte x65] [] [] []) =
    multiplex_loop 1 3 5 s' /\
    os_poll s' = [] /\ os_read s' = [] /\
    sink s' =
      sink (boot [] [PollReady POLLIN POLLIN] [ReadByte newline; ReadByte x65] [] [] []) ++
      (if in_stderr
            (glob (boot [] [PollReady POLLIN POLLIN] [ReadByte newline; ReadByte x65]
                     [] [] []))
       then [(STDERR_FILENO, STDERR_END_MARKER)] else []) ++
      [(STDOUT_FILENO,
        take (Z.to_nat (stdout_line_pos
                (glob (boot [] [PollReady POLLIN POLLIN] [ReadByte newline; ReadByte x65]
                         [] [] []))))
          (stdout_line
             (glob (boot [] [PollReady POLLIN POLLIN] [ReadByte newline; ReadByte x65]
                      [] [] []))) ++ [newline]);
       (STDERR_FILENO, STDERR_BEGIN_MARKER); (STDERR_FILENO, [x65])].
Proof.
  assert (Hpos : 0 <= stdout_line_pos
            (glob (boot [] [PollReady POLLIN POLLIN] [ReadByte newline; ReadByte x65]
                     [] [] [])) < STDOUT_LINE_SIZE)
    by (simpl; unfold STDOUT_LINE_SIZE; lia).
  split; [reflexivity|]. split; [reflexivity|]. split; [reflexivity|].
  split; [reflexivity|]. split; [reflexivity|]. split; [reflexivity|].
  split; [exact Hpos|]. split; [reflexivity|].
  apply (stdout_is_served_before_stderr 1 3 5 _ POLLIN POLLIN [] x65 []);
    [reflexivity|reflexivity|reflexivity|reflexivity|reflexivity|reflexivity
    |exact Hpos|reflexivity].
Defined.

(** X13.  The loop ends, without reading and without a message, as
    soon as a [poll] reports neither data nor an error condition on
    either pipe, as when both have only hung up. *)
Theorem loop_ends_when_no_pipe_has_data fd_out fd_err s r0 r1 polls :
  os_poll s = PollReady r0 r1 :: polls ->
  has_event r0 (Z.lor POLLERR POLLNVAL) || has_event r1 (Z.lor POLLERR POLLNVAL) = false ->
  has_event r0 (Z.lor POLLIN POLLPRI) = false ->
  has_event r1 (Z.lor POLLIN POLLPRI) = false ->
  multiplex fd_out fd_err s = Some (tt, with_os_poll polls s).
Proof.
  intros Hp Herr Hin0 Hin1. unfold multiplex. rewrite Hp.
  change (length (PollReady r0 r1 :: polls)) with (S (length polls)).
  remember (S (length polls)) as fuel eqn:Hfuel. simpl.
  unfold bind at 1, sys_poll. rewrite Hp. cbv beta iota.
  change (1 =? -1) with false. cbv beta iota. rewrite Herr, Hin0, Hin1.
  reflexivity.
Qed.

Lemma loop_ends_when_no_pipe_has_data_witness :
  os_poll (boot [] [PollReady POLLHUP POLLHUP; PollReady POLLIN 0] [ReadByte x61] [] [] []) =
    PollReady POLLHUP POLLHUP :: [PollReady POLLIN 0] /\
  has_event POLLHUP (Z.lor POLLERR POLLNVAL) || has_event POLLHUP (Z.lor POLLERR POLLNVAL)
    = false /\
  has_event POLLHUP (Z.lor POLLIN POLLPRI) = false /\
  has_event POLLHUP (Z.lor POLLIN POLLPRI) = false /\
  multiplex 3 5
    (boot [] [PollReady POLLHUP POLLHUP; PollReady POLLIN 0] [ReadByte x61] [] [] []) =
  Some (tt, with_os_poll [PollReady POLLIN 0]
              (boot [] [PollReady POLLHUP POLLHUP; PollReady POLLIN 0]
                 [ReadByte x61] [] [] [])).
Proof.
  split; [reflexivity|]. split; [reflexivity|]. split; [reflexivity|].
  split; [reflexivity|].
  apply (loop_ends_when_no_pipe_has_data 3 5 _ POLLHUP POLLHUP [PollReady POLLIN 0]);
    reflexivity.
Defined.

(** ** The reaper *)

(** Whatever happens before, [parent] ends with [wait] and the report,
    which find the script of [wait] and the printf output untouched, the
    buffer in bounds and the renderer in plain mode. *)
Lemma parent_reaches_wait stdout_pipes stderr_pipes s :
  buffer_ok (glob s) ->
  exists s2,
    parent stdout_pipes stderr_pipes s = wait_and_report s2 /\
    os_wait s2 = os_wait s /\ stdio_out s2 = stdio_out s /\
    in_stderr (glob s2) = false.
Proof.
  intros Hok.
  set (I := fun s0 : state =>
    buffer_ok (glob s0) /\ os_wait s0 = os_wait s /\ stdio_out s0 = stdio_out s).
  assert (Hputc : forall (putc : byte -> M Z),
    (forall c s0, buffer_ok (glob s0) ->
       total (putc c) s0 (fun _ s' => buffer_ok (glob s') /\ render_frame s0 s')) ->
    forall c s0, I s0 -> total (putc c) s0 (fun _ s' => I s' /\ os_poll s' = os_poll s0)).
  { intros putc H c s0 (Hb & Hw & Ho). eapply total_weaken; [apply H; exact Hb|].
    intros r s' (Hb' & Hf). unfold I. destruct Hf as (_ & Hp & _ & Hw' & _ & _ & Ho').
    split_and!; auto; congruence. }
  destruct (parent_inv stdout_pipes stderr_pipes I) with (s := s)
    as (s1 & (Hb1 & Hw1 & Ho1) & Heq); auto.
  - apply Hputc. intros c s0 Hb. eapply total_weaken; [apply stdout_putc_spec; exact Hb|].
    intros r s' (Hb' & Hf & _). auto.
  - apply Hputc. intros c s0 Hb. eapply total_weaken; [apply stderr_putc_spec|].
    intros r s' (Hl & Hp & Hf & _). split; [|exact Hf].
    destruct Hb as [Hb1 Hb2]. split; congruence.
  - unfold I. auto.
  - pose proof (flush_stdout_line_spec s1 Hb1) as Hfl.
    rewrite Heq. unfold reap_child, bind. unfold total in Hfl.
    destruct (flush_stdout_line s1) as [[r s2]|]; [|contradiction].
    destruct Hfl as ((_ & _ & _ & Hw2 & _ & _ & Ho2) & _ & Hm & _).
    exists s2. split_and!; auto; congruence.
Qed.

Lemma wait_and_report_range s :
  total wait_and_report s (fun rc _ => 0 <= rc <= 255).
Proof.
  unfold total, wait_and_report, bind, sys_wait, perror, printf, fprintf_stderr, ret.
  assert (H1 : 0 <= EXIT_FAILURE <= 255) by (unfold EXIT_FAILURE; lia).
  destruct (os_wait s) as [|[pid status|e] rest]; simpl; auto.
  destruct (pid =? -1); simpl; auto.
  destruct (WIFEXITED status); simpl; [apply WEXITSTATUS_range|].
  destruct (WIFSIGNALED status); simpl; auto.
  destruct (get_signal_name (WTERMSIG status)); simpl; auto.
Qed.

(** X14.  A child that was killed by a signal: whatever happened during
    multiplexing, [parent] prints the line Killed by signal N, followed
    by the name of the signal in parentheses when [get_signal_name] knows
    one, and returns [EXIT_FAILURE]. *)
Theorem killed_child_is_reported stdout_pipes stderr_pipes s pid status waits :
  buffer_ok (glob s) ->
  os_wait s = WaitPid pid status :: waits -> 0 < pid ->
  WIFEXITED status = false -> WIFSIGNALED status = true ->
  total (parent stdout_pipes stderr_pipes) s (fun rc s' =>
    rc = EXIT_FAILURE /\
    stdio_out s' =
      (stdio_out s ++
       match get_signal_name (WTERMSIG status) with
       | Some signal_name =>
           blue ("Killed by signal " ++ decimal (WTERMSIG status)
                   ++ " (" ++ signal_name ++ ")")
       | None => blue ("Killed by signal " ++ decimal (WTERMSIG status))
       end)%string).
Proof.
  intros Hok Hw Hpid Hex Hsig.
  destruct (parent_reaches_wait stdout_pipes stderr_pipes s Hok)
    as (s2 & Heq & Hw2 & Ho2 & _).
  unfold total. rewrite Heq.
  unfold wait_and_report, bind, sys_wait, printf, ret. rewrite Hw2, Hw. simpl.
  replace (pid =? -1) with false by (symmetry; apply Z.eqb_neq; lia).
  rewrite Hex, Hsig.
  destruct (get_signal_name (WTERMSIG status)); simpl; rewrite Ho2; auto.
Qed.

Lemma killed_child_is_reported_witness :
  buffer_ok (glob (boot [] [] [] [] [WaitPid 4242 9] [])) /\
  os_wait (boot [] [] [] [] [WaitPid 4242 9] []) = WaitPid 4242 9 :: [] /\ 0 < 4242 /\
  WIFEXITED 9 = false /\ WIFSIGNALED 9 = true /\
  total (parent (3, 4) (5, 6)) (boot [] [] [] [] [WaitPid 4242 9] []) (fun rc s' =>
    rc = EXIT_FAILURE /\
    stdio_out s' =
      (stdio_out (boot [] [] [] [] [WaitPid 4242 9] []) ++
       match get_signal_name (WTERMSIG 9) with
       | Some signal_name =>
           blue ("Killed by signal " ++ decimal (WTERMSIG 9)
                   ++ " (" ++ signal_name ++ ")")
       | None => blue ("Killed by signal " ++ decimal (WTERMSIG 9))
       end)%string).
Proof.
  split; [apply initial_buffer_ok|]. split; [reflexivity|]. split; [lia|].
  split; [reflexivity|]. split; [reflexivity|].
  apply (killed_child_is_reported (3, 4) (5, 6) _ 4242 9 []);
    [apply initial_buffer_ok|reflexivity|lia|reflexivity|reflexivity].
Defined.

(** X15.  A status that is neither a normal exit nor a death by signal:
    [parent] returns [EXIT_FAILURE], prints nothing with printf and
    reports the status and the pid on its error stream. *)
Theorem unknown_status_is_a_failure stdout_pipes stderr_pipes s pid status waits :
  buffer_ok (glob s) ->
  os_wait s = WaitPid pid status :: waits -> 0 < pid ->
  WIFEXITED status = false -> WIFSIGNALED status = false ->
  total (parent stdout_pipes stderr_pipes) s (fun rc s' =>
    rc = EXIT_FAILURE /\ stdio_out s' = stdio_out s /\
    exists before,
      stdio_err s' =
      before ++ [Fprintf (blue ("Unknown status " ++ decimal status
                                  ++ " returned from wait() for pid " ++ decimal pid))]).
Proof.
  intros Hok Hw Hpid Hex Hsig.
  destruct (parent_reaches_wait stdout_pipes stderr_pipes s Hok)
    as (s2 & Heq & Hw2 & Ho2 & _).
  unfold total. rewrite Heq.
  unfold wait_and_report, bind, sys_wait, fprintf_stderr, ret. rewrite Hw2, Hw. simpl.
  replace (pid =? -1) with false by (symmetry; apply Z.eqb_neq; lia).
  rewrite Hex, Hsig. simpl. split_and!; auto. exists (stdio_err s2). reflexivity.
Qed.

Lemma unknown_status_is_a_failure_witness :
  buffer_ok (glob (boot [] [] [] [] [WaitPid 4242 127] [])) /\
  os_wait (boot [] [] [] [] [WaitPid 4242 127] []) = WaitPid 4242 127 :: [] /\ 0 < 4242 /\
  WIFEXITED 127 = false /\ WIFSIGNALED 127 = false /\
  total (parent (3, 4) (5, 6)) (boot [] [] [] [] [WaitPid 4242 127] []) (fun rc s' =>
    rc = EXIT_FAILURE /\
    stdio_out s' = stdio_out (boot [] [] [] [] [WaitPid 4242 127] []) /\
    exists before,
      stdio_err s' =
      before ++ [Fprintf (blue ("Unknown status " ++ decimal 127
                                  ++ " returned from wait() for pid " ++ decimal 4242))]).
Proof.
  split; [apply initial_buffer_ok|]. split; [reflexivity|]. split; [lia|].
  split; [reflexivity|]. split; [reflexivity|].
  apply (unknown_status_is_a_failure (3, 4) (5, 6) _ 4242 127 []);
    [apply initial_buffer_ok|reflexivity|lia|reflexivity|reflexivity].
Defined.

(** X16.  When [wait] fails, whatever happened during multiplexing,
    [parent] returns [EXIT_FAILURE], reports the failure with [perror]
    and prints no summary line. *)
Theorem failed_wait_is_a_failure stdout_pipes stderr_pipes s e waits :
  buffer_ok (glob s) -> os_wait s = WaitFail e :: waits ->
  total (parent stdout_pipes stderr_pipes) s (fun rc s' =>
    rc = EXIT_FAILURE /\ stdio_out s' = stdio_out s /\
    exists before, stdio_err s' = before ++ [Perror "wait()" e]).
Proof.
  intros Hok Hw.
  destruct (parent_reaches_wait stdout_pipes stderr_pipes s Hok)
    as (s2 & Heq & Hw2 & Ho2 & _).
  unfold total. rewrite Heq.
  unfold wait_and_report, bind, sys_wait, perror, ret. rewrite Hw2, Hw. simpl.
  split_and!; auto. exists (stdio_err s2). reflexivity.
Qed.

Lemma failed_wait_is_a_failure_witness :
  buffer_ok (glob interrupted_run) /\
  os_wait interrupted_run = WaitFail EINTR :: [WaitPid 4242 0] /\
  total (parent (3, 4) (5, 6)) interrupted_run (fun rc s' =>
    rc = EXIT_FAILURE /\ stdio_out s' = stdio_out interrupted_run /\
    exists before, stdio_err s' = before ++ [Perror "wait()" EINTR]).
Proof.
  split; [apply initial_buffer_ok|]. split; [reflexivity|].
  apply (failed_wait_is_a_failure (3, 4) (5, 6) interrupted_run EINTR [WaitPid 4242 0]);
    [apply initial_buffer_ok|reflexivity].
Defined.

(** X17.  [parent] always returns, and what it returns is a value from
    0 to 255: the exit code of the child or [EXIT_FAILURE]. *)
Theorem parent_returns_an_exit_code stdout_pipes stderr_pipes s :
  buffer_ok (glob s) ->
  total (parent stdout_pipes stderr_pipes) s (fun rc _ => 0 <= rc <= 255).
Proof.
  intros Hok.
  destruct (parent_reaches_wait stdout_pipes stderr_pipes s Hok) as (s2 & Heq & _).
  unfold total. rewrite Heq. apply wait_and_report_range.
Qed.

Lemma parent_returns_an_exit_code_witness :
  buffer_ok (glob sample_run) /\
  total (parent (3, 4) (5, 6)) sample_run (fun rc _ => 0 <= rc <= 255).
Proof.
  split; [apply initial_buffer_ok|].
  apply (parent_returns_an_exit_code (3, 4) (5, 6) sample_run). apply initial_buffer_ok.
Defined.

Lemma reap_child_frame s :
  buffer_ok (glob s) ->
  total reap_child s (fun _ s' =>
    os_close s' = os_close s /\ os_poll s' = os_poll s /\ os_read s' = os_read s /\
    os_indet s' = os_indet s /\ closed s' = closed s /\ os_wait s' = tl (os_wait s)).
Proof.
  intros Hok. unfold reap_child.
  eapply total_bind; [apply flush_stdout_line_spec; exact Hok|].
  intros r s1 ((Hc & Hp & Hr & Hw & Hi & Hcl & _) & _).
  unfold total, wait_and_report, bind, sys_wait, perror, printf, fprintf_stderr, ret.
  rewrite <- Hc, <- Hp, <- Hr, <- Hw, <- Hi, <- Hcl.
  destruct (os_wait s1) as [|[pid status|e] rest] eqn:Hws; simpl;
    [rewrite Hws; tauto| |tauto].
  destruct (pid =? -1); simpl; [tauto|].
  destruct (WIFEXITED status); simpl; [tauto|].
  destruct (WIFSIGNALED status); simpl; [|tauto].
  destruct (get_signal_name (WTERMSIG status)); simpl; tauto.
Qed.

(** X18.  When closing either write end fails, [parent] skips the loop:
    it polls nothing and reads nothing, closes nothing further, and goes
    on to wait for the child. *)
Theorem close_failure_skips_the_loop r_out w_out r_err w_err s e rest :
  buffer_ok (glob s) ->
  os_close s = CloseFail e :: rest \/ os_close s = CloseOk :: CloseFail e :: rest ->
  total (parent (r_out, w_out) (r_err, w_err)) s (fun _ s' =>
    os_poll s' = os_poll s /\ os_read s' = os_read s /\ os_indet s' = os_indet s /\
    os_close s' = rest /\ os_wait s' = tl (os_wait s) /\
    (closed s' = closed s ++ [w_out] \/ closed s' = closed s ++ [w_out; w_err])).
Proof.
  intros Hok [Hc|Hc]; unfold parent, total.
  - unfold bind at 1, sys_close. rewrite Hc. cbn [fst snd].
    change (-1 =? -1) with true. cbv beta iota. unfold bind at 1, perror.
    match goal with |- context [reap_child ?s1] =>
      pose proof (reap_child_frame s1 Hok) as H; unfold total in H;
      destruct (reap_child s1) as [[rc s']|]; [|contradiction] end.
    simpl in H. destruct H as (? & ? & ? & ? & ? & ?). split_and!; auto.
  - unfold bind at 1, sys_close. rewrite Hc. cbn [fst snd].
    change (0 =? -1) with false. cbv beta iota.
    unfold bind at 1, sys_close. cbn [os_close with_os_close with_closed].
    change (-1 =? -1) with true. cbv beta iota. unfold bind at 1, perror.
    match goal with |- context [reap_child ?s1] =>
      pose proof (reap_child_frame s1 Hok) as H; unfold total in H;
      destruct (reap_child s1) as [[rc s']|]; [|contradiction] end.
    simpl in H. destruct H as (? & ? & ? & ? & ? & ?). split_and!; auto.
    right. rewrite <- app_assoc in *. assumption.
Qed.

Lemma close_failure_skips_the_loop_witness :
  buffer_ok (glob (boot [CloseFail 5] [PollReady POLLIN 0] [ReadByte x61] [] [] [])) /\
  (os_close (boot [CloseFail 5] [PollReady POLLIN 0] [ReadByte x61] [] [] []) =
     CloseFail 5 :: [] \/
   os_close (boot [CloseFail 5] [PollReady POLLIN 0] [ReadByte x61] [] [] []) =
     CloseOk :: CloseFail 5 :: []) /\
  total (parent (3, 4) (5, 6))
    (boot [CloseFail 5] [PollReady POLLIN 0] [ReadByte x61] [] [] [])
    (fun _ s' =>
       os_poll s' = os_poll (boot [CloseFail 5] [PollReady POLLIN 0] [ReadByte x61] [] [] []) /\
       os_read s' = os_read (boot [CloseFail 5] [PollReady POLLIN 0] [ReadByte x61] [] [] []) /\
       os_indet s' = os_indet (boot [CloseFail 5] [PollReady POLLIN 0] [ReadByte x61] [] [] []) /\
       os_close s' = [] /\
       os_wait s' = tl (os_wait (boot [CloseFail 5] [PollReady POLLIN 0] [ReadByte x61] [] [] [])) /\
       (closed s' =
          closed (boot [CloseFail 5] [PollReady POLLIN 0] [ReadByte x61] [] [] []) ++ [4] \/
        closed s' =
          closed (boot [CloseFail 5] [PollReady POLLIN 0] [ReadByte x61] [] [] []) ++ [4; 6])).
Proof.
  split; [apply initial_buffer_ok|]. split; [left; reflexivity|].
  apply (close_failure_skips_the_loop 3 4 5 6 _ 5 []);
    [apply initial_buffer_ok|left; reflexivity].
Defined.

(** ** The names of the signals *)

Ltac signal_cases H :=
  unfold get_signal_name, signal_table in H; simpl in H;
  repeat match type of H with
         | (if ?n =? ?k then _ else _) = _ =>
             let E := fresh "E" in
             destruct (n =? k) eqn:E;
             [apply Z.eqb_eq in E; injection H as H|]
         end.

Ltac other_signal H :=
  unfold get_signal_name, signal_table in H; simpl in H;
  repeat match type of H with
         | (if ?n =? ?k then _ else _) = _ =>
             let E := fresh "E" in
             destruct (n =? k) eqn:E;
             [first [discriminate H | apply Z.eqb_eq in E; exact E]|]
         end;
  discriminate H.

(** X19.  [get_signal_name] knows a name only for a signal number from
    1 to 31; every name it returns starts with SIG, and it returns no
    name for two different numbers. *)
Theorem get_signal_name_is_sound signal name :
  get_signal_name signal = Some name ->
  1 <= signal <= 31 /\ String.prefix "SIG" name = true /\
  forall other, get_signal_name other = Some name -> other = signal.
Proof.
  intros H. signal_cases H; try discriminate; subst signal name;
    (split; [lia|]); (split; [reflexivity|]);
    intros other H'; other_signal H'.
Qed.

Lemma get_signal_name_is_sound_witness :
  get_signal_name 15 = Some "SIGTERM"%string /\
  1 <= 15 <= 31 /\ String.prefix "SIG" "SIGTERM" = true /\
  forall other, get_signal_name other = Some "SIGTERM"%string -> other = 15.
Proof.
  split; [reflexivity|].
  apply (get_signal_name_is_sound 15 "SIGTERM"). reflexivity.
Defined.

(** * The launcher *)

Lemma ptotal_bind {A B} (m : PM A) (k : A -> PM B) p (R : A -> process -> Prop) Q :
  ptotal m p R ->
  (forall a p', R a p' -> ptotal (k a) p' Q) ->
  ptotal (pbind m k) p Q.
Proof.
  unfold ptotal, pbind. destruct (m p) as [[a p']|]; [|tauto].
  intros HR Hk. exact (Hk a p' HR).
Qed.

Lemma ptotal_lift {A} (m : M A) p (Q : A -> process -> Prop) :
  total m (proc p) (fun a s' => Q a (mkProcess s' (fds p))) ->
  ptotal (lift m) p Q.
Proof.
  unfold ptotal, total, lift. destruct (m (proc p)) as [[a s']|]; auto.
Qed.

(** ** [main] *)

(** X20.  Called with the program name alone, [main] prints the usage
    line with that name on the error stream and exits with status 2; no
    pipe is created and nothing else is done. *)
Theorem main_without_a_command_is_usage env prog p :
  main env [prog] p =
  Some (Exit 2,
        mkProcess
          (with_stdio_err
             (stdio_err (proc p) ++ [Fprintf ("usage: " ++ prog ++ " <command>..." ++ LF)])
             (proc p))
          (fds p)).
Proof. reflexivity. Qed.

(** X21.  When the first [pipe], the second [pipe] or the [fork] fails,
    [main] reports that call with [perror] and exits with
    [EXIT_FAILURE]: nothing was closed, polled, read, written or waited
    for, and no command was executed. *)
Theorem main_gives_up_when_the_launch_fails env argv p e msg :
  (2 <= length argv)%nat ->
  (launch_pipe_out env = PipeFail e /\ msg = "pipe(stdout_pipe)"%string) \/
  (launch_pipe_err env = PipeFail e /\ msg = "pipe(stderr_pipe)"%string /\
   exists r w, launch_pipe_out env = PipeOk r w) \/
  (launch_fork env = ForkFail e /\ msg = "fork()"%string /\
   (exists r w, launch_pipe_out env = PipeOk r w) /\
   (exists r w, launch_pipe_err env = PipeOk r w)) ->
  ptotal (main env argv) p (fun ending p' =>
    ending = Exit EXIT_FAILURE /\
    proc p' = with_stdio_err (stdio_err (proc p) ++ [Perror msg e])
                (with_errno e (proc p))).
Proof.
  intros Hargv H. unfold ptotal, main.
  replace (Z.of_nat (length argv) <=? 1) with false by (symmetry; apply Z.leb_gt; lia).
  destruct H as [(H1 & ->)|[(H2 & -> & r & w & H1)|(H3 & -> & (r & w & H1) & (r' & w' & H2))]];
    unfold pbind at 1, sys_pipe; rewrite H1; cbn; auto;
    unfold pbind at 1, sys_pipe; rewrite H2; cbn; auto;
    unfold pbind at 1, sys_fork; rewrite H3; cbn; auto.
Qed.

Lemma main_gives_up_when_the_launch_fails_witness :
  (2 <= length sample_argv)%nat /\
  ((launch_pipe_out launch_no_pipe = PipeFail 23 /\
    "pipe(stderr_pipe)"%string = "pipe(stdout_pipe)"%string) \/
   (launch_pipe_err launch_no_pipe = PipeFail 23 /\
    "pipe(stderr_pipe)"%string = "pipe(stderr_pipe)"%string /\
    exists r w, launch_pipe_out launch_no_pipe = PipeOk r w) \/
   (launch_fork launch_no_pipe = ForkFail 23 /\
    "pipe(stderr_pipe)"%string = "fork()"%string /\
    (exists r w, launch_pipe_out launch_no_pipe = PipeOk r w) /\
    (exists r w, launch_pipe_err launch_no_pipe = PipeOk r w))) /\
  ptotal (main launch_no_pipe sample_argv)
    (mkProcess (boot [] [] [] [] [] []) standard_fds)
    (fun ending p' =>
       ending = Exit EXIT_FAILURE /\
       proc p' = with_stdio_err
                   (stdio_err (boot [] [] [] [] [] []) ++ [Perror "pipe(stderr_pipe)" 23])
                   (with_errno 23 (boot [] [] [] [] [] []))).
Proof.
  assert (H : launch_pipe_err launch_no_pipe = PipeFail 23 /\
              "pipe(stderr_pipe)"%string = "pipe(stderr_pipe)"%string /\
              exists r w, launch_pipe_out launch_no_pipe = PipeOk r w).
  { split; [reflexivity|]. split; [reflexivity|]. exists 3, 4. reflexivity. }
  split; [simpl; lia|]. split; [right; left; exact H|].
  apply (main_gives_up_when_the_launch_fails launch_no_pipe sample_argv
           (mkProcess (boot [] [] [] [] [] []) standard_fds) 23 "pipe(stderr_pipe)");
    [simpl; lia|right; left; exact H].
Defined.

(** X22.  In the controlling process, when both pipes are made, the
    fork succeeds and the command then exits normally with code N,
    [main] returns N after printing the line Exited with status N,
    whatever happened during multiplexing; N is between 0 and 255. *)
Theorem main_returns_the_exit_code_of_the_command
    env argv p r_out w_out r_err w_err pid status waits :
  (2 <= length argv)%nat ->
  launch_pipe_out env = PipeOk r_out w_out ->
  launch_pipe_err env = PipeOk r_err w_err ->
  launch_fork env = ForkParent pid -> 0 < pid ->
  buffer_ok (glob (proc p)) ->
  os_wait (proc p) = WaitPid pid status :: waits ->
  WIFEXITED status = true ->
  ptotal (main env argv) p (fun ending p' =>
    ending = Exit (WEXITSTATUS status) /\
    0 <= WEXITSTATUS status <= 255 /\
    stdio_out (proc p') =
      (stdio_out (proc p) ++
       blue ("Exited with status " ++ decimal (WEXITSTATUS status)))%string).
Proof.
  intros Hargv H1 H2 H3 Hpid Hok Hw Hex. unfold ptotal, main.
  replace (Z.of_nat (length argv) <=? 1) with false by (symmetry; apply Z.leb_gt; lia).
  unfold pbind at 1, sys_pipe. rewrite H1. cbn.
  unfold pbind at 1, sys_pipe. rewrite H2. cbn.
  unfold pbind at 1, sys_fork. rewrite H3. cbn.
  replace (pid =? -1) with false by (symmetry; apply Z.eqb_neq; lia).
  replace (pid =? 0) with false by (symmetry; apply Z.eqb_neq; lia).
  unfold pbind, lift, pret. cbn.
  destruct (parent_reaches_wait (r_out, w_out) (r_err, w_err) (proc p) Hok)
    as (s2 & Heq & Hw2 & Ho2 & _).
  rewrite Heq.
  rewrite (wait_and_report_exited s2 pid status waits) by (try congruence; lia).
  cbn. rewrite Ho2. split_and!; auto; apply WEXITSTATUS_range.
Qed.

Lemma main_returns_the_exit_code_of_the_command_witness :
  (2 <= length sample_argv)%nat /\
  launch_pipe_out launch_parent = PipeOk 3 4 /\
  launch_pipe_err launch_parent = PipeOk 5 6 /\
  launch_fork launch_parent = ForkParent 4242 /\ 0 < 4242 /\
  buffer_ok (glob (proc (mkProcess sample_run standard_fds))) /\
  os_wait (proc (mkProcess sample_run standard_fds)) = WaitPid 4242 768 :: [] /\
  WIFEXITED 768 = true /\
  ptotal (main launch_parent sample_argv) (mkProcess sample_run standard_fds)
    (fun ending p' =>
       ending = Exit (WEXITSTATUS 768) /\
       0 <= WEXITSTATUS 768 <= 255 /\
       stdio_out (proc p') =
         (stdio_out (proc (mkProcess sample_run standard_fds)) ++
          blue ("Exited with status " ++ decimal (WEXITSTATUS 768)))%string).
Proof.
  split; [simpl; lia|]. split; [reflexivity|]. split; [reflexivity|].
  split; [reflexivity|]. split; [lia|]. split; [apply initial_buffer_ok|].
  split; [reflexivity|]. split; [reflexivity|].
  apply (main_returns_the_exit_code_of_the_command launch_parent sample_argv
           (mkProcess sample_run standard_fds) 3 4 5 6 4242 768 []);
    [simpl; lia|reflexivity|reflexivity|reflexivity|lia|apply initial_buffer_ok
    |reflexivity|reflexivity].
Defined.

(** X23.  Outside the child, [main] never turns into another program:
    whatever the operating system does, the process that called [main]
    with at least the program name exits, with the status 2 of the usage
    message, [EXIT_FAILURE], or the exit code of the command, a value
    from 0 to 255 in every case. *)
Theorem main_exits_with_a_status_byte env argv p :
  argv <> [] -> buffer_ok (glob (proc p)) ->
  launch_fork env <> ForkChild -> launch_fork env <> ForkParent 0 ->
  ptotal (main env argv) p (fun ending _ =>
    exists code, ending = Exit code /\ 0 <= code <= 255).
Proof.
  intros Hargv Hok Hnc Hn0. unfold ptotal, main.
  assert (H1 : exists code, Exit EXIT_FAILURE = Exit code /\ 0 <= code <= 255)
    by (exists EXIT_FAILURE; unfold EXIT_FAILURE; split; [reflexivity|lia]).
  destruct (Z.of_nat (length argv) <=? 1) eqn:Hargc.
  { destruct argv as [|prog argv]; [contradiction|]. cbn.
    exists 2. split; [reflexivity|lia]. }
  unfold pbind at 1, sys_pipe.
  destruct (launch_pipe_out env) as [r_out w_out|e]; cbn; auto.
  unfold pbind at 1, sys_pipe.
  destruct (launch_pipe_err env) as [r_err w_err|e]; cbn; auto.
  unfold pbind at 1, sys_fork.
  destruct (launch_fork env) as [|pid|e]; [contradiction| |cbn; auto].
  cbv beta iota. destruct (pid =? -1) eqn:Hm1; [cbn; auto|].
  replace (pid =? 0) with false
    by (symmetry; apply Z.eqb_neq; intros ->; apply Hn0; reflexivity).
  unfold pbind, lift, pret. cbn.
  pose proof (parent_reaches_wait (r_out, w_out) (r_err, w_err) (proc p) Hok)
    as (s2 & Heq & _).
  rewrite Heq. pose proof (wait_and_report_range s2) as Hr. unfold total in Hr.
  destruct (wait_and_report s2) as [[rc s3]|]; [|contradiction].
  exists rc. auto.
Qed.

Lemma main_exits_with_a_status_byte_witness :
  sample_argv <> [] /\ buffer_ok (glob (proc (mkProcess sample_run standard_fds))) /\
  launch_fork launch_parent <> ForkChild /\ launch_fork launch_parent <> ForkParent 0 /\
  ptotal (main launch_parent sample_argv) (mkProcess sample_run standard_fds)
    (fun ending _ => exists code, ending = Exit code /\ 0 <= code <= 255).
Proof.
  split; [discriminate|]. split; [apply initial_buffer_ok|].
  split; [discriminate|]. split; [discriminate|].
  apply (main_exits_with_a_status_byte launch_parent sample_argv
           (mkProcess sample_run standard_fds));
    [discriminate|apply initial_buffer_ok|discriminate|discriminate].
Defined.

(** ** [child] *)

Lemma close_fd_ok fd p f :
  fds p !! fd = Some f -> closes_succeed (proc p) ->
  exists s',
    close_fd fd p = Some (0, mkProcess s' (delete fd (fds p))) /\
    closes_succeed s' /\ stdio_err s' = stdio_err (proc p).
Proof.
  intros Hfd Hcl. unfold close_fd, sys_close, closes_succeed in *. rewrite Hfd.
  destruct (os_close (proc p)) as [|o rest] eqn:Ho.
  - eexists. split; [reflexivity|]. simpl. rewrite Ho. auto.
  - apply Forall_cons in Hcl as [-> Hcl].
    eexists. split; [reflexivity|]. simpl. auto.
Qed.

Lemma sys_dup2_ok fildes fildes2 p f :
  fds p !! fildes = Some f ->
  sys_dup2 CallOk fildes fildes2 p =
  Some (fildes2, mkProcess (proc p) (<[fildes2 := f]> (fds p))).
Proof. intros Hfd. unfold sys_dup2. rewrite Hfd. reflexivity. Qed.

(** The setup of the child on four distinct pipe descriptors above the
    standard ones. *)
Lemma child_setup
    env prog path args p r_out w_out r_err w_err f_out f_err :
  NoDup [r_out; w_out; r_err; w_err; STDOUT_FILENO; STDERR_FILENO] ->
  is_Some (fds p !! r_out) -> is_Some (fds p !! r_err) ->
  fds p !! w_out = Some f_out -> fds p !! w_err = Some f_err ->
  closes_succeed (proc p) ->
  launch_dup2_out env = CallOk -> launch_dup2_err env = CallOk ->
  ptotal (child env (prog :: path :: args) (r_out, w_out) (r_err, w_err)) p
    (fun ending p' =>
       fds p' !! STDOUT_FILENO = Some f_out /\
       fds p' !! STDERR_FILENO = Some f_err /\
       (forall fd, fd ∈ [r_out; w_out; r_err; w_err] -> fds p' !! fd = None) /\
       (forall fd, fd ∉ [r_out; w_out; r_err; w_err; STDOUT_FILENO; STDERR_FILENO] ->
                   fds p' !! fd = fds p !! fd) /\
       match launch_execvp env with
       | CallOk => ending = Exec path (path :: args)
       | CallFail e =>
           ending = Exit (-1) /\
           stdio_err (proc p') = stdio_err (proc p) ++ [Perror "Failed to execute" e]
       end).
Proof.
  intros Hnd [f1 Hr_out] [f2 Hr_err] Hw_out Hw_err Hcl Hd1 Hd2.
  repeat (apply NoDup_cons in Hnd as [? Hnd]).
  repeat match goal with H : _ ∉ _ :: _ |- _ => apply not_elem_of_cons in H as [? H] end.
  unfold ptotal, child. cbn [fst snd].
  destruct (close_fd_ok r_out p f1) as (s1 & Hrun1 & Hcl1 & He1); auto.
  unfold pbind at 1. rewrite Hrun1. change (0 =? -1) with false. cbv beta iota.
  clear Hrun1.
  destruct (close_fd_ok r_err (mkProcess s1 (delete r_out (fds p))) f2)
    as (s2 & Hrun2 & Hcl2 & He2); auto.
  { simpl. rewrite lookup_delete_ne by congruence. exact Hr_err. }
  unfold pbind at 1. rewrite Hrun2. change (0 =? -1) with false. cbv beta iota.
  simpl in Hcl2, He2, Hrun2 |- *. clear Hrun2.
  unfold pbind at 1. rewrite Hd1.
  rewrite (sys_dup2_ok w_out STDOUT_FILENO _ f_out)
    by (simpl; rewrite !lookup_delete_ne by congruence; exact Hw_out).
  change (STDOUT_FILENO =? -1) with false. cbv beta iota. simpl proc. simpl fds.
  unfold pbind at 1.
  match goal with |- context [close_fd w_out ?q] =>
    destruct (close_fd_ok w_out q f_out) as (s3 & Hrun3 & Hcl3 & He3); auto;
    [simpl; rewrite lookup_insert_ne by congruence;
     rewrite !lookup_delete_ne by congruence; exact Hw_out|] end.
  rewrite Hrun3. change (0 =? -1) with false. cbv beta iota.
  simpl in Hcl3, He3 |- *. clear Hrun3.
  unfold pbind at 1. rewrite Hd2.
  rewrite (sys_dup2_ok w_err STDERR_FILENO _ f_err)
    by (simpl; rewrite lookup_delete_ne by congruence;
        rewrite lookup_insert_ne by congruence;
        rewrite !lookup_delete_ne by congruence; exact Hw_err).
  change (STDERR_FILENO =? -1) with false. cbv beta iota. simpl proc. simpl fds.
  unfold pbind at 1.
  match goal with |- context [close_fd w_err ?q] =>
    destruct (close_fd_ok w_err q f_err) as (s4 & Hrun4 & Hcl4 & He4); auto;
    [simpl; rewrite lookup_insert_ne by congruence;
     rewrite lookup_delete_ne by congruence;
     rewrite lookup_insert_ne by congruence;
     rewrite !lookup_delete_ne by congruence; exact Hw_err|] end.
  rewrite Hrun4. change (0 =? -1) with false. cbv beta iota.
  simpl in Hcl4, He4 |- *. clear Hrun4.
  assert (Htable :
    let t := delete w_err (<[STDERR_FILENO := f_err]>
               (delete w_out (<[STDOUT_FILENO := f_out]>
                  (delete r_err (delete r_out (fds p)))))) in
    t !! STDOUT_FILENO = Some f_out /\ t !! STDERR_FILENO = Some f_err /\
    (forall fd, fd ∈ [r_out; w_out; r_err; w_err] -> t !! fd = None) /\
    (forall fd, fd ∉ [r_out; w_out; r_err; w_err; STDOUT_FILENO; STDERR_FILENO] ->
                t !! fd = fds p !! fd)).
  { cbv zeta. split_and!.
    - rewrite lookup_delete_ne, lookup_insert_ne, lookup_delete_ne by congruence.
      apply lookup_insert_eq.
    - rewrite lookup_delete_ne by congruence. apply lookup_insert_eq.
    - intros fd Hfd. rewrite !elem_of_cons in Hfd.
      destruct Hfd as [->|[->|[->|[->|Hfd]]]]; [| | | |inversion Hfd].
      + rewrite lookup_delete_ne, lookup_insert_ne, lookup_delete_ne,
          lookup_insert_ne, lookup_delete_ne by congruence.
        apply lookup_delete_eq.
      + rewrite lookup_delete_ne, lookup_insert_ne by congruence.
        apply lookup_delete_eq.
      + rewrite lookup_delete_ne, lookup_insert_ne, lookup_delete_ne,
          lookup_insert_ne by congruence.
        apply lookup_delete_eq.
      + apply lookup_delete_eq.
    - intros fd Hfd. rewrite !not_elem_of_cons in Hfd.
      destruct Hfd as (? & ? & ? & ? & ? & ? & _).
      rewrite lookup_delete_ne, lookup_insert_ne, lookup_delete_ne,
        lookup_insert_ne, !lookup_delete_ne by congruence.
      reflexivity. }
  cbv zeta in Htable. destruct Htable as (Ht1 & Ht2 & Ht3 & Ht4).
  unfold pbind, sys_execvp, lift, perror, pret.
  destruct (launch_execvp env) as [|e]; simpl; split_and!; auto.
  congruence.
Qed.

(** X24.  When the four pipe descriptors are open, differ from each
    other and from the descriptors 1 and 2, and the calls of the setup
    succeed, the child reaches [execvp] with descriptor 1 referring to
    the write end of the stdout pipe and descriptor 2 to that of the
    stderr pipe, with none of the four pipe descriptors left open and
    every other descriptor as it was.  It then becomes the command
    [argv[1]] with the arguments from [argv[1]] on, or, if [execvp]
    fails, reports Failed to execute and returns -1. *)
Theorem child_binds_the_pipes_and_executes
    env prog path args p r_out w_out r_err w_err f_out f_err :
  NoDup [r_out; w_out; r_err; w_err; STDOUT_FILENO; STDERR_FILENO] ->
  is_Some (fds p !! r_out) -> is_Some (fds p !! r_err) ->
  fds p !! w_out = Some f_out -> fds p !! w_err = Some f_err ->
  closes_succeed (proc p) ->
  launch_dup2_out env = CallOk -> launch_dup2_err env = CallOk ->
  ptotal (child env (prog :: path :: args) (r_out, w_out) (r_err, w_err)) p
    (fun ending p' =>
       fds p' !! STDOUT_FILENO = Some f_out /\
       fds p' !! STDERR_FILENO = Some f_err /\
       (forall fd, fd ∈ [r_out; w_out; r_err; w_err] -> fds p' !! fd = None) /\
       (forall fd, fd ∉ [r_out; w_out; r_err; w_err; STDOUT_FILENO; STDERR_FILENO] ->
                   fds p' !! fd = fds p !! fd) /\
       match launch_execvp env with
       | CallOk => ending = Exec path (path :: args)
       | CallFail e =>
           ending = Exit (-1) /\
           stdio_err (proc p') = stdio_err (proc p) ++ [Perror "Failed to execute" e]
       end).
Proof.
  intros Hnd Hr_out Hr_err Hw_out Hw_err Hcl Hd1 Hd2.
  exact (child_setup env prog path args p r_out w_out r_err w_err f_out f_err
           Hnd Hr_out Hr_err Hw_out Hw_err Hcl Hd1 Hd2).
Qed.

Lemma child_binds_the_pipes_and_executes_witness :
  NoDup [3; 4; 5; 6; STDOUT_FILENO; STDERR_FILENO] /\
  is_Some (piped_fds !! 3) /\ is_Some (piped_fds !! 5) /\
  piped_fds !! 4 = Some (WriteEnd ChanOut) /\ piped_fds !! 6 = Some (WriteEnd ChanErr) /\
  closes_succeed (boot [] [] [] [] [] []) /\
  launch_dup2_out launch_no_command = CallOk /\
  launch_dup2_err launch_no_command = CallOk /\
  ptotal (child launch_no_command ("hlerr" :: "make" :: ["all"])%string (3, 4) (5, 6))
    (mkProcess (boot [] [] [] [] [] []) piped_fds)
    (fun ending p' =>
       fds p' !! STDOUT_FILENO = Some (WriteEnd ChanOut) /\
       fds p' !! STDERR_FILENO = Some (WriteEnd ChanErr) /\
       (forall fd, fd ∈ [3; 4; 5; 6] -> fds p' !! fd = None) /\
       (forall fd, fd ∉ [3; 4; 5; 6; STDOUT_FILENO; STDERR_FILENO] ->
                   fds p' !! fd = piped_fds !! fd) /\
       match launch_execvp launch_no_command with
       | CallOk => ending = Exec "make" ("make" :: ["all"])%string
       | CallFail e =>
           ending = Exit (-1) /\
           stdio_err (proc p') =
             stdio_err (boot [] [] [] [] [] []) ++ [Perror "Failed to execute" e]
       end).
Proof.
  assert (Hnd : NoDup [3; 4; 5; 6; STDOUT_FILENO; STDERR_FILENO])
    by (unfold STDOUT_FILENO, STDERR_FILENO; compute_done).
  assert (H3 : is_Some (piped_fds !! 3)) by (eexists; reflexivity).
  assert (H5 : is_Some (piped_fds !! 5)) by (eexists; reflexivity).
  assert (Hcl : closes_succeed (boot [] [] [] [] [] [])) by (apply Forall_nil_2).
  split; [exact Hnd|]. split; [exact H3|]. split; [exact H5|].
  split; [reflexivity|]. split; [reflexivity|]. split; [exact Hcl|].
  split; [reflexivity|]. split; [reflexivity|].
  apply (child_binds_the_pipes_and_executes launch_no_command "hlerr" "make" ["all"%string]
           (mkProcess (boot [] [] [] [] [] []) piped_fds) 3 4 5 6
           (WriteEnd ChanOut) (WriteEnd ChanErr) Hnd H3 H5 eq_refl eq_refl Hcl
           eq_refl eq_refl).
Defined.

Lemma close_fd_total fd p :
  ptotal (close_fd fd) p (fun rc p' =>
    closed (proc p') = closed (proc p) ++ [fd] /\
    stdio_err (proc p') = stdio_err (proc p) /\ (rc = 0 \/ rc = -1)).
Proof.
  unfold ptotal, close_fd, sys_close.
  destruct (fds p !! fd); [destruct (os_close (proc p)) as [|[|e] rest]|];
    simpl; auto.
Qed.

Lemma sys_dup2_total o fildes fildes2 p :
  ptotal (sys_dup2 o fildes fildes2) p (fun rc p' =>
    closed (proc p') = closed (proc p) /\
    stdio_err (proc p') = stdio_err (proc p) /\
    ((rc = fildes2 /\ o = CallOk) \/ rc = -1)).
Proof.
  unfold ptotal, sys_dup2.
  destruct (fds p !! fildes); [destruct o|]; simpl; auto.
Qed.

(** X25.  The child becomes the command only after the whole setup:
    if it does, both read ends and both write ends were closed, in this
    order, both [dup2] calls succeeded and nothing was reported.  In
    every other case it exits with [EXIT_FAILURE] or, when [execvp]
    itself failed, with -1, after exactly one [perror]. *)
Theorem child_executes_only_after_the_setup env argv stdout_pipes stderr_pipes p :
  (2 <= length argv)%nat ->
  ptotal (child env argv stdout_pipes stderr_pipes) p (fun ending p' =>
    match ending with
    | Exec path args =>
        argv !! 1%nat = Some path /\ args = tl argv /\
        launch_dup2_out env = CallOk /\ launch_dup2_err env = CallOk /\
        launch_execvp env = CallOk /\
        closed (proc p') =
          closed (proc p) ++
          [fst stdout_pipes; fst stderr_pipes; snd stdout_pipes; snd stderr_pipes] /\
        stdio_err (proc p') = stdio_err (proc p)
    | Exit code =>
        (code = EXIT_FAILURE \/ code = -1 /\ exists e, launch_execvp env = CallFail e) /\
        exists msg e, stdio_err (proc p') = stdio_err (proc p) ++ [Perror msg e]
    end).
Proof.
  intros Hargv.
  destruct argv as [|prog [|path args]]; simpl in Hargv; try lia. clear Hargv.
  match goal with |- ptotal _ _ ?Q => set (Post := Q) end.
  assert (Hfail : forall msg (q : process),
    stdio_err (proc q) = stdio_err (proc p) ->
    ptotal (lift (perror msg);+ pret (Exit EXIT_FAILURE)) q Post).
  { intros msg q Hq. unfold ptotal, pbind, lift, perror, pret, Post. simpl.
    split; [auto|]. rewrite Hq. eauto. }
  unfold child.
  eapply ptotal_bind; [apply close_fd_total|].
  intros rc p1 (Hc1 & He1 & [-> | ->]); [|apply Hfail; exact He1].
  change (0 =? -1) with false. cbv beta iota.
  eapply ptotal_bind; [apply close_fd_total|].
  intros rc p2 (Hc2 & He2 & [-> | ->]); [|apply Hfail; congruence].
  change (0 =? -1) with false. cbv beta iota.
  eapply ptotal_bind; [apply sys_dup2_total|].
  intros rc p3 (Hc3 & He3 & [[-> Hd1] | ->]); [|apply Hfail; congruence].
  change (STDOUT_FILENO =? -1) with false. cbv beta iota.
  eapply ptotal_bind; [apply close_fd_total|].
  intros rc p4 (Hc4 & He4 & [-> | ->]); [|apply Hfail; congruence].
  change (0 =? -1) with false. cbv beta iota.
  eapply ptotal_bind; [apply sys_dup2_total|].
  intros rc p5 (Hc5 & He5 & [[-> Hd2] | ->]); [|apply Hfail; congruence].
  change (STDERR_FILENO =? -1) with false. cbv beta iota.
  eapply ptotal_bind; [apply close_fd_total|].
  intros rc p6 (Hc6 & He6 & [-> | ->]); [|apply Hfail; congruence].
  change (0 =? -1) with false. cbv beta iota.
  unfold ptotal, pbind, sys_execvp, lift, perror, pret, Post.
  destruct (launch_execvp env) as [|e] eqn:Hx; simpl.
  - split_and!; auto; [|congruence].
    rewrite Hc6, Hc5, Hc4, Hc3, Hc2, Hc1, <- !app_assoc. reflexivity.
  - split; [right; eauto|]. exists "Failed to execute"%string, e.
    f_equal. congruence.
Qed.

Lemma child_executes_only_after_the_setup_witness :
  (2 <= length sample_argv)%nat /\
  ptotal (child launch_child sample_argv (3, 4) (5, 6))
    (mkProcess (boot [] [] [] [] [] []) piped_fds)
    (fun ending p' =>
       match ending with
       | Exec path args =>
           sample_argv !! 1%nat = Some path /\ args = tl sample_argv /\
           launch_dup2_out launch_child = CallOk /\
           launch_dup2_err launch_child = CallOk /\
           launch_execvp launch_child = CallOk /\
           closed (proc p') =
             closed (proc (mkProcess (boot [] [] [] [] [] []) piped_fds)) ++
             [fst (3, 4); fst (5, 6); snd (3, 4); snd (5, 6)] /\
           stdio_err (proc p') =
             stdio_err (proc (mkProcess (boot [] [] [] [] [] []) piped_fds))
       | Exit code =>
           (code = EXIT_FAILURE \/
            code = -1 /\ exists e, launch_execvp launch_child = CallFail e) /\
           exists msg e,
             stdio_err (proc p') =
             stdio_err (proc (mkProcess (boot [] [] [] [] [] []) piped_fds))
               ++ [Perror msg e]
       end).
Proof.
  split; [simpl; lia|].
  apply (child_executes_only_after_the_setup launch_child sample_argv (3, 4) (5, 6)
           (mkProcess (boot [] [] [] [] [] []) piped_fds)).
  simpl. lia.
Defined.

(** X26.  The edge the setup does not guard against: when the write
    end of the stdout pipe is itself descriptor 1 (the process was
    started with descriptor 1 closed, so that [pipe] handed it out),
    [dup2] leaves the table as it is and the [close] that follows closes
    descriptor 1: the command is executed without a standard output. *)
Theorem child_closes_a_pipe_that_is_descriptor_1
    env prog path args p r_out r_err w_err f_out f_err :
  NoDup [r_out; r_err; w_err; STDOUT_FILENO; STDERR_FILENO] ->
  is_Some (fds p !! r_out) -> is_Some (fds p !! r_err) ->
  fds p !! STDOUT_FILENO = Some f_out -> fds p !! w_err = Some f_err ->
  closes_succeed (proc p) ->
  launch_dup2_out env = CallOk -> launch_dup2_err env = CallOk ->
  launch_execvp env = CallOk ->
  ptotal (child env (prog :: path :: args) (r_out, STDOUT_FILENO) (r_err, w_err)) p
    (fun ending p' =>
       ending = Exec path (path :: args) /\
       fds p' !! STDOUT_FILENO = None /\ fds p' !! STDERR_FILENO = Some f_err).
Proof.
  intros Hnd [f1 Hr_out] [f2 Hr_err] Hw_out Hw_err Hcl Hd1 Hd2 Hx.
  repeat (apply NoDup_cons in Hnd as [? Hnd]).
  repeat match goal with H : _ ∉ _ :: _ |- _ => apply not_elem_of_cons in H as [? H] end.
  unfold ptotal, child. cbn [fst snd].
  destruct (close_fd_ok r_out p f1) as (s1 & Hrun1 & Hcl1 & He1); auto.
  unfold pbind at 1. rewrite Hrun1. change (0 =? -1) with false. cbv beta iota.
  clear Hrun1.
  destruct (close_fd_ok r_err (mkProcess s1 (delete r_out (fds p))) f2)
    as (s2 & Hrun2 & Hcl2 & He2); auto.
  { simpl. rewrite lookup_delete_ne by congruence. exact Hr_err. }
  unfold pbind at 1. rewrite Hrun2. change (0 =? -1) with false. cbv beta iota.
  simpl in Hcl2, He2, Hrun2 |- *. clear Hrun2.
  unfold pbind at 1. rewrite Hd1.
  rewrite (sys_dup2_ok STDOUT_FILENO STDOUT_FILENO _ f_out)
    by (simpl; rewrite !lookup_delete_ne by congruence; exact Hw_out).
  change (STDOUT_FILENO =? -1) with false. cbv beta iota. simpl proc. simpl fds.
  unfold pbind at 1.
  match goal with |- context [close_fd STDOUT_FILENO ?q] =>
    destruct (close_fd_ok STDOUT_FILENO q f_out) as (s3 & Hrun3 & Hcl3 & He3); auto;
    [simpl; apply lookup_insert_eq|] end.
  rewrite Hrun3. change (0 =? -1) with false. cbv beta iota.
  simpl in Hcl3, He3 |- *. clear Hrun3.
  unfold pbind at 1. rewrite Hd2.
  rewrite (sys_dup2_ok w_err STDERR_FILENO _ f_err)
    by (simpl; rewrite lookup_delete_ne by congruence;
        rewrite lookup_insert_ne by congruence;
        rewrite !lookup_delete_ne by congruence; exact Hw_err).
  change (STDERR_FILENO =? -1) with false. cbv beta iota. simpl proc. simpl fds.
  unfold pbind at 1.
  match goal with |- context [close_fd w_err ?q] =>
    destruct (close_fd_ok w_err q f_err) as (s4 & Hrun4 & Hcl4 & He4); auto;
    [simpl; rewrite lookup_insert_ne by congruence;
     rewrite lookup_delete_ne by congruence;
     rewrite lookup_insert_ne by congruence;
     rewrite !lookup_delete_ne by congruence; exact Hw_err|] end.
  rewrite Hrun4. change (0 =? -1) with false. cbv beta iota.
  unfold pbind, sys_execvp, pret. rewrite Hx. simpl. split_and!; auto.
  - rewrite lookup_delete_ne, lookup_insert_ne by congruence. apply lookup_delete_eq.
  - rewrite lookup_delete_ne by congruence. apply lookup_insert_eq.
Qed.

Lemma child_closes_a_pipe_that_is_descriptor_1_witness :
  NoDup [0; 3; 4; STDOUT_FILENO; STDERR_FILENO] /\
  is_Some (detached_fds !! 0) /\ is_Some (detached_fds !! 3) /\
  detached_fds !! STDOUT_FILENO = Some (WriteEnd ChanOut) /\
  detached_fds !! 4 = Some (WriteEnd ChanErr) /\
  closes_succeed (boot [] [] [] [] [] []) /\
  launch_dup2_out launch_child = CallOk /\ launch_dup2_err launch_child = CallOk /\
  launch_execvp launch_child = CallOk /\
  ptotal (child launch_child ("hlerr" :: "make" :: ["all"])%string (0, STDOUT_FILENO) (3, 4))
    (mkProcess (boot [] [] [] [] [] []) detached_fds)
    (fun ending p' =>
       ending = Exec "make" ("make" :: ["all"])%string /\
       fds p' !! STDOUT_FILENO = None /\
       fds p' !! STDERR_FILENO = Some (WriteEnd ChanErr)).
Proof.
  assert (Hnd : NoDup [0; 3; 4; STDOUT_FILENO; STDERR_FILENO])
    by (unfold STDOUT_FILENO, STDERR_FILENO; compute_done).
  assert (H0 : is_Some (detached_fds !! 0)) by (eexists; reflexivity).
  assert (H3 : is_Some (detached_fds !! 3)) by (eexists; reflexivity).
  assert (Hcl : closes_succeed (boot [] [] [] [] [] [])) by (apply Forall_nil_2).
  split; [exact Hnd|]. split; [exact H0|]. split; [exact H3|].
  split; [reflexivity|]. split; [reflexivity|]. split; [exact Hcl|].
  split; [reflexivity|]. split; [reflexivity|]. split; [reflexivity|].
  apply (child_closes_a_pipe_that_is_descriptor_1 launch_child "hlerr" "make"
           ["all"%string] (mkProcess (boot [] [] [] [] [] []) detached_fds) 0 3 4
           (WriteEnd ChanOut) (WriteEnd ChanErr) Hnd H0 H3 eq_refl eq_refl Hcl
           eq_refl eq_refl eq_refl).
Defined.

(** * The launch as a whole *)

(** X27.  In the child, when the two pipes are made on four distinct
    descriptors other than 1 and 2 and every call of the setup succeeds,
    [main] becomes the command [argv[1]], run with the arguments from
    [argv[1]] on, with descriptor 1 the write end of the stdout pipe,
    descriptor 2 the write end of the stderr pipe, no pipe descriptor
    left open and every other descriptor as [main] found it. *)
Theorem main_in_the_child_becomes_the_command
    env prog path args p r_out w_out r_err w_err :
  NoDup [r_out; w_out; r_err; w_err; STDOUT_FILENO; STDERR_FILENO] ->
  launch_pipe_out env = PipeOk r_out w_out ->
  launch_pipe_err env = PipeOk r_err w_err ->
  launch_fork env = ForkChild ->
  closes_succeed (proc p) ->
  launch_dup2_out env = CallOk -> launch_dup2_err env = CallOk ->
  launch_execvp env = CallOk ->
  ptotal (main env (prog :: path :: args)) p (fun ending p' =>
    ending = Exec path (path :: args) /\
    fds p' !! STDOUT_FILENO = Some (WriteEnd ChanOut) /\
    fds p' !! STDERR_FILENO = Some (WriteEnd ChanErr) /\
    (forall fd, fd ∈ [r_out; w_out; r_err; w_err] -> fds p' !! fd = None) /\
    (forall fd, fd ∉ [r_out; w_out; r_err; w_err; STDOUT_FILENO; STDERR_FILENO] ->
                fds p' !! fd = fds p !! fd)).
Proof.
  intros Hnd H1 H2 H3 Hcl Hd1 Hd2 Hx. unfold ptotal, main.
  replace (Z.of_nat (length (prog :: path :: args)) <=? 1) with false
    by (symmetry; apply Z.leb_gt; simpl length; lia).
  unfold pbind at 1, sys_pipe. rewrite H1. cbn.
  unfold pbind at 1, sys_pipe. rewrite H2. cbn.
  unfold pbind at 1, sys_fork. rewrite H3. cbn.
  set (t := <[w_err := WriteEnd ChanErr]> (<[r_err := ReadEnd ChanErr]>
              (<[w_out := WriteEnd ChanOut]> (<[r_out := ReadEnd ChanOut]> (fds p))))).
  pose proof Hnd as Hnd'.
  repeat (apply NoDup_cons in Hnd' as [? Hnd']).
  repeat match goal with H : _ ∉ _ :: _ |- _ => apply not_elem_of_cons in H as [? H] end.
  pose proof (child_setup env prog path args (mkProcess (proc p) t)
                r_out w_out r_err w_err (WriteEnd ChanOut) (WriteEnd ChanErr) Hnd)
    as Hchild.
  unfold ptotal in Hchild. rewrite Hx in Hchild.
  destruct (child env (prog :: path :: args) (r_out, w_out) (r_err, w_err)
              (mkProcess (proc p) t)) as [[ending p']|].
  - destruct Hchild as (Ht1 & Ht2 & Ht3 & Ht4 & Hend); auto.
    + exists (ReadEnd ChanOut). subst t. simpl.
      rewrite !lookup_insert_ne by congruence. apply lookup_insert_eq.
    + exists (ReadEnd ChanErr). subst t. simpl.
      rewrite lookup_insert_ne by congruence. apply lookup_insert_eq.
    + subst t. simpl. rewrite !lookup_insert_ne by congruence. apply lookup_insert_eq.
    + subst t. simpl. apply lookup_insert_eq.
    + split_and!; auto. intros fd Hfd. rewrite (Ht4 fd Hfd).
      rewrite !not_elem_of_cons in Hfd. destruct Hfd as (? & ? & ? & ? & _).
      subst t. simpl. rewrite !lookup_insert_ne by congruence. reflexivity.
  - apply Hchild; auto.
    + exists (ReadEnd ChanOut). subst t. simpl.
      rewrite !lookup_insert_ne by congruence. apply lookup_insert_eq.
    + exists (ReadEnd ChanErr). subst t. simpl.
      rewrite lookup_insert_ne by congruence. apply lookup_insert_eq.
    + subst t. simpl. rewrite !lookup_insert_ne by congruence. apply lookup_insert_eq.
    + subst t. simpl. apply lookup_insert_eq.
Qed.

Lemma main_in_the_child_becomes_the_command_witness :
  NoDup [3; 4; 5; 6; STDOUT_FILENO; STDERR_FILENO] /\
  launch_pipe_out launch_child = PipeOk 3 4 /\
  launch_pipe_err launch_child = PipeOk 5 6 /\
  launch_fork launch_child = ForkChild /\
  closes_succeed (proc (mkProcess (boot [] [] [] [] [] []) standard_fds)) /\
  launch_dup2_out launch_child = CallOk /\ launch_dup2_err launch_child = CallOk /\
  launch_execvp launch_child = CallOk /\
  ptotal (main launch_child ("hlerr" :: "make" :: ["all"])%string)
    (mkProcess (boot [] [] [] [] [] []) standard_fds)
    (fun ending p' =>
       ending = Exec "make" ("make" :: ["all"])%string /\
       fds p' !! STDOUT_FILENO = Some (WriteEnd ChanOut) /\
       fds p' !! STDERR_FILENO = Some (WriteEnd ChanErr) /\
       (forall fd, fd ∈ [3; 4; 5; 6] -> fds p' !! fd = None) /\
       (forall fd, fd ∉ [3; 4; 5; 6; STDOUT_FILENO; STDERR_FILENO] ->
                   fds p' !! fd =
                   fds (mkProcess (boot [] [] [] [] [] []) standard_fds) !! fd)).
Proof.
  assert (Hnd : NoDup [3; 4; 5; 6; STDOUT_FILENO; STDERR_FILENO])
    by (unfold STDOUT_FILENO, STDERR_FILENO; compute_done).
  assert (Hcl : closes_succeed (proc (mkProcess (boot [] [] [] [] [] []) standard_fds)))
    by (apply Forall_nil_2).
  split; [exact Hnd|]. split; [reflexivity|]. split; [reflexivity|].
  split; [reflexivity|]. split; [exact Hcl|]. split; [reflexivity|].
  split; [reflexivity|]. split; [reflexivity|].
  apply (main_in_the_child_becomes_the_command launch_child "hlerr" "make" ["all"%string]
           (mkProcess (boot [] [] [] [] [] []) standard_fds) 3 4 5 6
           Hnd eq_refl eq_refl eq_refl Hcl eq_refl eq_refl eq_refl).
Defined.
